(** * Verification of the APEX-v1-extended evaluation pipeline

    Shallow embedding of [apex-evals-v1-extended/examples/run_with_hf.py]:
    the rubric codec ([parse_rubric], [json.dumps]), the generation and
    grading adapters ([run_generation], [run_grading]), the row assembler
    ([process_task]) and the checkpointed writer ([load_existing_results],
    [main]).

    Conventions.
    - A Python [str] is a sequence of Unicode code points: [list N].
      [py "abc"] turns an ASCII literal into such a sequence.
    - A Python [dict] whose order is observable (a rubric, which is printed
      by [json.dumps]) is an association list with unique keys in insertion
      order; the result row, which is only read by key, is a [gmap].
    - Exceptions are values of [exn]; effectful code lives in the monad
      [M], which threads the state of the outside world (the two model
      collaborators) and a trace of the calls and log records made.
    - A Python [float] is an IEEE 754 binary64 value; reading a number
      literal rounds it to the nearest float and [repr] prints the
      shortest decimal that reads back as the float. *)

From Stdlib Require Import ZArith NArith List String Ascii Lia Bool.
From Stdlib Require Import DecimalFacts DecimalPos DecimalN DecimalString.
From stdpp Require Import gmap list.

Local Open Scope N_scope.
Local Open Scope list_scope.

(** ** Python strings *)

Abbreviation str := (list N).

Definition py (s : string) : str :=
  List.map N_of_ascii (list_ascii_of_string s).

(** [str.isspace] for one code point (the characters [str.strip] removes). *)
Definition py_isspace (c : N) : bool :=
  ((9 <=? c) && (c <=? 13)) || ((28 <=? c) && (c <=? 32))
  || (c =? 133) || (c =? 160) || (c =? 5760)
  || ((8192 <=? c) && (c <=? 8202))
  || (c =? 8232) || (c =? 8233) || (c =? 8239) || (c =? 8287) || (c =? 12288).

Fixpoint lstrip (s : str) : str :=
  match s with
  | c :: s' => if py_isspace c then lstrip s' else s
  | [] => []
  end.

Definition strip (s : str) : str := rev (lstrip (rev (lstrip s))).

(** A string is blank when it is empty or made of whitespace only. *)
Definition blank (s : str) : Prop := Forall (fun c => py_isspace c = true) s.

(** [s[:n]] for a non-negative [n]. *)
Definition py_take (n : nat) (s : str) : str := take n s.

Fixpoint starts_with (p s : str) : bool :=
  match p, s with
  | [], _ => true
  | a :: p', b :: s' => (a =? b) && starts_with p' s'
  | _ :: _, [] => false
  end.

(** [s.replace(old, new)] for a non-empty [old]: leftmost non-overlapping
    occurrences. [skip] counts the characters of a match still to drop. *)
Fixpoint replace_from (old new : str) (skip : nat) (s : str) : str :=
  match s with
  | [] => []
  | c :: s' =>
    match skip with
    | S k => replace_from old new k s'
    | O =>
      if starts_with old s
      then new ++ replace_from old new (length old - 1) s'
      else c :: replace_from old new 0 s'
    end
  end.

Definition py_replace (old new s : str) : str := replace_from old new 0 s.

(** [s.split(sep)] for a one-character separator. *)
Fixpoint split_on (sep : N) (s : str) : list str :=
  match s with
  | [] => [[]]
  | c :: s' =>
    if c =? sep then [] :: split_on sep s'
    else match split_on sep s' with
         | w :: ws => (c :: w) :: ws
         | [] => [[c]]
         end
  end.

Fixpoint join (sep : str) (l : list str) : str :=
  match l with
  | [] => []
  | [x] => x
  | x :: l' => x ++ sep ++ join sep l'
  end.

(** Decimal digits and their characters. *)
Definition digit_code (d : digits) : N :=
  match d with
  | d0 => 48 | d1 => 49 | d2 => 50 | d3 => 51 | d4 => 52
  | d5 => 53 | d6 => 54 | d7 => 55 | d8 => 56 | d9 => 57
  end.

Definition digit_of_code (c : N) : option digits :=
  if c =? 48 then Some d0 else if c =? 49 then Some d1
  else if c =? 50 then Some d2 else if c =? 51 then Some d3
  else if c =? 52 then Some d4 else if c =? 53 then Some d5
  else if c =? 54 then Some d6 else if c =? 55 then Some d7
  else if c =? 56 then Some d8 else if c =? 57 then Some d9
  else None.

Definition digits_str (ds : list digits) : str := List.map digit_code ds.

(** [str(n)] for a natural number and for an integer. *)
Definition N_repr (n : N) : str := digits_str (to_list (N.to_uint n)).

Definition int_repr (z : Z) : str :=
  match z with
  | Z0 => N_repr 0
  | Zpos p => N_repr (Npos p)
  | Zneg p => 45 :: N_repr (Npos p)
  end.

(** ** Python floats *)

Definition digits_N (ds : list digits) : N := N.of_uint (of_list ds).

(** A decimal numeral: the value [0.ds * 10^decpt], with its sign. *)
Inductive decimal := Dec (neg : bool) (ds : list digits) (decpt : Z).

Fixpoint lstrip0 (ds : list digits) (decpt : Z) : list digits * Z :=
  match ds with
  | d0 :: ds' => lstrip0 ds' (decpt - 1)%Z
  | _ => (ds, decpt)
  end.

Fixpoint drop0 (ds : list digits) : list digits :=
  match ds with
  | d0 :: ds' => drop0 ds'
  | _ => ds
  end.

Definition rstrip0 (ds : list digits) : list digits := rev (drop0 (rev ds)).

(** The normal form of a decimal: no leading and no trailing zero digit;
    zero is the empty digit list with [decpt = 0]. *)
Definition dec_norm (neg : bool) (ds : list digits) (decpt : Z) : decimal :=
  let '(ds1, e) := lstrip0 ds decpt in
  match rstrip0 ds1 with
  | [] => Dec neg [] 0
  | ds2 => Dec neg ds2 e
  end.

Definition dec_wf (d : decimal) : Prop :=
  match d with
  | Dec _ [] e => e = 0%Z
  | Dec _ ds _ => head ds ≠ Some d0 ∧ head (rev ds) ≠ Some d0
  end.

Definition zeros (n : nat) : list digits := repeat d0 n.

(** A Python [float]: an IEEE 754 binary64 value.  [FNum neg m e] is
    [m * 2^e]; in a value that a float can hold [m] has at most 53 bits,
    [e] lies between -1074 and 971, and [m] has exactly 53 bits unless
    [e = -1074] (a subnormal number). *)
Inductive pyfloat :=
| FNan
| FInf (neg : bool)
| FZero (neg : bool)
| FNum (neg : bool) (m : positive) (e : Z).

#[global] Instance pyfloat_eq_dec : EqDecision pyfloat.
Proof. solve_decision. Defined.

Definition float_ok (f : pyfloat) : Prop :=
  match f with
  | FNum _ m e =>
    (Zpos m < 2 ^ 53 /\ -1074 <= e <= 971 /\ (e = -1074 \/ 2 ^ 52 <= Zpos m))%Z
  | _ => True
  end.

(** [a / b] rounded to the nearest integer, a tie going to the even one
    ([0 <= a], [0 < b]). *)
Definition round_div (a b : Z) : Z :=
  let q := (a / b)%Z in
  match (2 * (a mod b) ?= b)%Z with
  | Lt => q
  | Gt => (q + 1)%Z
  | Eq => if Z.even q then q else (q + 1)%Z
  end.

Definition bit_length (n : Z) : Z :=
  if (n =? 0)%Z then 0%Z else (Z.log2 n + 1)%Z.

(** The float nearest to [(a / b) * 2^-1074] (round-half-even); what is
    too large becomes an infinity, what is too small a zero. *)
Definition round_scaled (neg : bool) (a b : Z) : pyfloat :=
  let s := Z.max 0 (bit_length (a / b) - 53) in
  let m := round_div a (b * 2 ^ s) in
  let '(m, e) := if (m =? 2 ^ 53)%Z
                 then (2 ^ 52, s - 1074 + 1)%Z else (m, s - 1074)%Z in
  match m with
  | Zpos p => if (971 <? e)%Z then FInf neg else FNum neg p e
  | _ => FZero neg
  end.

(** [0.ds * 10^decpt * 2^1074] as a fraction. *)
Definition dec_scaled (ds : list digits) (decpt : Z) : Z * Z :=
  let p := (decpt - Z.of_nat (length ds))%Z in
  (Z.of_N (digits_N ds) * 10 ^ Z.max p 0 * 2 ^ 1074, 10 ^ Z.max (- p) 0)%Z.

(** [float(s)] for a decimal numeral. *)
Definition float_of_decimal (d : decimal) : pyfloat :=
  let 'Dec neg ds decpt := d in
  let '(a, b) := dec_scaled ds decpt in
  round_scaled neg a b.

(** The decimal expansion of [m * 2^e], which is finite. *)
Definition exact_decimal (neg : bool) (m : positive) (e : Z) : decimal :=
  if (0 <=? e)%Z then
    let ds := to_list (N.to_uint (Npos m * 2 ^ Z.to_N e)) in
    dec_norm neg ds (Z.of_nat (length ds))
  else
    let ds := to_list (N.to_uint (Npos m * 5 ^ Z.to_N (- e))) in
    dec_norm neg ds (Z.of_nat (length ds) + e).

(** The two decimals with [n] significant digits next to [0.ds * 10^decpt]:
    the digits cut after the [n]-th, and that plus one unit. *)
Definition cut_down (neg : bool) (ds : list digits) (decpt : Z) (n : nat)
    : decimal :=
  dec_norm neg (take n ds) decpt.

Definition cut_up (neg : bool) (ds : list digits) (decpt : Z) (n : nat)
    : decimal :=
  let hs := to_list (N.to_uint (digits_N (take n ds) + 1)) in
  dec_norm neg hs (decpt + Z.of_nat (length hs) - Z.of_nat (length (take n ds))).

(** The digits dropped, against half a unit. *)
Definition half_cmp (rest : list digits) : comparison :=
  match rest with
  | [] => Lt
  | d :: t =>
    match digits_N [d] ?= 5 with
    | Lt => Lt
    | Gt => Gt
    | Eq => match drop0 t with [] => Eq | _ => Gt end
    end
  end.

(** The decimal with [n] significant digits that reads back as [x], if
    there is one; of two, the one nearer to the exact value (the even one
    when they are as near). *)
Definition pick (x : pyfloat) (neg : bool) (ds : list digits) (decpt : Z)
    (n : nat) : option decimal :=
  let lo := cut_down neg ds decpt n in
  let hi := cut_up neg ds decpt n in
  match bool_decide (float_of_decimal lo = x),
        bool_decide (float_of_decimal hi = x) with
  | true, true =>
    match half_cmp (drop n ds) with
    | Lt => Some lo
    | Gt => Some hi
    | Eq => if N.even (digits_N (take n ds)) then Some lo else Some hi
    end
  | true, false => Some lo
  | false, true => Some hi
  | false, false => None
  end.

Fixpoint shortest_from (x : pyfloat) (neg : bool) (ds : list digits)
    (decpt : Z) (fuel n : nat) : decimal :=
  match fuel with
  | O => Dec neg ds decpt
  | S f =>
    match pick x neg ds decpt n with
    | Some c => c
    | None => shortest_from x neg ds decpt f (S n)
    end
  end.

(** The digits of [repr(x)]: the shortest decimal that reads back as [x]
    (of several, the nearest to [x]). *)
Definition repr_decimal (neg : bool) (m : positive) (e : Z) : decimal :=
  let 'Dec _ ds decpt := exact_decimal neg m e in
  shortest_from (FNum neg m e) neg ds decpt (length ds) 1.

Definition exp_repr (e : Z) : str :=
  let a := Z.abs_N e in
  (if (e <? 0)%Z then 45 else 43)
  :: (if a <? 10 then 48 :: N_repr a else N_repr a).

(** How [float.__repr__] writes the digits it has chosen: positional
    notation when [-4 < decpt <= 16], exponent notation otherwise. *)
Definition dec_repr (d : decimal) : str :=
  let 'Dec neg ds decpt := d in
  (if neg then [45] else []) ++
  match ds with
  | [] => py "0.0"
  | d :: ds' =>
    if ((-4 <? decpt) && (decpt <=? 16))%Z then
      if (decpt <=? 0)%Z then
        py "0." ++ digits_str (zeros (Z.to_nat (- decpt)) ++ ds)
      else if (decpt <? Z.of_nat (length ds))%Z then
        digits_str (take (Z.to_nat decpt) ds) ++ 46
        :: digits_str (drop (Z.to_nat decpt) ds)
      else
        digits_str (ds ++ zeros (Z.to_nat decpt - length ds)) ++ py ".0"
    else
      digit_code d
      :: match ds' with
         | [] => []
         | _ => 46 :: digits_str ds'
         end
      ++ 101 :: exp_repr (decpt - 1)
  end.

(** [float.__repr__] *)
Definition float_repr (f : pyfloat) : str :=
  match f with
  | FNan => py "nan"
  | FInf false => py "inf"
  | FInf true => py "-inf"
  | FZero neg => dec_repr (Dec neg [] 0)
  | FNum neg m e => dec_repr (repr_decimal neg m e)
  end.

(** [bool(f)] *)
Definition float_truthy (f : pyfloat) : bool :=
  match f with
  | FZero _ => false
  | _ => true
  end.

(** ** JSON values, as [json.loads] builds them and [json.dumps] prints them *)

#[local] Unset Elimination Schemes.
Inductive json :=
| JNull
| JBool (b : bool)
| JInt (z : Z)
| JFloat (f : pyfloat)
| JStr (s : str)
| JList (l : list json)
| JDict (d : list (str * json)).
#[local] Set Elimination Schemes.

(** A [dict] with string keys, in insertion order. *)
Abbreviation pydict := (list (str * json)).

Definition str_eqb (a b : str) : bool := bool_decide (a = b).

Fixpoint dict_get (d : pydict) (k : str) : option json :=
  match d with
  | [] => None
  | (k', v) :: d' => if str_eqb k' k then Some v else dict_get d' k
  end.

(** [k in d] *)
Definition dict_has (d : pydict) (k : str) : bool :=
  match dict_get d k with Some _ => true | None => false end.

(** [d[k] = v]: an existing key keeps its position, a new key goes last. *)
Fixpoint dict_set (d : pydict) (k : str) (v : json) : pydict :=
  match d with
  | [] => [(k, v)]
  | (k', v') :: d' =>
    if str_eqb k' k then (k', v) :: d' else (k', v') :: dict_set d' k v
  end.

Definition dict_keys (d : pydict) : list str := List.map fst d.

(** [bool(x)] *)
Definition truthy (v : json) : bool :=
  match v with
  | JNull => false
  | JBool b => b
  | JInt z => negb (z =? 0)%Z
  | JFloat f => float_truthy f
  | JStr s => match s with [] => false | _ => true end
  | JList l => match l with [] => false | _ => true end
  | JDict d => match d with [] => false | _ => true end
  end.

(** [type(x).__name__] *)
Definition type_name (v : json) : str :=
  match v with
  | JNull => py "NoneType"
  | JBool _ => py "bool"
  | JInt _ => py "int"
  | JFloat _ => py "float"
  | JStr _ => py "str"
  | JList _ => py "list"
  | JDict _ => py "dict"
  end.

(** *** [json.dumps(v, ensure_ascii=False)] *)

Definition hex_code (n : N) : N := if n <? 10 then 48 + n else 87 + n.

Definition escape_char (c : N) : str :=
  if c =? 34 then [92; 34]
  else if c =? 92 then [92; 92]
  else if c =? 10 then [92; 110]
  else if c =? 13 then [92; 114]
  else if c =? 9 then [92; 116]
  else if c =? 8 then [92; 98]
  else if c =? 12 then [92; 102]
  else if c <? 32 then [92; 117; 48; 48; hex_code (c / 16); hex_code (c mod 16)]
  else [c].

Definition encode_string (s : str) : str :=
  34 :: flat_map escape_char s ++ [34].

Definition json_float_repr (f : pyfloat) : str :=
  match f with
  | FNan => py "NaN"
  | FInf false => py "Infinity"
  | FInf true => py "-Infinity"
  | _ => float_repr f
  end.

Fixpoint json_dumps (v : json) : str :=
  match v with
  | JNull => py "null"
  | JBool true => py "true"
  | JBool false => py "false"
  | JInt z => int_repr z
  | JFloat f => json_float_repr f
  | JStr s => encode_string s
  | JList l => 91 :: join (py ", ") (List.map json_dumps l) ++ [93]
  | JDict d =>
    123 :: join (py ", ")
             (List.map (fun kv => encode_string (fst kv) ++ py ": " ++ json_dumps (snd kv)) d)
    ++ [125]
  end.

(** *** [json.loads(s)] *)

(** What scanning a value gives: the value and the rest of the text, or
    one of the ways to fail.  [TooDeep what] is the [RecursionError] raised
    on entering one container ([what] is [object] or [array]) more than the
    interpreter allows; [TooLong n] is the [ValueError] that [int] raises
    for an integer literal of [n] digits, more than
    [sys.get_int_max_str_digits()]. *)
Inductive presult (A : Type) :=
| Parsed (a : A) (rest : str)
| Malformed
| OutOfFuel
| TooDeep (what : str)
| TooLong (digits : nat).
Arguments Parsed {A} a rest.
Arguments Malformed {A}.
Arguments OutOfFuel {A}.
Arguments TooDeep {A} what.
Arguments TooLong {A} digits.

(** The default of [sys.get_int_max_str_digits()]. *)
Definition int_max_str_digits : nat := 4300.

(** The number of digits of an integer that is too long to be read. *)
Definition int_digits_over (v : json) : option nat :=
  match v with
  | JInt z =>
    let n := length (N_repr (Z.abs_N z)) in
    if (n <=? int_max_str_digits)%nat then None else Some n
  | _ => None
  end.

Definition json_ws (c : N) : bool :=
  (c =? 32) || (c =? 9) || (c =? 10) || (c =? 13).

Fixpoint skip_ws (s : str) : str :=
  match s with
  | c :: s' => if json_ws c then skip_ws s' else s
  | [] => []
  end.

Definition hex_val (c : N) : option N :=
  if (48 <=? c) && (c <=? 57) then Some (c - 48)
  else if (97 <=? c) && (c <=? 102) then Some (c - 87)
  else if (65 <=? c) && (c <=? 70) then Some (c - 55)
  else None.

Definition hex4 (a b c d : N) : option N :=
  match hex_val a, hex_val b, hex_val c, hex_val d with
  | Some x, Some y, Some z, Some w => Some (((x * 16 + y) * 16 + z) * 16 + w)
  | _, _, _, _ => None
  end.

Definition is_high_surrogate (u : N) : bool := (55296 <=? u) && (u <=? 56319).
Definition is_low_surrogate (u : N) : bool := (56320 <=? u) && (u <=? 57343).
Definition join_surrogates (hi lo : N) : N :=
  65536 + (hi - 55296) * 1024 + (lo - 56320).

(** The character a one-letter escape stands for. *)
Definition unescape (e : N) : option N :=
  if e =? 34 then Some 34
  else if e =? 92 then Some 92
  else if e =? 47 then Some 47
  else if e =? 98 then Some 8
  else if e =? 102 then Some 12
  else if e =? 110 then Some 10
  else if e =? 114 then Some 13
  else if e =? 116 then Some 9
  else None.

(** The body of a string literal, after its opening quote (strict mode:
    raw control characters are refused). *)
Fixpoint scanstring (s : str) (acc : str) : option (str * str) :=
  match s with
  | [] => None
  | c :: s1 =>
    if c =? 34 then Some (rev acc, s1)
    else if c =? 92 then
      match s1 with
      | [] => None
      | e :: s2 =>
        if e =? 117 then
          match s2 with
          | h1 :: h2 :: h3 :: h4 :: s3 =>
            match hex4 h1 h2 h3 h4 with
            | None => None
            | Some u =>
              if is_high_surrogate u then
                match s3 with
                | b :: m :: g1 :: g2 :: g3 :: g4 :: s4 =>
                  if (b =? 92) && (m =? 117) then
                    match hex4 g1 g2 g3 g4 with
                    | Some u2 =>
                      if is_low_surrogate u2
                      then scanstring s4 (join_surrogates u u2 :: acc)
                      else scanstring s3 (u :: acc)
                    | None => None
                    end
                  else scanstring s3 (u :: acc)
                | _ => scanstring s3 (u :: acc)
                end
              else scanstring s3 (u :: acc)
            end
          | _ => None
          end
        else
          match unescape e with
          | Some c' => scanstring s2 (c' :: acc)
          | None => None
          end
      end
    else if c <? 32 then None
    else scanstring s1 (c :: acc)
  end.

Fixpoint scan_digits (s : str) : list digits * str :=
  match s with
  | c :: s' =>
    match digit_of_code c with
    | Some d => let '(ds, r) := scan_digits s' in (d :: ds, r)
    | None => ([], s)
    end
  | [] => ([], [])
  end.

Definition signed (neg : bool) (n : N) : Z :=
  if neg then (- Z.of_N n)%Z else Z.of_N n.

(** The integer part of a number: [0] or a digit string without leading
    zero. *)
Definition scan_int_part (s : str) : option (list digits * str) :=
  match s with
  | c :: s' =>
    if c =? 48 then Some ([d0], s')
    else match scan_digits s with
         | ([], _) => None
         | (ds, r) => Some (ds, r)
         end
  | [] => None
  end.

(** An optional fraction [.digits+]. *)
Definition scan_frac (s : str) : option (list digits) * str :=
  match s with
  | c :: s' =>
    if c =? 46 then
      match scan_digits s' with
      | ([], _) => (None, s)
      | (ds, r) => (Some ds, r)
      end
    else (None, s)
  | [] => (None, s)
  end.

(** An optional exponent [[eE][-+]?digits+]. *)
Definition scan_exp (s : str) : option Z * str :=
  match s with
  | c :: s' =>
    if (c =? 101) || (c =? 69) then
      let '(neg, s'') :=
        match s' with
        | g :: t => if g =? 45 then (true, t) else if g =? 43 then (false, t) else (false, s')
        | [] => (false, s')
        end in
      match scan_digits s'' with
      | ([], _) => (None, s)
      | (ds, r) => (Some (signed neg (digits_N ds)), r)
      end
    else (None, s)
  | [] => (None, s)
  end.

(** The decimal that the pieces of a number literal denote, and
    [float(literal)]: the float nearest to it. *)
Definition decimal_of_literal (neg : bool) (ip : list digits)
    (fp : option (list digits)) (ex : option Z) : decimal :=
  dec_norm neg (ip ++ default [] fp)
    (Z.of_nat (length ip) + default 0%Z ex).

Definition float_of_literal (neg : bool) (ip : list digits)
    (fp : option (list digits)) (ex : option Z) : pyfloat :=
  float_of_decimal (decimal_of_literal neg ip fp ex).

Definition match_number (s : str) : option (json * str) :=
  let '(neg, s0) :=
    match s with
    | c :: s' => if c =? 45 then (true, s') else (false, s)
    | [] => (false, s)
    end in
  match scan_int_part s0 with
  | None => None
  | Some (ip, r1) =>
    let '(fp, r2) := scan_frac r1 in
    let '(ex, r3) := scan_exp r2 in
    match fp, ex with
    | None, None => Some (JInt (signed neg (digits_N ip)), r3)
    | _, _ => Some (JFloat (float_of_literal neg ip fp ex), r3)
    end
  end.

Definition literal (lit : str) (v : json) (s : str) : presult json :=
  if starts_with lit s then Parsed v (drop (length lit) s) else Malformed.

(** [depth] is the number of containers that may still be entered. *)
Fixpoint scan_once (fuel depth : nat) (s : str) : presult json :=
  match fuel with
  | O => OutOfFuel
  | S f =>
    match s with
    | [] => Malformed
    | c :: s' =>
      if c =? 34 then
        match scanstring s' [] with
        | Some (x, r) => Parsed (JStr x) r
        | None => Malformed
        end
      else if c =? 123 then
        match depth with
        | O => TooDeep (py "object")
        | S dp =>
          match skip_ws s' with
          | c1 :: s2 =>
            if c1 =? 125 then Parsed (JDict []) s2
            else parse_members f dp (c1 :: s2) []
          | [] => Malformed
          end
        end
      else if c =? 91 then
        match depth with
        | O => TooDeep (py "array")
        | S dp =>
          match skip_ws s' with
          | c1 :: s2 =>
            if c1 =? 93 then Parsed (JList []) s2
            else parse_items f dp (c1 :: s2) []
          | [] => Malformed
          end
        end
      else if c =? 110 then literal (py "null") JNull s
      else if c =? 116 then literal (py "true") (JBool true) s
      else if c =? 102 then literal (py "false") (JBool false) s
      else if c =? 78 then literal (py "NaN") (JFloat FNan) s
      else if c =? 73 then literal (py "Infinity") (JFloat (FInf false)) s
      else if starts_with (py "-Infinity") s
      then Parsed (JFloat (FInf true)) (drop 9 s)
      else match match_number s with
           | Some (v, r) =>
             match int_digits_over v with
             | Some n => TooLong n
             | None => Parsed v r
             end
           | None => Malformed
           end
    end
  end
with parse_items (fuel depth : nat) (s : str) (acc : list json)
    : presult json :=
  match fuel with
  | O => OutOfFuel
  | S f =>
    match scan_once f depth s with
    | Parsed v r =>
      match skip_ws r with
      | c :: r' =>
        if c =? 93 then Parsed (JList (rev (v :: acc))) r'
        else if c =? 44 then parse_items f depth (skip_ws r') (v :: acc)
        else Malformed
      | [] => Malformed
      end
    | failure => failure
    end
  end
with parse_members (fuel depth : nat) (s : str) (acc : pydict)
    : presult json :=
  match fuel with
  | O => OutOfFuel
  | S f =>
    match s with
    | c :: s' =>
      if c =? 34 then
        match scanstring s' [] with
        | Some (k, r) =>
          match skip_ws r with
          | c2 :: r2 =>
            if c2 =? 58 then
              match scan_once f depth (skip_ws r2) with
              | Parsed v r3 =>
                match skip_ws r3 with
                | c3 :: r4 =>
                  if c3 =? 125 then Parsed (JDict (dict_set acc k v)) r4
                  else if c3 =? 44
                  then parse_members f depth (skip_ws r4) (dict_set acc k v)
                  else Malformed
                | [] => Malformed
                end
              | failure => failure
              end
            else Malformed
          | [] => Malformed
          end
        | None => Malformed
        end
      else Malformed
    | [] => Malformed
    end
  end.

(** The outcome of [json.loads]: the value, or the exception raised. *)
Inductive loaded :=
| Loaded (v : json)
| JSONDecodeError
| RecursionLimit (what : str)
| IntDigitsLimit (digits : nat).

(** [json.loads] in an interpreter that lets it enter [max_depth] nested
    containers: one value, surrounded by optional whitespace, nothing
    else. *)
Definition json_loads (max_depth : nat) (s : str) : loaded :=
  match scan_once (2 * length s + 1) max_depth (skip_ws s) with
  | Parsed v r =>
    match skip_ws r with
    | [] => Loaded v
    | _ :: _ => JSONDecodeError
    end
  | TooDeep what => RecursionLimit what
  | TooLong n => IntDigitsLimit n
  | _ => JSONDecodeError
  end.

(** ** Exceptions and row values *)

(** A Python exception: its class name and [str(e)]. Only exceptions that
    [except Exception] catches are modelled. *)
Record exn := Exn { exn_class : str; exn_msg : str }.

Definition ValueError (msg : str) : exn := Exn (py "ValueError") msg.
Definition AttributeError (msg : str) : exn := Exn (py "AttributeError") msg.
Definition TypeError (msg : str) : exn := Exn (py "TypeError") msg.
Definition SystemExit (code : str) : exn := Exn (py "SystemExit") code.
Definition RecursionError (msg : str) : exn := Exn (py "RecursionError") msg.
Definition UnicodeEncodeError (msg : str) : exn :=
  Exn (py "UnicodeEncodeError") msg.

Inductive outcome (A : Type) :=
| Ok (a : A)
| Raise (e : exn).
Arguments Ok {A} a.
Arguments Raise {A} e.

(** A cell read by [csv.DictReader]: a string, or [None] when the record
    is shorter than the header. *)
Abbreviation cell := (option str).

(** A value stored in the result row. *)
Inductive value :=
| VNone
| VStr (s : str)
| VInt (z : Z)
| VFloat (f : pyfloat).

Definition value_of_cell (c : cell) : value :=
  match c with
  | Some s => VStr s
  | None => VNone
  end.

(** [d.get(k, default)] on a record read by [csv.DictReader]. *)
Definition get_cell (d : gmap str cell) (k : str) (dflt : str) : cell :=
  match d !! k with
  | Some c => c
  | None => Some dflt
  end.

(** ** Configuration *)

Record model_cfg := {
  model_id : str;
  model_configs : option pydict;
  temperature : json;
  top_p : json;
  max_tokens : Z;
  max_input_tokens : Z
}.

Definition MODELS : list model_cfg := [
  {| model_id := py "claude-opus-4-5-20251101";
     model_configs := Some [(py "reasoning_effort", JStr (py "high"))];
     temperature := JInt 1;
     top_p := JFloat (FNum false 8106479329266893 (-53));
     max_tokens := 64000;
     max_input_tokens := 200000 |};
  {| model_id := py "gemini-3-pro-preview";
     model_configs := Some [(py "reasoning_effort", JStr (py "high"))];
     temperature := JFloat (FNum false 6305039478318694 (-53));
     top_p := JFloat (FNum false 8106479329266893 (-53));
     max_tokens := 65535;
     max_input_tokens := 1048576 |}
].

Definition GRADING_MODEL : str := py "gemini-2.5-flash".
Definition GRADING_MAX_TOKENS : Z := 65535.
Definition NUMBER_OF_RUNS : nat := 1.

(** [range(1, n + 1)] *)
Definition run_range (n : nat) : list N := List.map N.of_nat (seq 1 n).

(** ** The collaborators *)

Record Attachment := { filename : str; url : str }.

Record ModelConfig := {
  mc_model_id : str;
  mc_max_tokens : Z;
  mc_temperature : json;
  mc_model_configs : option pydict;
  mc_number_of_runs : nat
}.

Record GenerationTask := {
  gt_prompt : str;
  gt_models : list ModelConfig;
  gt_attachments : option (list Attachment)
}.

(** One entry of [result.results]: [r.get("success")] as a truth value,
    [r.get("response")] and [r.get("error_message")] ([None] when the key
    is absent). *)
Record generation_item := {
  gi_success : bool;
  gi_response : option str;
  gi_error_message : option str
}.

Record GenerationResult := { results : list generation_item }.

Record GradingModelConfig := {
  gm_model_id : str;
  gm_max_tokens : Z;
  gm_temperature : pyfloat
}.

Record GradingTask := {
  solution : str;
  rubric : str;
  grading_model : GradingModelConfig
}.

(** One per-criterion verdict; a field is [None] when its key is absent. *)
Record criterion_result := {
  criterion_key : option str;
  cr_autorating : option json;
  cr_reason : option json
}.

Record GradingResult := {
  criteria_results : list criterion_result;
  percentage_score : pyfloat
}.

(** What the pipeline is run against: the two model collaborators (each
    call may change the outside world and may raise), the prompt template
    read at import time, the file-system queries of [os.path], the text of a
    [JSONDecodeError], and the number of nested containers that
    [json.loads] can enter before the interpreter's recursion limit is
    reached. *)
Class Env := {
  World : Type;
  run_generation_task_async :
    GenerationTask -> World -> (exn + GenerationResult) * World;
  run_grading_task_async :
    GradingTask -> World -> (exn + GradingResult) * World;
  PROMPT_TEMPLATE : str;
  path_exists : str -> bool;
  path_join : str -> str -> str;
  path_basename : str -> str;
  path_abspath : str -> str;
  json_error_text : str -> str;
  json_max_depth : nat;
  encode_error_text : list str -> str
}.

(** The normalized result of [run_generation]. *)
Record generation := {
  success : bool;
  response : str;
  error : option str
}.

(** The result of [run_grading]. *)
Record grade := {
  score : pyfloat;
  score_summary : str
}.

(** ** State, trace and monad *)

Inductive log_record :=
| LogProcessing (task_id : cell)
| LogRun (model : str) (run : N) (num_runs : nat)
| LogFileNotFound (full_path : str)
| LogGradingFailed (model : str) (run : N) (e : exn)
| LogScore (s : pyfloat)
| LogTaskFailed (task_id : cell) (e : exn)
| LogInputNotFound (csv_path : str)
| LogProcessingCount (n : nat)
| LogSkipping (task_id : cell)
| LogDone (processed : nat) (out : str).

(** The trace holds the log records and, for every (model, run) pair, what
    the generation adapter returned and how the grading adapter ended. *)
Inductive event :=
| EvLog (r : log_record)
| EvGenerated (model : str) (run : N) (gen : generation)
| EvGraded (model : str) (run : N) (res : outcome grade).

(** A CSV file as [csv.reader] sees it: whether it can be read to the end
    (opened, decoded, every field within [csv.field_size_limit()]), and the
    records that are read from it (the first one is the header).  A file
    is a sequence of complete records, each ended by its line terminator,
    as [csv.writer] leaves it. *)
Record csv_file := {
  readable : bool;
  records : list (list str)
}.

Record state `{Env} := {
  world : World;
  trace : list event;
  result_row : gmap str value;
  out_file : option csv_file
}.

Definition M `{Env} (A : Type) : Type := state -> outcome A * state.

Definition ret `{Env} {A} (a : A) : M A := fun st => (Ok a, st).

Definition bind `{Env} {A B} (m : M A) (k : A -> M B) : M B :=
  fun st =>
    match m st with
    | (Ok a, st') => k a st'
    | (Raise e, st') => (Raise e, st')
    end.

Definition raise `{Env} {A} (e : exn) : M A := fun st => (Raise e, st).

(** [try: m  except Exception as e: h e] *)
Definition try_except `{Env} {A} (m : M A) (h : exn -> M A) : M A :=
  fun st =>
    match m st with
    | (Ok a, st') => (Ok a, st')
    | (Raise e, st') => h e st'
    end.

(** The outcome of [m], with nothing escaping. *)
Definition attempt `{Env} {A} (m : M A) : M (outcome A) :=
  fun st => let '(r, st') := m st in (Ok r, st').

Definition lift `{Env} {A} (r : outcome A) : M A := fun st => (r, st).

Notation "x <- m ;; k" := (bind m (fun x => k))
  (at level 100, m at next level, right associativity).
Notation "m ;;; k" := (bind m (fun _ => k))
  (at level 100, right associativity).

Definition emit `{Env} (e : event) : M unit :=
  fun st => (Ok tt, {| world := world st; trace := trace st ++ [e];
                       result_row := result_row st; out_file := out_file st |}).

Definition log `{Env} (r : log_record) : M unit := emit (EvLog r).

(** [result_row = row] and [result_row[k] = v] *)
Definition new_row `{Env} (row : gmap str value) : M unit :=
  fun st => (Ok tt, {| world := world st; trace := trace st;
                       result_row := row; out_file := out_file st |}).

Definition row_set `{Env} (k : str) (v : value) : M unit :=
  fun st => (Ok tt, {| world := world st; trace := trace st;
                       result_row := <[k := v]> (result_row st);
                       out_file := out_file st |}).

Definition get_row `{Env} : M (gmap str value) :=
  fun st => (Ok (result_row st), st).

Definition call_generation `{Env} (task : GenerationTask)
    : M (exn + GenerationResult) :=
  fun st =>
    let '(r, w) := run_generation_task_async task (world st) in
    (Ok r, {| world := w; trace := trace st;
              result_row := result_row st; out_file := out_file st |}).

Definition call_grading `{Env} (task : GradingTask)
    : M (exn + GradingResult) :=
  fun st =>
    let '(r, w) := run_grading_task_async task (world st) in
    (Ok r, {| world := w; trace := trace st;
              result_row := result_row st; out_file := out_file st |}).

Fixpoint for_each `{Env} {A} (l : list A) (body : A -> M unit) : M unit :=
  match l with
  | [] => ret tt
  | x :: l' => body x ;;; for_each l' body
  end.

(** ** The pipeline *)

Definition format_prompt `{Env} (domain task_prompt : cell) : outcome str :=
  match domain with
  | None => Raise (TypeError (py "replace() argument 2 must be str, not None"))
  | Some d =>
    match task_prompt with
    | None => Raise (TypeError (py "replace() argument 2 must be str, not None"))
    | Some p =>
      Ok (py_replace (py "{{Prompt}}") p
            (py_replace (py "{{Domain}}") d PROMPT_TEMPLATE))
    end
  end.

Definition sanitize (name : str) : str :=
  py_replace (py "/") (py "_")
    (py_replace (py ".") (py "_") (py_replace (py "-") (py "_") name)).

(** [f"{sanitize(model_id)}_{run}"] *)
Definition prefix_of (model : str) (run : N) : str :=
  sanitize model ++ py "_" ++ N_repr run.

Definition headers_for (models : list model_cfg) (num_runs : nat) : list str :=
  [py "task_id"; py "domain"; py "status"]
  ++ flat_map (fun model =>
       flat_map (fun run =>
         [prefix_of (model_id model) run ++ py "_response";
          prefix_of (model_id model) run ++ py "_score";
          prefix_of (model_id model) run ++ py "_score_summary"])
         (run_range num_runs))
       models.

Definition get_csv_headers : list str := headers_for MODELS NUMBER_OF_RUNS.

(** [x.strip()] when [x] may be [None]. *)
Definition strip_cell (c : cell) : outcome str :=
  match c with
  | Some s => Ok (strip s)
  | None => Raise (AttributeError (py "'NoneType' object has no attribute 'strip'"))
  end.

(** The loop of [create_attachments] over the listed paths. *)
Fixpoint attach_each `{Env} (base_dir : str) (rel_paths : list str)
    (attachments : list Attachment) : M (list Attachment) :=
  match rel_paths with
  | [] => ret attachments
  | rel_path :: rest =>
    let rel_path := strip rel_path in
    match rel_path with
    | [] => attach_each base_dir rest attachments
    | _ =>
      let full_path := path_join base_dir rel_path in
      if path_exists full_path then
        attach_each base_dir rest
          (attachments ++
           [{| filename := path_basename full_path;
               url := py "file://" ++ path_abspath full_path |}])
      else
        log (LogFileNotFound full_path) ;;;
        attach_each base_dir rest attachments
    end
  end.

Definition create_attachments `{Env} (file_attachments_str : cell)
    (base_dir : str) : M (list Attachment) :=
  paths <- lift (strip_cell file_attachments_str) ;;
  attach_each base_dir (split_on 10 paths) [].

Definition parse_rubric `{Env} (rubric_json : str) : outcome pydict :=
  match rubric_json with
  | [] => Raise (ValueError (py "Empty rubric JSON for grading"))
  | _ =>
    match json_loads json_max_depth rubric_json with
    | JSONDecodeError =>
      Raise (ValueError (py "Failed to parse rubric JSON: "
                         ++ json_error_text rubric_json))
    | RecursionLimit what =>
      Raise (RecursionError
               (py "maximum recursion depth exceeded while decoding a JSON "
                ++ what ++ py " from a unicode string"))
    | IntDigitsLimit n =>
      Raise (ValueError
               (py "Exceeds the limit (" ++ N_repr (N.of_nat int_max_str_digits)
                ++ py " digits) for integer string conversion: value has "
                ++ N_repr (N.of_nat n)
                ++ py " digits; use sys.set_int_max_str_digits() to increase the limit"))
    | Loaded (JDict data) => Ok data
    | Loaded data =>
      Raise (ValueError (py "Rubric JSON is not an object; got "
                         ++ type_name data))
    end
  end.

Definition run_generation `{Env} (prompt : str) (cfg : model_cfg)
    (attachments : list Attachment) : M generation :=
  let task :=
    {| gt_prompt := prompt;
       gt_models := [{| mc_model_id := model_id cfg;
                        mc_max_tokens := max_tokens cfg;
                        mc_temperature := temperature cfg;
                        mc_model_configs := model_configs cfg;
                        mc_number_of_runs := 1 |}];
       gt_attachments := match attachments with
                         | [] => None
                         | _ => Some attachments
                         end |} in
  r <- call_generation task ;;
  match r with
  | inl e => ret {| success := false; response := []; error := Some (exn_msg e) |}
  | inr result =>
    match results result with
    | item :: _ =>
      if gi_success item
      then ret {| success := true;
                  response := default [] (gi_response item);
                  error := None |}
      else ret {| success := false; response := [];
                  error := Some (default (py "Unknown") (gi_error_message item)) |}
    | [] => ret {| success := false; response := [];
                   error := Some (py "No results") |}
    end
  end.

(** The body of the injection loop for one verdict. *)
Definition inject (rubric_dict : pydict) (cr : criterion_result) : pydict :=
  match criterion_key cr with
  | Some key =>
    match dict_get rubric_dict key with
    | Some (JDict criterion) =>
      let criterion1 :=
        dict_set criterion (py "autorating")
          (JBool (truthy (default JNull (cr_autorating cr)))) in
      let criterion2 :=
        dict_set criterion1 (py "reason")
          (default (JStr []) (cr_reason cr)) in
      dict_set rubric_dict key (JDict criterion2)
    | _ => rubric_dict
    end
  | None => rubric_dict
  end.

Definition run_grading `{Env} (response rubric_json : str) : M grade :=
  match response with
  | [] => raise (ValueError (py "Empty model response for grading"))
  | _ =>
    rubric_dict <- lift (parse_rubric rubric_json) ;;
    let config := {| gm_model_id := GRADING_MODEL;
                     gm_max_tokens := GRADING_MAX_TOKENS;
                     gm_temperature := FNum false 7205759403792794 (-56) |} in
    let grading_task := {| solution := response; rubric := rubric_json;
                           grading_model := config |} in
    r <- call_grading grading_task ;;
    match r with
    | inl e => raise e
    | inr result =>
      match criteria_results result with
      | [] => raise (ValueError (py "Grading model returned no criteria results"))
      | crs =>
        let rubric_dict' := fold_left inject crs rubric_dict in
        ret {| score := percentage_score result;
               score_summary := json_dumps (JDict rubric_dict') |}
      end
    end
  end.

(** [csv.DictReader]: the first record names the fields, empty records are
    skipped, a short record is filled with [None]. *)
Fixpoint zip_fill (fieldnames : list str) (row : list str) : list (str * cell) :=
  match fieldnames, row with
  | k :: ks, v :: vs => (k, Some v) :: zip_fill ks vs
  | k :: ks, [] => (k, None) :: zip_fill ks []
  | [], _ => []
  end.

Definition row_dict (fieldnames row : list str) : gmap str cell :=
  fold_left (fun d kv => <[kv.1 := kv.2]> d) (zip_fill fieldnames row) ∅.

Definition nonempty_record (row : list str) : bool :=
  match row with [] => false | _ => true end.

Definition dict_reader (recs : list (list str)) : list (gmap str cell) :=
  match recs with
  | [] => []
  | fieldnames :: rows =>
    List.map (row_dict fieldnames) (List.filter nonempty_record rows)
  end.

(** The text [csv.writer] writes for a value. *)
Definition cell_text (v : value) : str :=
  match v with
  | VNone => []
  | VStr s => s
  | VInt z => int_repr z
  | VFloat f => float_repr f
  end.

(** [csv.DictWriter(f, fieldnames, extrasaction="ignore").writerow(row)] *)
Definition dict_writer_row (fieldnames : list str) (row : gmap str value)
    : list str :=
  List.map (fun k => cell_text (default (VStr []) (row !! k))) fieldnames.

Definition truthy_cell (c : option cell) : bool :=
  match c with
  | Some (Some (_ :: _)) => true
  | _ => false
  end.

(** The dict comprehension of [load_existing_results]; a later record with
    the same [task_id] replaces an earlier one. *)
Definition index_by_task_id (rows : list (gmap str cell))
    : gmap str (gmap str cell) :=
  fold_left
    (fun d row =>
       match row !! py "task_id" with
       | Some (Some (c :: s)) => <[c :: s := row]> d
       | _ => d
       end) rows ∅.

Definition load_existing_results `{Env} : M (gmap str (gmap str cell)) :=
  fun st =>
    match out_file st with
    | None => (Ok ∅, st)
    | Some f =>
      if readable f then (Ok (index_by_task_id (dict_reader (records f))), st)
      else (Ok ∅, st)
    end.

(** The three branches taken for one (model, run) pair. *)
Definition process_pair `{Env} (formatted_prompt rubric_json : str)
    (attachments : list Attachment) (cfg : model_cfg) (num_runs : nat)
    (run : N) : M unit :=
  let prefix := prefix_of (model_id cfg) run in
  log (LogRun (model_id cfg) run num_runs) ;;;
  gen <- run_generation formatted_prompt cfg attachments ;;
  emit (EvGenerated (model_id cfg) run gen) ;;;
  row_set (prefix ++ py "_response") (VStr (response gen)) ;;;
  if negb (success gen) then
    row_set (prefix ++ py "_score") (VInt 0) ;;;
    row_set (prefix ++ py "_score_summary")
      (VStr (py "Generation failed: " ++ py_take 100 (default [] (error gen))))
  else
    match rubric_json, response gen with
    | _ :: _, _ :: _ =>
      r <- attempt (run_grading (response gen) rubric_json) ;;
      emit (EvGraded (model_id cfg) run r) ;;;
      match r with
      | Raise e => log (LogGradingFailed (model_id cfg) run e)
      | Ok g =>
        row_set (prefix ++ py "_score") (VFloat (score g)) ;;;
        row_set (prefix ++ py "_score_summary") (VStr (score_summary g)) ;;;
        log (LogScore (score g))
      end
    | _, _ =>
      row_set (prefix ++ py "_score") (VInt 0) ;;;
      row_set (prefix ++ py "_score_summary")
        (VStr (py "No rubric or empty response"))
    end.

(** The body of the [try] block of [process_task]. *)
Definition assemble `{Env} (models : list model_cfg) (num_runs : nat)
    (task_data : gmap str cell) (base_dir : str) : M unit :=
  let domain := get_cell task_data (py "Domain") [] in
  let task_prompt := get_cell task_data (py "Prompt") [] in
  attachments <-
    create_attachments (get_cell task_data (py "File Attachments") []) base_dir ;;
  rubric_json <- lift (strip_cell (get_cell task_data (py "Rubric JSON") [])) ;;
  formatted_prompt <- lift (format_prompt domain task_prompt) ;;
  for_each models (fun cfg =>
    for_each (run_range num_runs)
      (process_pair formatted_prompt rubric_json attachments cfg num_runs)) ;;;
  row_set (py "status") (VStr (py "completed")).

Definition process_task_with `{Env} (models : list model_cfg) (num_runs : nat)
    (task_data : gmap str cell) (base_dir : str) : M (gmap str value) :=
  let task_id := get_cell task_data (py "Task ID") (py "unknown") in
  let domain := get_cell task_data (py "Domain") [] in
  log (LogProcessing task_id) ;;;
  new_row (<[py "status" := VStr (py "pending")]>
           (<[py "domain" := value_of_cell domain]>
            (<[py "task_id" := value_of_cell task_id]> ∅))) ;;;
  try_except (assemble models num_runs task_data base_dir)
    (fun e =>
       log (LogTaskFailed task_id e) ;;;
       row_set (py "status") (VStr (py "error: " ++ py_take 100 (exn_msg e)))) ;;;
  get_row.

Definition process_task `{Env} (task_data : gmap str cell) (base_dir : str)
    : M (gmap str value) :=
  process_task_with MODELS NUMBER_OF_RUNS task_data base_dir.

(** ** The checkpointed writer *)

Record arguments := {
  input_dir : str;
  output : str;
  start_index : Z;
  limit : option Z;
  resume : bool
}.

(** [l[start:stop]] with Python's treatment of negative and out-of-range
    bounds. *)
Definition clamp_index (len i : Z) : Z :=
  if (i <? 0)%Z then Z.max 0 (i + len) else Z.min i len.

Definition py_slice {A} (l : list A) (start stop : Z) : list A :=
  let len := Z.of_nat (length l) in
  let a := clamp_index len start in
  let b := clamp_index len stop in
  take (Z.to_nat (b - a)) (drop (Z.to_nat a) l).

(** A code point that UTF-8 cannot encode: a surrogate.  Writing a record
    with one to a file opened with [encoding="utf-8"] raises
    [UnicodeEncodeError] and writes nothing. *)
Definition surrogate (c : N) : bool := (55296 <=? c) && (c <=? 57343).

Definition encodable (rec : list str) : bool :=
  forallb (forallb (fun c => negb (surrogate c))) rec.

(** The output file is written with no newline translation and read with
    universal newlines: on reading, a carriage return, alone or followed
    by a line feed, comes back as one line feed, inside quoted fields
    too. *)
Fixpoint universal_newlines (s : str) : str :=
  match s with
  | [] => []
  | c :: s' =>
    if c =? 13 then
      10 :: match s' with
            | c' :: s'' =>
              if c' =? 10 then universal_newlines s'' else universal_newlines s'
            | [] => []
            end
    else c :: universal_newlines s'
  end.

(** The record that [csv.reader] gives back for a written record. *)
Definition read_back (rec : list str) : list str :=
  List.map universal_newlines rec.

(** [csv.field_size_limit()]: reading a longer field raises [csv.Error]. *)
Definition field_size_limit : N := 131072.

Definition within_limit (rec : list str) : bool :=
  forallb (fun c => N.of_nat (length c) <=? field_size_limit) rec.

Definition set_out_file `{Env} (st : state) (f : csv_file) : state :=
  {| world := world st; trace := trace st; result_row := result_row st;
     out_file := Some f |}.

Definition empty_file : csv_file := {| readable := true; records := [] |}.

(** The file after one more record was written at its end. *)
Definition with_record (f : csv_file) (rec : list str) : csv_file :=
  {| readable := readable f && within_limit (read_back rec);
     records := records f ++ [read_back rec] |}.

(** [open(output, "w")] followed by [writeheader()] *)
Definition write_header `{Env} (headers : list str) : M unit :=
  fun st =>
    if encodable headers
    then (Ok tt, set_out_file st (with_record empty_file headers))
    else (Raise (UnicodeEncodeError (encode_error_text headers)),
          set_out_file st empty_file).

(** [open(output, "a")] followed by [writerow(result)] *)
Definition append_row `{Env} (headers : list str) (row : gmap str value)
    : M unit :=
  fun st =>
    let rec := dict_writer_row headers row in
    let f := default empty_file (out_file st) in
    if encodable rec
    then (Ok tt, set_out_file st (with_record f rec))
    else (Raise (UnicodeEncodeError (encode_error_text rec)),
          set_out_file st f).

Definition output_exists `{Env} : M bool :=
  fun st => (Ok (bool_decide (is_Some (out_file st))), st).

Definition task_in (task_id : cell) (existing : gmap str (gmap str cell))
    : bool :=
  match task_id with
  | Some s => bool_decide (is_Some (existing !! s))
  | None => false
  end.

(** The task loop of [main]; it returns [processed]. *)
Fixpoint task_loop `{Env} (args : arguments) (headers : list str)
    (existing : gmap str (gmap str cell)) (tasks : list (gmap str cell))
    (processed : nat) : M nat :=
  match tasks with
  | [] => ret processed
  | task_data :: rest =>
    let task_id := get_cell task_data (py "Task ID") (py "unknown") in
    if resume args && task_in task_id existing then
      log (LogSkipping task_id) ;;;
      task_loop args headers existing rest processed
    else
      result <- process_task task_data (input_dir args) ;;
      append_row headers result ;;;
      task_loop args headers existing rest (S processed)
  end.

(** [main], given the parsed arguments and the input file at
    [input_dir/data/train.csv]: [None] when it does not exist, otherwise
    what reading it to the end gives, its records or the exception raised
    on the way (a decoding error, a field over the limit). *)
Definition main `{Env} (args : arguments)
    (input : option (outcome (list (list str)))) : M unit :=
  let csv_path := path_join (path_join (input_dir args) (py "data")) (py "train.csv") in
  match input with
  | None => log (LogInputNotFound csv_path) ;;; raise (SystemExit (py "1"))
  | Some read =>
    let headers := get_csv_headers in
    existing <- (if resume args then load_existing_results else ret ∅) ;;
    recs <- lift read ;;
    let tasks := dict_reader recs in
    let end_idx :=
      match limit args with
      | None => Z.of_nat (length tasks)
      | Some lim => Z.min (start_index args + lim) (Z.of_nat (length tasks))
      end in
    let tasks := py_slice tasks (start_index args) end_idx in
    log (LogProcessingCount (length tasks)) ;;;
    ex <- output_exists ;;
    (if negb (resume args) || negb ex then write_header headers else ret tt) ;;;
    processed <- task_loop args headers existing tasks 0 ;;
    log (LogDone processed (output args))
  end.

(** ** A scripted environment

    The collaborators answer from two scripts, one answer per call; it is
    used to run the pipeline on concrete inputs. *)

Definition script : Type :=
  list (exn + GenerationResult) * list (exn + GradingResult).

#[local] Instance scripted : Env := {|
  World := script;
  run_generation_task_async := fun _ w =>
    match w.1 with
    | r :: rest => (r, (rest, w.2))
    | [] => (inl (Exn (py "RuntimeError") (py "no more answers")), w)
    end;
  run_grading_task_async := fun _ w =>
    match w.2 with
    | r :: rest => (r, (w.1, rest))
    | [] => (inl (Exn (py "RuntimeError") (py "no more answers")), w)
    end;
  PROMPT_TEMPLATE := py "Domain: {{Domain}} Task: {{Prompt}}";
  path_exists := fun _ => false;
  path_join := fun a b => a ++ py "/" ++ b;
  path_basename := fun p => p;
  path_abspath := fun p => p;
  json_error_text := fun _ => py "Expecting value";
  json_max_depth := 900;
  encode_error_text := fun _ => py "surrogates not allowed"
|}.

Definition start (w : script) (out : option csv_file) : state :=
  {| world := w; trace := []; result_row := ∅; out_file := out |}.

(** A successful generation with the given response, and a failed one. *)
Definition answer (text : str) : exn + GenerationResult :=
  inr {| results := [{| gi_success := true; gi_response := Some text;
                        gi_error_message := None |}] |}.

Definition failure (msg : str) : exn + GenerationResult :=
  inr {| results := [{| gi_success := false; gi_response := None;
                        gi_error_message := Some msg |}] |}.

(** ASCII text in which ['] stands for the double quote. *)
Definition pyq (s : string) : str :=
  List.map (fun c => if c =? 39 then 34 else c) (py s).

Definition task_row (task_id domain prompt files rubric_text : str)
    : gmap str cell :=
  row_dict [py "Task ID"; py "Domain"; py "Prompt"; py "File Attachments";
            py "Rubric JSON"]
           [task_id; domain; prompt; files; rubric_text].

(** Concrete scenarios. *)

Definition sample_rubric : str := pyq "{'c1': {'description': 'x'}}".

Definition verdict_ok : exn + GradingResult :=
  inr {| criteria_results :=
           [{| criterion_key := Some (py "c1");
               cr_autorating := Some (JBool true);
               cr_reason := Some (JStr (py "ok")) |}];
         percentage_score := FNum false 7036874417766400 (-46) |}.

(** T1: a rubric, a successful generation, a verdict for [c1]. *)
Definition task_T1 : gmap str cell :=
  task_row (py "T1") (py "Law") (py "Q?") [] sample_rubric.

(** T2: no rubric. *)
Definition task_T2 : gmap str cell :=
  task_row (py "T2") (py "Law") (py "Q?") [] [].

(** T4: the rubric payload is the text [not json]. *)
Definition task_T4 : gmap str cell :=
  task_row (py "T4") (py "Law") (py "Q?") [] (py "not json").

Definition opus : str := py "claude-opus-4-5-20251101".
Definition gemini : str := py "gemini-3-pro-preview".

Definition fresh_args : arguments :=
  {| input_dir := py "/data"; output := py "out.csv"; start_index := 0;
     limit := Some 5%Z; resume := false |}.

Definition resume_args : arguments :=
  {| input_dir := py "/data"; output := py "out.csv"; start_index := 0;
     limit := Some 5%Z; resume := true |}.

Definition input_columns : list str :=
  [py "Task ID"; py "Domain"; py "Prompt"; py "File Attachments";
   py "Rubric JSON"].

(** An input file with two tasks; the second record is too short. *)
Definition sample_input : list (list str) :=
  [input_columns;
   [py "T1"; py "Law"; py "Q?"; []; sample_rubric];
   [py "T2"; py "Law"]].

(** An output file left by an earlier run in which T1 ended in an error. *)
Definition earlier_output : csv_file :=
  {| readable := true;
     records := [get_csv_headers;
                 [py "T1"; py "Law"; py "error: boom"; []; []; []; []; []; []]] |}.

Definition failed_gen (msg : str) : generation :=
  {| success := false; response := []; error := Some msg |}.

Definition good_gen (text : str) : generation :=
  {| success := true; response := text; error := None |}.

(** Worlds: both generations succeed and grading answers; the second
    generation fails; the grading collaborator times out. *)
Definition world_ok : script :=
  ([answer (py "ans"); answer (py "ans")], [verdict_ok; verdict_ok]).

Definition world_second_fails : script :=
  ([answer (py "ans"); failure (py "boom")], [verdict_ok]).

Definition world_blank : script :=
  ([answer (py " "); answer (py " ")], [verdict_ok; verdict_ok]).

Definition timeout_error : exn := Exn (py "TimeoutError") (py "timed out").

Definition world_timeout : script := ([], [inl timeout_error]).

Definition earlier_T1 : gmap str cell :=
  row_dict get_csv_headers
    [py "T1"; py "Law"; py "error: boom"; []; []; []; []; []; []].

(** A failure text of more than 100 characters. *)
Definition long_message : str :=
  py "connection reset by peer while streaming the response from the upstream model provider; retry budget exhausted after 5 attempts".

Definition world_long_failure : script :=
  ([answer (py "ans"); failure long_message], [verdict_ok]).

(** The first response is a lone surrogate, as a collaborator that decoded
    an escaped surrogate returns it. *)
Definition world_surrogate : script :=
  ([answer [55296]; answer (py "ans")], [verdict_ok; verdict_ok]).

(** The first response is one character longer than the field limit. *)
Definition world_long_response : script :=
  ([answer (repeat 97 (N.to_nat 131073)); answer (py "ans")],
   [verdict_ok; verdict_ok]).

(** ** Auxiliary notions used in the statements and proofs below *)

Definition nondigit (r : str) : Prop :=
  match r with
  | c :: _ => digit_of_code c = None
  | [] => True
  end.

Definition delim (r : str) : Prop :=
  match r with
  | c :: _ => c = 44 \/ c = 93 \/ c = 125
  | [] => True
  end.

(** A number literal assembled from its pieces. *)
Definition sign_str (neg : bool) : str := if neg then [45] else [].

Definition frac_str (fp : option (list digits)) : str :=
  match fp with
  | Some fs => 46 :: digits_str fs
  | None => []
  end.

Definition exp_str (ex : option (bool * list digits)) : str :=
  match ex with
  | Some (eneg, es) => 101 :: (if eneg : bool then 45 else 43) :: digits_str es
  | None => []
  end.

Definition int_part_ok (ip : list digits) : Prop :=
  ip = [d0] \/ exists d ds, ip = d :: ds /\ d <> d0.

Definition number_value (neg : bool) (ip : list digits)
    (fp : option (list digits)) (ex : option (bool * list digits)) : json :=
  match fp, ex with
  | None, None => JInt (signed neg (digits_N ip))
  | _, _ =>
    JFloat (float_of_literal neg ip fp
              (option_map (fun e => signed (fst e) (digits_N (snd e))) ex))
  end.


(** Fuel that [scan_once] needs to read back a printed value. *)
Fixpoint jsize (v : json) : nat :=
  match v with
  | JList l => S (fold_right (fun x n => S (jsize x + n)) 0%nat l)
  | JDict d => S (fold_right (fun kv n => S (jsize (snd kv) + n)) 0%nat d)
  | _ => 1%nat
  end.

(** Values as [json.loads] builds them: floats that a float can hold, dictionary
    keys unique. *)
Fixpoint json_wf (v : json) : Prop :=
  match v with
  | JFloat f => float_ok f
  | JList l => fold_right (fun x P => json_wf x /\ P) True l
  | JDict d =>
    NoDup (dict_keys d) /\ fold_right (fun kv P => json_wf (snd kv) /\ P) True d
  | _ => True
  end.

(** Values that [json.loads] reads in an interpreter that lets it enter
    [depth] nested containers: nested no deeper than that, and holding no
    integer of more digits than [int] accepts. *)
Fixpoint json_fits (v : json) (depth : nat) : Prop :=
  match v with
  | JInt z => int_digits_over (JInt z) = None
  | JList l =>
    match depth with
    | O => False
    | S dp => fold_right (fun x P => json_fits x dp /\ P) True l
    end
  | JDict d =>
    match depth with
    | O => False
    | S dp => fold_right (fun kv P => json_fits (snd kv) dp /\ P) True d
    end
  | _ => True
  end.

Definition dump_member (kv : str * json) : str :=
  encode_string (fst kv) ++ py ": " ++ json_dumps (snd kv).

(** The first character of a printed value: not whitespace, not a closing
    bracket. *)
Definition value_start (s : str) : Prop :=
  exists c t, s = c :: t /\ json_ws c = false /\ c <> 93 /\ c <> 125.

(** ** What one (model, run) pair leaves behind

    [pair_report] records, for one pair, what the generation adapter
    returned and how grading ended ([None] when grading was not attempted).
    [report_events] is the part of the trace the pair produces and
    [report_row] is its effect on the result row. *)

Record pair_report := {
  pr_model : str;
  pr_run : N;
  pr_gen : generation;
  pr_graded : option (outcome grade)
}.

Definition report_events (num_runs : nat) (p : pair_report) : list event :=
  [EvLog (LogRun (pr_model p) (pr_run p) num_runs);
   EvGenerated (pr_model p) (pr_run p) (pr_gen p)]
  ++ match pr_graded p with
     | None => []
     | Some (Raise e) =>
       [EvGraded (pr_model p) (pr_run p) (Raise e);
        EvLog (LogGradingFailed (pr_model p) (pr_run p) e)]
     | Some (Ok g) =>
       [EvGraded (pr_model p) (pr_run p) (Ok g); EvLog (LogScore (score g))]
     end.

Definition report_row (p : pair_report) (row : gmap str value)
    : gmap str value :=
  let prefix := prefix_of (pr_model p) (pr_run p) in
  let row1 := <[prefix ++ py "_response" := VStr (response (pr_gen p))]> row in
  if negb (success (pr_gen p)) then
    <[prefix ++ py "_score_summary" :=
        VStr (py "Generation failed: "
              ++ py_take 100 (default [] (error (pr_gen p))))]>
      (<[prefix ++ py "_score" := VInt 0]> row1)
  else
    match pr_graded p with
    | Some (Raise _) => row1
    | Some (Ok g) =>
      <[prefix ++ py "_score_summary" := VStr (score_summary g)]>
        (<[prefix ++ py "_score" := VFloat (score g)]> row1)
    | None =>
      <[prefix ++ py "_score_summary" := VStr (py "No rubric or empty response")]>
        (<[prefix ++ py "_score" := VInt 0]> row1)
    end.

(** Grading is attempted exactly when generation succeeded and both the
    rubric text and the response are non-empty; a failed generation has an
    error text and an empty response. *)
Definition report_ok (rubric_json : str) (p : pair_report) : Prop :=
  (is_Some (pr_graded p)
   <-> success (pr_gen p) = true /\ rubric_json <> [] /\ response (pr_gen p) <> [])
  /\ (success (pr_gen p) = false ->
      is_Some (error (pr_gen p)) /\ response (pr_gen p) = []).

(** The pairs in the order the two loops visit them. *)
Definition all_pairs (models : list model_cfg) (num_runs : nat)
    : list (model_cfg * N) :=
  flat_map (fun cfg => List.map (fun run => (cfg, run)) (run_range num_runs))
           models.

Definition pair_id (p : model_cfg * N) : str * N := (model_id p.1, p.2).
Definition report_id (p : pair_report) : str * N := (pr_model p, pr_run p).

Definition set_world `{Env} (st : state) (w : World) : state :=
  {| world := w; trace := trace st; result_row := result_row st;
     out_file := out_file st |}.

(** The state after some pairs have been processed. *)
Definition advance `{Env} (st : state) (w : World) (num_runs : nat)
    (ps : list pair_report) : state :=
  {| world := w;
     trace := trace st ++ flat_map (report_events num_runs) ps;
     result_row := fold_left (fun row p => report_row p row) ps (result_row st);
     out_file := out_file st |}.

Definition add_trace `{Env} (st : state) (evs : list event) : state :=
  {| world := world st; trace := trace st ++ evs;
     result_row := result_row st; out_file := out_file st |}.

Definition is_file_log (e : event) : Prop :=
  exists p, e = EvLog (LogFileNotFound p).

(** The pairs for which the generation adapter was called, in order. *)
Definition generated_pairs (evs : list event) : list (str * N) :=
  flat_map (fun e => match e with
                     | EvGenerated m r _ => [(m, r)]
                     | _ => []
                     end) evs.

Definition pair_keys (prefix : str) : list str :=
  [prefix ++ py "_response"; prefix ++ py "_score"; prefix ++ py "_score_summary"].

Definition report_prefix (p : pair_report) : str :=
  prefix_of (pr_model p) (pr_run p).

Definition task_id_of (task_data : gmap str cell) : cell :=
  get_cell task_data (py "Task ID") (py "unknown").

(** The row [process_task] starts from. *)
Definition initial_row (task_data : gmap str cell) : gmap str value :=
  <[py "status" := VStr (py "pending")]>
    (<[py "domain" := value_of_cell (get_cell task_data (py "Domain") [])]>
       (<[py "task_id" := value_of_cell (task_id_of task_data)]> ∅)).

(** The exception, if any, raised before the first pair is reached: a
    [None] cell where a string is needed. *)
Definition setup_error (task_data : gmap str cell) : option exn :=
  match get_cell task_data (py "File Attachments") [] with
  | None => Some (AttributeError (py "'NoneType' object has no attribute 'strip'"))
  | Some _ =>
    match get_cell task_data (py "Rubric JSON") [] with
    | None => Some (AttributeError (py "'NoneType' object has no attribute 'strip'"))
    | Some _ =>
      match get_cell task_data (py "Domain") [], get_cell task_data (py "Prompt") [] with
      | Some _, Some _ => None
      | _, _ => Some (TypeError (py "replace() argument 2 must be str, not None"))
      end
    end
  end.

(** The rubric text the pairs are graded against. *)
Definition rubric_of (task_data : gmap str cell) : str :=
  match get_cell task_data (py "Rubric JSON") [] with
  | Some s => strip s
  | None => []
  end.

Definition error_status (e : exn) : value :=
  VStr (py "error: " ++ py_take 100 (exn_msg e)).

(** The state in which the [try] block of [process_task] starts. *)
Definition begin_task `{Env} (st : state) (task_data : gmap str cell) : state :=
  {| world := world st;
     trace := trace st ++ [EvLog (LogProcessing (task_id_of task_data))];
     result_row := initial_row task_data;
     out_file := out_file st |}.

Definition id_prefix (id : str * N) : str := prefix_of id.1 id.2.

(** A verdict whose reason is a value as [json.loads] builds them, nested
    little enough to be read back inside a criterion of the rubric. *)
Definition cr_wf `{Env} (cr : criterion_result) : Prop :=
  match cr_reason cr with
  | Some v => json_wf v /\ json_fits v (json_max_depth - 2)
  | None => True
  end.

Definition is_dict (v : json) : Prop := exists d, v = JDict d.

(** The request [run_grading] sends to the grading collaborator. *)
Definition grading_request (response rubric_json : str) : GradingTask :=
  {| solution := response; rubric := rubric_json;
     grading_model := {| gm_model_id := GRADING_MODEL;
                         gm_max_tokens := GRADING_MAX_TOKENS;
                         gm_temperature := FNum false 7205759403792794 (-56) |} |}.

(** What [sanitize] does to one character: the separators [-], [.] and [/]
    become [_]. *)
Definition normalize_sep (c : N) : N :=
  if (c =? 45) || (c =? 46) || (c =? 47) then 95 else c.

Definition is_alnum (c : N) : bool :=
  ((48 <=? c) && (c <=? 57)) || ((65 <=? c) && (c <=? 90))
  || ((97 <=? c) && (c <=? 122)).

(** The three columns of one (model, run) pair. *)
Definition pair_columns (model : str) (run : N) : list str :=
  [sanitize model ++ py "_" ++ N_repr run ++ py "_response";
   sanitize model ++ py "_" ++ N_repr run ++ py "_score";
   sanitize model ++ py "_" ++ N_repr run ++ py "_score_summary"].

(** The tasks [main] works on: the input records, sliced. *)
Definition selected_tasks (args : arguments) (recs : list (list str))
    : list (gmap str cell) :=
  let tasks := dict_reader recs in
  py_slice tasks (start_index args)
    match limit args with
    | None => Z.of_nat (length tasks)
    | Some lim => Z.min (start_index args + lim) (Z.of_nat (length tasks))
    end.

(** A task that the resume check skips. *)
Definition skipped (args : arguments) (existing : gmap str (gmap str cell))
    (task_data : gmap str cell) : bool :=
  resume args && task_in (task_id_of task_data) existing.

(** ** Notions used for the further properties *)

Definition is_separator (c : N) : bool := (c =? 45) || (c =? 46) || (c =? 47).

(** The paths [create_attachments] looks at: the lines of the stripped
    text, each stripped, the empty ones dropped. *)
Definition listed_paths (files : str) : list str :=
  List.filter (fun p => match p with [] => false | _ => true end)
              (List.map strip (split_on 10 (strip files))).

Definition attachment_of `{Env} (base_dir rel_path : str) : Attachment :=
  {| filename := path_basename (path_join base_dir rel_path);
     url := py "file://" ++ path_abspath (path_join base_dir rel_path) |}.

(** The records of an output file whose [task_id] is [tid]. *)
Definition records_of_task (tid : str) (rows : list (gmap str cell))
    : list (gmap str cell) :=
  List.filter (fun r => bool_decide (r !! py "task_id" = Some (Some tid))) rows.

(** What [main] finds when it starts: the index of the tasks already
    recorded and the file it appends to ([None]: a new file with a
    header). *)
Definition existing_index `{Env} (args : arguments) (st : state)
    : gmap str (gmap str cell) :=
  if resume args then
    match out_file st with
    | Some f => if readable f then index_by_task_id (dict_reader (records f)) else ∅
    | None => ∅
    end
  else ∅.

Definition kept_file `{Env} (args : arguments) (st : state) : option csv_file :=
  if resume args then out_file st else None.

(** The file the task loop of [main] starts from, and that file after
    some records were appended. *)
Definition base_file (kept : option csv_file) (headers : list str) : csv_file :=
  match kept with
  | Some f => f
  | None => {| readable := true; records := [headers] |}
  end.

(** The file after the records [rows] were written at its end: it holds
    them as they are read back, and it can still be read when it could
    before and none of their fields is over the limit. *)
Definition with_records (f : csv_file) (rows : list (list str)) : csv_file :=
  {| readable :=
       readable f && forallb (fun rec => within_limit (read_back rec)) rows;
     records := records f ++ List.map read_back rows |}.

Definition file_after (kept : option csv_file) (headers : list str)
    (rows : list (list str)) : csv_file :=
  with_records (base_file kept headers) rows.

(** The record [main] writes for a task: the result of [process_task],
    laid out along the header, with every cell encodable. *)
Definition written_for `{Env} (args : arguments) (task_data : gmap str cell)
    (rec : list str) : Prop :=
  exists (st0 st1 : state) row,
    process_task task_data (input_dir args) st0 = (Ok row, st1)
    /\ rec = dict_writer_row get_csv_headers row
    /\ encodable rec = true.

(** [main] stops at a task: the record of its result cannot be encoded,
    and [r] is the [UnicodeEncodeError] of the write. *)
Definition stops_at `{Env} {A : Type} (args : arguments) (task_data : gmap str cell)
    (r : outcome A) : Prop :=
  exists (st0 st1 : state) row,
    process_task task_data (input_dir args) st0 = (Ok row, st1)
    /\ encodable (dict_writer_row get_csv_headers row) = false
    /\ r = Raise (UnicodeEncodeError
                    (encode_error_text (dict_writer_row get_csv_headers row))).

(** The selected tasks that the resume check lets through. *)
Definition unskipped (args : arguments) (existing : gmap str (gmap str cell))
    (tasks : list (gmap str cell)) : list (gmap str cell) :=
  List.filter (fun t => negb (skipped args existing t)) tasks.

(** A text that reading with universal newlines leaves as it is: it holds
    no carriage return (as every cell read from the input file). *)
Definition no_cr (s : str) : bool := forallb (fun c => negb (c =? 13)) s.

(** The state in which the task loop of [main] starts. *)
Definition loop_start `{Env} (args : arguments) (recs : list (list str))
    (st : state) : state :=
  {| world := world st;
     trace := trace st
              ++ [EvLog (LogProcessingCount (length (selected_tasks args recs)))];
     result_row := result_row st;
     out_file := Some (base_file (kept_file args st) get_csv_headers) |}.

Definition with_resume (args : arguments) : arguments :=
  {| input_dir := input_dir args; output := output args;
     start_index := start_index args; limit := limit args; resume := true |}.

(** The request [run_generation] sends to the generation collaborator. *)
Definition generation_request (prompt : str) (cfg : model_cfg)
    (attachments : list Attachment) : GenerationTask :=
  {| gt_prompt := prompt;
     gt_models := [{| mc_model_id := model_id cfg;
                      mc_max_tokens := max_tokens cfg;
                      mc_temperature := temperature cfg;
                      mc_model_configs := model_configs cfg;
                      mc_number_of_runs := 1 |}];
     gt_attachments := match attachments with
                       | [] => None
                       | _ => Some attachments
                       end |}.

(** A task with a non-empty [Task ID] that holds no carriage return. *)
Definition has_task_id (task_data : gmap str cell) : bool :=
  match task_id_of task_data with
  | Some (c :: s) => no_cr (c :: s)
  | _ => false
  end.

Definition input_csv_path `{Env} (args : arguments) : str :=
  path_join (path_join (input_dir args) (py "data")) (py "train.csv").

(** The outcome recorded for a graded pair is an outcome of [run_grading]
    on the pair's response and the task's rubric text. *)
Definition report_graded `{Env} (rubric_json : str) (p : pair_report) : Prop :=
  match pr_graded p with
  | Some res =>
    exists st0 st1 : state,
      run_grading (response (pr_gen p)) rubric_json st0 = (res, st1)
  | None => True
  end.

(** * Properties *)

(** ** Digits and integers *)

#[local] Arguments digit_of_code : simpl never.
#[local] Arguments json_ws : simpl never.
#[local] Arguments py_isspace : simpl never.
#[local] Arguments escape_char : simpl never.
#[local] Arguments unescape : simpl never.
#[local] Arguments hex4 : simpl never.

Lemma digit_of_code_code d : digit_of_code (digit_code d) = Some d.
Proof. by destruct d. Qed.

Lemma digit_of_code_Some c d : digit_of_code c = Some d -> c = digit_code d.
Proof.
  unfold digit_of_code.
  repeat match goal with
         | |- context [N.eqb c ?k] =>
           destruct (N.eqb_spec c k) as [->|_]; [by intros [= <-]|]
         end.
  discriminate.
Qed.

Lemma scan_digits_app ds r :
  nondigit r -> scan_digits (digits_str ds ++ r) = (ds, r).
Proof.
  intros Hr. induction ds as [|d ds IH]; simpl.
  - destruct r as [|c r]; [done|]. simpl in *. by rewrite Hr.
  - rewrite digit_of_code_code. fold (digits_str ds). by rewrite IH.
Qed.

Lemma digits_N_to_list u : digits_N (to_list u) = N.of_uint u.
Proof. unfold digits_N. by rewrite of_list_to_list. Qed.

Lemma digits_N_repr n : digits_N (to_list (N.to_uint n)) = n.
Proof. rewrite digits_N_to_list. apply DecimalN.Unsigned.of_to. Qed.

Lemma to_uint_unorm n : Decimal.unorm (N.to_uint n) = N.to_uint n.
Proof.
  rewrite <- (DecimalN.Unsigned.to_of (N.to_uint n)).
  by rewrite DecimalN.Unsigned.of_to.
Qed.

Lemma to_uint_shape n :
  n = 0 /\ to_list (N.to_uint n) = [d0]
  \/ exists d ds, to_list (N.to_uint n) = d :: ds /\ d <> d0 /\ n <> 0.
Proof.
  destruct n as [|p]; [by left|]. right.
  pose proof (to_uint_unorm (Npos p)) as Hn.
  pose proof (DecimalPos.Unsigned.to_uint_nonzero p) as Hz.
  change (N.to_uint (N.pos p)) with (Pos.to_uint p) in *.
  unfold Decimal.unorm in Hn.
  pose proof (nzhead_nonzero (Pos.to_uint p)) as Hh.
  destruct (Decimal.nzhead (Pos.to_uint p)) eqn:E; rewrite <- Hn in *;
    try (by destruct Hz); try (by destruct (Hh _ eq_refl));
    simpl; eexists _, _; split; try done.
Qed.

(** ** String literals *)

Lemma N_lt_cases (n : N) (k : nat) :
  n < N.of_nat k -> List.In n (List.map N.of_nat (seq 0 k)).
Proof.
  intros H. apply in_map_iff. exists (N.to_nat n).
  split; [lia|]. apply in_seq. lia.
Qed.

Lemma scanstring_escape c s acc :
  scanstring (escape_char c ++ s) acc = scanstring s (c :: acc).
Proof.
  destruct (N.ltb_spec c 32) as [Hlt|Hge].
  - apply (N_lt_cases c 32) in Hlt. simpl in Hlt.
    repeat (destruct Hlt as [<-|Hlt]; [reflexivity|]). done.
  - unfold escape_char.
    destruct (N.eqb_spec c 34) as [->|H34]; [reflexivity|].
    destruct (N.eqb_spec c 92) as [->|H92]; [reflexivity|].
    repeat match goal with
           | |- context [N.eqb c ?k] => destruct (N.eqb_spec c k); [lia|]
           end.
    destruct (N.ltb_spec c 32); [lia|]. simpl.
    destruct (N.eqb_spec c 34); [done|].
    destruct (N.eqb_spec c 92); [done|].
    destruct (N.ltb_spec c 32); [lia|]. done.
Qed.

Lemma scanstring_encode s r acc :
  scanstring (flat_map escape_char s ++ 34 :: r) acc = Some (rev acc ++ s, r).
Proof.
  revert acc. induction s as [|c s IH]; intros acc; simpl.
  - by rewrite app_nil_r.
  - rewrite <- app_assoc, scanstring_escape, IH. simpl.
    by rewrite <- app_assoc.
Qed.

(** ** Number literals *)

Lemma delim_nondigit r : delim r -> nondigit r.
Proof. destruct r as [|c r]; [done|]. by intros [->|[->| ->]]. Qed.

Lemma scan_frac_none r : delim r -> scan_frac r = (None, r).
Proof. destruct r as [|c r]; [done|]. by intros [->|[->| ->]]. Qed.

Lemma scan_exp_none r : delim r -> scan_exp r = (None, r).
Proof. destruct r as [|c r]; [done|]. by intros [->|[->| ->]]. Qed.

Lemma scan_int_part_repr n r :
  nondigit r ->
  scan_int_part (N_repr n ++ r) = Some (to_list (N.to_uint n), r).
Proof.
  intros Hr. unfold N_repr.
  destruct (to_uint_shape n) as [[-> _]|(d & ds & E & Hd & _)]; [done|].
  pose proof (scan_digits_app (d :: ds) r Hr) as Hs.
  rewrite E. unfold scan_int_part. rewrite Hs. simpl.
  destruct d; done.
Qed.

Lemma match_number_nat (neg : bool) n r :
  delim r ->
  match_number ((if neg then [45] else []) ++ N_repr n ++ r)
  = Some (JInt (signed neg n), r).
Proof.
  intros Hr. unfold match_number.
  assert (Hh : exists c s, N_repr n ++ r = c :: s /\ c <> 45) .
  { unfold N_repr.
    destruct (to_uint_shape n) as [[-> _]|(d & ds & E & Hd & _)].
    - by eexists _, _.
    - rewrite E. simpl. eexists _, _. split; [done|]. by destruct d. }
  destruct Hh as (c & s & E & Hc).
  destruct neg; simpl.
  - rewrite scan_int_part_repr by by apply delim_nondigit.
    rewrite scan_frac_none, scan_exp_none by done.
    by rewrite digits_N_repr.
  - rewrite E. destruct (N.eqb_spec c 45); [done|]. rewrite <- E.
    rewrite scan_int_part_repr by by apply delim_nondigit.
    rewrite scan_frac_none, scan_exp_none by done.
    by rewrite digits_N_repr.
Qed.

Lemma scan_int_part_digits ip r :
  int_part_ok ip -> nondigit r ->
  scan_int_part (digits_str ip ++ r) = Some (ip, r).
Proof.
  intros [->|(d & ds & -> & Hd)] Hr; [done|].
  pose proof (scan_digits_app (d :: ds) r Hr) as Hs.
  unfold scan_int_part. rewrite Hs. simpl. by destruct d.
Qed.

Lemma scan_frac_digits fs r :
  fs <> [] -> nondigit r ->
  scan_frac (frac_str (Some fs) ++ r) = (Some fs, r).
Proof.
  intros Hf Hr. simpl. rewrite scan_digits_app by done.
  by destruct fs.
Qed.

Lemma scan_exp_digits (eneg : bool) es r :
  es <> [] -> nondigit r ->
  scan_exp (exp_str (Some (eneg, es)) ++ r) = (Some (signed eneg (digits_N es)), r).
Proof.
  intros He Hr. simpl.
  destruct eneg; simpl; rewrite scan_digits_app by done; by destruct es.
Qed.

Lemma nondigit_frac fs r : nondigit (frac_str (Some fs) ++ r).
Proof. done. Qed.

Lemma nondigit_exp e r : nondigit (exp_str (Some e) ++ r).
Proof. by destruct e. Qed.

Lemma scan_frac_exp e r : scan_frac (exp_str (Some e) ++ r) = (None, exp_str (Some e) ++ r).
Proof. by destruct e. Qed.

Lemma match_number_pieces (neg : bool) ip fp ex r :
  int_part_ok ip ->
  (forall fs, fp = Some fs -> fs <> []) ->
  (forall e, ex = Some e -> snd e <> []) ->
  delim r ->
  match_number (sign_str neg ++ digits_str ip ++ frac_str fp ++ exp_str ex ++ r)
  = Some (number_value neg ip fp ex, r).
Proof.
  intros Hip Hfp Hex Hr. unfold match_number.
  set (body := digits_str ip ++ frac_str fp ++ exp_str ex ++ r).
  assert (Hb : exists c s, body = c :: s /\ c <> 45).
  { subst body. destruct Hip as [->|(d & ds & -> & Hd)].
    - by eexists _, _.
    - simpl. eexists _, _. split; [done|]. by destruct d. }
  destruct Hb as (c & s & Eb & Hc).
  assert (Hsplit : match sign_str neg ++ body with
                   | c :: s' => if c =? 45 then (true, s') else (false, c :: s')
                   | [] => (false, [])
                   end = (neg, body)).
  { destruct neg; simpl; [done|]. rewrite Eb.
    by destruct (N.eqb_spec c 45). }
  replace (match sign_str neg ++ body with
           | [] => (false, sign_str neg ++ body)
           | c0 :: s' => if c0 =? 45 then (true, s') else (false, sign_str neg ++ body)
           end) with (neg, body).
  2:{ rewrite <- Hsplit. destruct (sign_str neg ++ body); [done|].
      by destruct (_ =? _). }
  subst body.
  assert (Hnd : nondigit (frac_str fp ++ exp_str ex ++ r)).
  { destruct fp; [done|]. destruct ex; [apply nondigit_exp|].
    by apply delim_nondigit. }
  rewrite scan_int_part_digits by done.
  destruct fp as [fs|].
  - rewrite scan_frac_digits; [|by eauto|].
    2:{ destruct ex; [apply nondigit_exp|]. by apply delim_nondigit. }
    destruct ex as [[eneg es]|].
    + rewrite scan_exp_digits; [done|by apply (Hex (eneg, es))|by apply delim_nondigit].
    + simpl. by rewrite scan_exp_none.
  - destruct ex as [[eneg es]|].
    + unfold frac_str. rewrite app_nil_l, scan_frac_exp.
      rewrite scan_exp_digits; [done|by apply (Hex (eneg, es))|by apply delim_nondigit].
    + simpl. by rewrite scan_frac_none, scan_exp_none.
Qed.

(** ** Float literals *)

(** ** Floats *)

Lemma rev_zeros k : rev (zeros k) = zeros k.
Proof. apply rev_repeat. Qed.

Lemma lstrip0_head ds e : head (lstrip0 ds e).1 <> Some d0.
Proof.
  revert e. induction ds as [|d ds IH]; intros e; [done|].
  by destruct d; simpl.
Qed.

Lemma drop0_head ds : head (drop0 ds) <> Some d0.
Proof. induction ds as [|d ds IH]; [done|]. by destruct d. Qed.

Lemma drop0_zeros_inv ds : exists k, ds = zeros k ++ drop0 ds.
Proof.
  induction ds as [|d ds [k IH]]; [by exists 0%nat|].
  destruct d; try by exists 0%nat.
  exists (S k). simpl. f_equal. exact IH.
Qed.

Lemma dec_norm_wf neg ds e : dec_wf (dec_norm neg ds e).
Proof.
  unfold dec_norm. pose proof (lstrip0_head ds e) as Hh.
  destruct (lstrip0 ds e) as [ds1 e1]. simpl in Hh.
  destruct (rstrip0 ds1) as [|d ds2] eqn:E; [done|].
  unfold rstrip0 in E.
  change (head (d :: ds2) <> Some d0 /\ head (rev (d :: ds2)) <> Some d0).
  destruct (drop0_zeros_inv (rev ds1)) as [k Hk].
  apply (f_equal (@rev digits)) in Hk.
  rewrite rev_involutive, rev_app_distr, rev_zeros, E in Hk.
  split.
  - subst ds1. intros [= ->]. by apply Hh.
  - rewrite <- E, rev_involutive. apply drop0_head.
Qed.

(** ** The value of a digit list *)

Definition digit_val (d : digits) : N :=
  match d with
  | d0 => 0 | d1 => 1 | d2 => 2 | d3 => 3 | d4 => 4
  | d5 => 5 | d6 => 6 | d7 => 7 | d8 => 8 | d9 => 9
  end.

Lemma of_list_rev l : of_list (List.rev l) = Decimal.rev (of_list l).
Proof.
  apply to_list_inj. by rewrite rev_spec, !to_list_of_list.
Qed.

Lemma digits_N_snoc ds d :
  digits_N (ds ++ [d]) = 10 * digits_N ds + digit_val d.
Proof.
  unfold digits_N, N.of_uint.
  rewrite !DecimalPos.Unsigned.of_uint_alt, <- !of_list_rev.
  rewrite rev_app_distr. simpl.
  destruct d; simpl; lia.
Qed.

Lemma digits_N_zeros ds t : digits_N (ds ++ zeros t) = digits_N ds * 10 ^ N.of_nat t.
Proof.
  induction t as [|t IH].
  - simpl. rewrite app_nil_r. lia.
  - replace (zeros (S t)) with (zeros t ++ [d0]).
    + rewrite app_assoc, digits_N_snoc, IH.
      rewrite Nat2N.inj_succ, N.pow_succ_r'. simpl. lia.
    + unfold zeros. by rewrite <- repeat_cons.
Qed.

Lemma digits_N_cons0 ds : digits_N (d0 :: ds) = digits_N ds.
Proof. done. Qed.

(** ** Rounding *)

Lemma round_div_exact k c : (0 < c)%Z -> round_div (k * c) c = k.
Proof.
  intros Hc. unfold round_div.
  rewrite Z.div_mul by lia. rewrite Z.mod_mul by lia.
  destruct (Z.compare_spec (2 * 0) c); lia.
Qed.

Lemma round_div_bounds a c :
  (0 < c)%Z -> (a / c <= round_div a c <= a / c + 1)%Z.
Proof.
  intros Hc. unfold round_div.
  destruct (2 * (a mod c) ?= c)%Z; [destruct (Z.even (a / c))| |]; lia.
Qed.

Lemma div_pow2_range n L :
  (52 <= L)%Z -> (2 ^ L <= n < 2 ^ (L + 1))%Z ->
  (2 ^ 52 <= n / 2 ^ (L - 52) < 2 ^ 53)%Z.
Proof.
  intros HL [Hlo Hhi].
  assert (Hs : (0 < 2 ^ (L - 52))%Z) by (apply Z.pow_pos_nonneg; lia).
  assert (H1 : (2 ^ L = 2 ^ 52 * 2 ^ (L - 52))%Z).
  { rewrite <- Z.pow_add_r by lia. f_equal. lia. }
  assert (H2 : (2 ^ (L + 1) = 2 ^ (L - 52) * 2 ^ 53)%Z).
  { rewrite <- Z.pow_add_r by lia. f_equal. lia. }
  split.
  - apply Z.div_le_lower_bound; lia.
  - apply Z.div_lt_upper_bound; lia.
Qed.

(** Whatever is rounded, the result is a value a float can hold. *)
Lemma round_scaled_ok neg a b :
  (0 <= a)%Z -> (0 < b)%Z -> float_ok (round_scaled neg a b).
Proof.
  intros Ha Hb. unfold round_scaled.
  set (n0 := (a / b)%Z).
  assert (Hn0 : (0 <= n0)%Z) by (apply Z.div_pos; lia).
  set (s := Z.max 0 (bit_length n0 - 53)).
  assert (Hs : (0 <= s)%Z) by lia.
  assert (Hp : (0 < 2 ^ s)%Z) by (apply Z.pow_pos_nonneg; lia).
  pose proof (round_div_bounds a (b * 2 ^ s) ltac:(lia)) as Hm.
  rewrite <- Z.div_div in Hm by lia. fold n0 in Hm.
  set (m := round_div a (b * 2 ^ s)) in *.
  assert (Hcase : (s = 0 /\ n0 < 2 ^ 53 \/
                   0 < s /\ 2 ^ 52 <= n0 / 2 ^ s < 2 ^ 53)%Z).
  { unfold s, bit_length. destruct (Z.eqb_spec n0 0) as [->|Hnz].
    - left. split; [lia|]. apply Z.pow_pos_nonneg; lia.
    - pose proof (Z.log2_spec n0 ltac:(lia)) as Hl.
      pose proof (Z.log2_nonneg n0) as Hl0.
      rewrite <- Z.add_1_r in Hl.
      destruct (Z_le_gt_dec (Z.log2 n0 + 1) 53) as [Hle|Hgt].
      + left. split; [lia|].
        eapply Z.lt_le_trans; [apply Hl|].
        apply Z.pow_le_mono_r; lia.
      + right. split; [lia|].
        replace (Z.max 0 (Z.log2 n0 + 1 - 53)) with (Z.log2 n0 - 52)%Z by lia.
        apply div_pow2_range; lia. }
  assert (H52 : (2 ^ 52 < 2 ^ 53)%Z) by (apply Z.pow_lt_mono_r; lia).
  destruct (Z.eqb_spec m (2 ^ 53)) as [Hm53|Hm53].
  - change (2 ^ 52)%Z with (Zpos (2 ^ 52)).
    destruct (Z.ltb_spec 971 (s - 1074 + 1)); simpl; [done|].
    split; [done|]. split; [lia|]. right. done.
  - destruct m as [|p|p] eqn:Em; [done| |done].
    destruct (Z.ltb_spec 971 (s - 1074)); simpl; [done|].
    destruct Hcase as [[Hs0 Hn]|[Hs0 Hn]].
    + rewrite Hs0 in *. rewrite Z.pow_0_r, Z.div_1_r in Hm.
      split; [lia|]. split; [lia|]. left. lia.
    + split; [lia|]. split; [lia|]. right. lia.
Qed.

(** A value that a float can hold is rounded to itself. *)
Lemma round_scaled_exact neg m e a b :
  float_ok (FNum neg m e) -> (0 < b)%Z ->
  a = (Zpos m * 2 ^ (e + 1074) * b)%Z ->
  round_scaled neg a b = FNum neg m e.
Proof.
  intros (Hm & He & Hnorm) Hb ->. unfold round_scaled.
  rewrite Z.div_mul by lia.
  assert (Ht : (0 <= e + 1074)%Z) by lia.
  assert (Hp : (0 < 2 ^ (e + 1074))%Z) by (apply Z.pow_pos_nonneg; lia).
  assert (Hbl : Z.max 0 (bit_length (Zpos m * 2 ^ (e + 1074)) - 53)
                = (e + 1074)%Z).
  { unfold bit_length.
    destruct (Z.eqb_spec (Zpos m * 2 ^ (e + 1074)) 0) as [H0|_]; [nia|].
    rewrite Z.log2_mul_pow2 by lia.
    destruct Hnorm as [->|Hge].
    - assert (Z.log2 (Zpos m) < 53)%Z by (apply Z.log2_lt_pow2; lia). lia.
    - assert (Z.log2 (Zpos m) = 52)%Z.
      { apply Z.log2_unique; [lia|]. change (52 + 1)%Z with 53%Z. lia. }
      lia. }
  rewrite Hbl.
  replace (Zpos m * 2 ^ (e + 1074) * b)%Z
    with (Zpos m * (b * 2 ^ (e + 1074)))%Z by ring.
  rewrite round_div_exact by lia.
  destruct (Z.eqb_spec (Zpos m) (2 ^ 53)); [lia|].
  replace (e + 1074 - 1074)%Z with e by lia.
  destruct (Z.ltb_spec 971 e); [lia|done].
Qed.

(** ** Decimals as fractions *)

Lemma lstrip0_value ds k :
  digits_N (lstrip0 ds k).1 = digits_N ds
  /\ ((lstrip0 ds k).2 - Z.of_nat (length (lstrip0 ds k).1)
      = k - Z.of_nat (length ds))%Z.
Proof.
  revert k. induction ds as [|d ds IH]; intros k; [done|].
  destruct d; try done. simpl lstrip0.
  destruct (IH (k - 1)%Z) as [H1 H2]. rewrite H1, H2, digits_N_cons0.
  split; [done|]. simpl length. lia.
Qed.

Lemma rstrip0_value ds :
  exists t, ds = rstrip0 ds ++ zeros t.
Proof.
  unfold rstrip0. destruct (drop0_zeros_inv (rev ds)) as [t Ht].
  exists t. apply (f_equal (@rev digits)) in Ht.
  by rewrite rev_involutive, rev_app_distr, rev_zeros in Ht.
Qed.

Lemma pow10_pos z : (0 < 10 ^ Z.max z 0)%Z.
Proof. apply Z.pow_pos_nonneg; lia. Qed.

(** Normalizing a decimal does not change the fraction it stands for. *)
Lemma dec_norm_scaled neg ds k :
  exists ds' k',
    dec_norm neg ds k = Dec neg ds' k'
    /\ ((dec_scaled ds k).1 * (dec_scaled ds' k').2
        = (dec_scaled ds' k').1 * (dec_scaled ds k).2)%Z.
Proof.
  unfold dec_norm.
  destruct (lstrip0_value ds k) as [Hv Hp].
  destruct (lstrip0 ds k) as [ds1 k1]. simpl in Hv, Hp.
  destruct (rstrip0_value ds1) as [t Ht].
  assert (Hd : digits_N ds = digits_N (rstrip0 ds1) * 10 ^ N.of_nat t).
  { rewrite <- Hv. rewrite Ht at 1. apply digits_N_zeros. }
  assert (Hl : length ds1 = (length (rstrip0 ds1) + t)%nat).
  { rewrite Ht at 1. rewrite length_app. unfold zeros. by rewrite repeat_length. }
  destruct (rstrip0 ds1) as [|d ds2] eqn:E.
  - exists [], 0%Z. split; [done|]. unfold dec_scaled. simpl fst. simpl snd.
    rewrite Hd. simpl. lia.
  - exists (d :: ds2), k1. split; [done|]. unfold dec_scaled. simpl fst. simpl snd.
    rewrite Hd, N2Z.inj_mul, N2Z.inj_pow, nat_N_Z. simpl Z.of_N at 2.
    set (D := Z.of_N (digits_N (d :: ds2))).
    set (p := (k - Z.of_nat (length ds))%Z) in *.
    simpl length in *.
    set (p' := (k1 - Z.of_nat (S (length ds2)))%Z).
    assert (Hpp : p' = (p + Z.of_nat t)%Z) by lia.
    assert (Hexp : (10 ^ Z.of_nat t * 10 ^ Z.max p 0 * 10 ^ Z.max (- p') 0
                    = 10 ^ Z.max p' 0 * 10 ^ Z.max (- p) 0)%Z).
    { rewrite <- !Z.pow_add_r by lia. f_equal. lia. }
    transitivity (D * 2 ^ 1074
                  * (10 ^ Z.of_nat t * 10 ^ Z.max p 0 * 10 ^ Z.max (- p') 0))%Z;
      [ring|].
    rewrite Hexp. ring.
Qed.

Lemma float_of_decimal_exact neg m e ds k :
  float_ok (FNum neg m e) ->
  (dec_scaled ds k).1 = (Zpos m * 2 ^ (e + 1074) * (dec_scaled ds k).2)%Z ->
  float_of_decimal (dec_norm neg ds k) = FNum neg m e.
Proof.
  intros Hok Hv.
  destruct (dec_norm_scaled neg ds k) as (ds' & k' & -> & Hs).
  unfold float_of_decimal.
  destruct (dec_scaled ds' k') as [a' b'] eqn:E'.
  destruct (dec_scaled ds k) as [a b] eqn:E. simpl in *.
  assert (Hb : (0 < b)%Z).
  { unfold dec_scaled in E. injection E as _ <-. apply pow10_pos. }
  assert (Hb' : (0 < b')%Z).
  { unfold dec_scaled in E'. injection E' as _ <-. apply pow10_pos. }
  apply round_scaled_exact; [done|done|].
  subst a. apply (Z.mul_cancel_r _ _ b); [lia|]. rewrite <- Hs. ring.
Qed.

(** The exact expansion of a float reads back as that float. *)
Lemma exact_decimal_reads_back neg m e :
  float_ok (FNum neg m e) ->
  float_of_decimal (exact_decimal neg m e) = FNum neg m e.
Proof.
  intros Hok. pose proof Hok as (Hm & He & _). unfold exact_decimal.
  destruct (Z.leb_spec 0 e) as [Hpos|Hneg].
  - apply float_of_decimal_exact; [done|].
    unfold dec_scaled. simpl fst. simpl snd.
    rewrite digits_N_repr, Z.sub_diag. simpl Z.max.
    rewrite N2Z.inj_mul, N2Z.inj_pow, Z2N.id by lia. simpl Z.of_N.
    rewrite Z.pow_0_r, !Z.mul_1_r, Z.pow_add_r by lia. ring.
  - apply float_of_decimal_exact; [done|].
    unfold dec_scaled. simpl fst. simpl snd.
    rewrite digits_N_repr.
    replace (Z.of_nat (length (to_list (N.to_uint (N.pos m * 5 ^ Z.to_N (- e)))))
             + e - Z.of_nat (length (to_list (N.to_uint (N.pos m * 5 ^ Z.to_N (- e))))))%Z
      with e by lia.
    replace (Z.max e 0) with 0%Z by lia.
    replace (Z.max (- e) 0) with (- e)%Z by lia.
    rewrite N2Z.inj_mul, N2Z.inj_pow, Z2N.id by lia. simpl Z.of_N.
    rewrite Z.pow_0_r, Z.mul_1_r.
    change 10%Z with (2 * 5)%Z. rewrite Z.pow_mul_l.
    replace (2 ^ 1074)%Z with (2 ^ (e + 1074) * 2 ^ (- e))%Z.
    + ring.
    + rewrite <- Z.pow_add_r by lia. f_equal. lia.
Qed.

(** ** [repr] reads back *)

Lemma exact_decimal_wf neg m e : dec_wf (exact_decimal neg m e).
Proof. unfold exact_decimal. destruct (0 <=? e)%Z; apply dec_norm_wf. Qed.

Lemma exact_decimal_sign neg m e :
  exists ds k, exact_decimal neg m e = Dec neg ds k.
Proof.
  unfold exact_decimal.
  destruct (0 <=? e)%Z;
    match goal with
    | |- context [dec_norm neg ?ds ?k] =>
      destruct (dec_norm_scaled neg ds k) as (ds' & k' & -> & _)
    end; by eexists _, _.
Qed.

Lemma pick_spec x neg ds decpt n c :
  pick x neg ds decpt n = Some c -> float_of_decimal c = x /\ dec_wf c.
Proof.
  unfold pick.
  destruct (bool_decide (float_of_decimal (cut_down neg ds decpt n) = x)) eqn:Elo;
    destruct (bool_decide (float_of_decimal (cut_up neg ds decpt n) = x)) eqn:Ehi;
    try apply bool_decide_eq_true_1 in Elo;
    try apply bool_decide_eq_true_1 in Ehi.
  - destruct (half_cmp (drop n ds)); [destruct (N.even _)| |];
      intros [= <-]; (split; [done|apply dec_norm_wf]).
  - intros [= <-]; (split; [done|apply dec_norm_wf]).
  - intros [= <-]; (split; [done|apply dec_norm_wf]).
  - done.
Qed.

Lemma shortest_from_spec x neg ds decpt fuel n :
  float_of_decimal (Dec neg ds decpt) = x -> dec_wf (Dec neg ds decpt) ->
  float_of_decimal (shortest_from x neg ds decpt fuel n) = x
  /\ dec_wf (shortest_from x neg ds decpt fuel n).
Proof.
  intros Hx Hwf. revert n. induction fuel as [|fuel IH]; intros n; [done|].
  simpl. destruct (pick x neg ds decpt n) as [c|] eqn:Ep; [|apply IH].
  by apply pick_spec in Ep.
Qed.

(** The digits of [repr(x)] read back as [x], and are in normal form. *)
Lemma repr_decimal_reads_back neg m e :
  float_ok (FNum neg m e) ->
  float_of_decimal (repr_decimal neg m e) = FNum neg m e
  /\ dec_wf (repr_decimal neg m e).
Proof.
  intros Hok. unfold repr_decimal.
  pose proof (exact_decimal_reads_back neg m e Hok) as Hx.
  pose proof (exact_decimal_wf neg m e) as Hwf.
  destruct (exact_decimal_sign neg m e) as (ds & k & E).
  rewrite E in *. by apply shortest_from_spec.
Qed.

(** ** How floats are printed *)

Lemma lstrip0_zeros k ds e :
  head ds <> Some d0 -> lstrip0 (zeros k ++ ds) e = (ds, (e - Z.of_nat k)%Z).
Proof.
  intros Hd. revert e. induction k as [|k IH]; intros e.
  - simpl. rewrite Z.sub_0_r. destruct ds as [|[] ds]; done.
  - simpl. rewrite IH. f_equal. lia.
Qed.

Lemma drop0_zeros k ds : head ds <> Some d0 -> drop0 (zeros k ++ ds) = ds.
Proof.
  intros Hd. induction k as [|k IH]; simpl; [|done].
  destruct ds as [|[] ds]; done.
Qed.

Lemma rstrip0_zeros k ds :
  head (rev ds) <> Some d0 -> rstrip0 (ds ++ zeros k) = ds.
Proof.
  intros Hd. unfold rstrip0.
  rewrite rev_app_distr, rev_zeros, drop0_zeros by done.
  apply rev_involutive.
Qed.

Lemma dec_norm_zeros neg a b ds e :
  ds <> [] -> head ds <> Some d0 -> head (rev ds) <> Some d0 ->
  dec_norm neg (zeros a ++ ds ++ zeros b) e = Dec neg ds (e - Z.of_nat a).
Proof.
  intros Hn Hh Hl. unfold dec_norm.
  rewrite lstrip0_zeros.
  - rewrite rstrip0_zeros by done. by destruct ds.
  - destruct ds; done.
Qed.

Lemma dec_norm_id neg ds e :
  ds <> [] -> head ds <> Some d0 -> head (rev ds) <> Some d0 ->
  dec_norm neg ds e = Dec neg ds e.
Proof.
  intros Hn Hh Hl.
  pose proof (dec_norm_zeros neg 0 0 ds e Hn Hh Hl) as H.
  simpl in H. rewrite app_nil_r in H. rewrite H. f_equal. lia.
Qed.

Lemma exp_repr_pieces e :
  exists es, es <> []
    /\ 101 :: exp_repr e = exp_str (Some ((e <? 0)%Z, es))
    /\ signed (e <? 0)%Z (digits_N es) = e.
Proof.
  unfold exp_repr, N_repr.
  assert (Hne : to_list (N.to_uint (Z.abs_N e)) <> []).
  { destruct (to_uint_shape (Z.abs_N e)) as [[_ ->]|(d & ds & -> & _)]; done. }
  assert (Hs : signed (e <? 0)%Z (Z.abs_N e) = e).
  { unfold signed. destruct (Z.ltb_spec e 0); lia. }
  destruct (Z.abs_N e <? 10).
  - exists (d0 :: to_list (N.to_uint (Z.abs_N e))). split; [done|].
    split; [by destruct (e <? 0)%Z|].
    by rewrite digits_N_cons0, digits_N_repr.
  - exists (to_list (N.to_uint (Z.abs_N e))). split; [done|].
    split; [by destruct (e <? 0)%Z|]. by rewrite digits_N_repr.
Qed.

Lemma digits_str_app a b : digits_str (a ++ b) = digits_str a ++ digits_str b.
Proof. apply map_app. Qed.

Lemma dec_repr_pieces neg ds decpt :
  dec_wf (Dec neg ds decpt) ->
  exists ip fp ex,
    dec_repr (Dec neg ds decpt)
    = sign_str neg ++ digits_str ip ++ frac_str fp ++ exp_str ex
    /\ int_part_ok ip
    /\ (forall fs, fp = Some fs -> fs <> [])
    /\ (forall e, ex = Some e -> snd e <> [])
    /\ number_value neg ip fp ex
       = JFloat (float_of_decimal (Dec neg ds decpt)).
Proof.
  intros Hwf. destruct ds as [|d ds'].
  { simpl in Hwf. subst decpt.
    exists [d0], (Some [d0]), None.
    refine (conj _ (conj _ (conj _ (conj _ _)))); try done.
    - by left.
    - by intros fs [= <-]. }
  destruct Hwf as [Hh Hl].
  assert (Hd : d <> d0) by (intros ->; by apply Hh).
  set (ds := d :: ds') in *.
  assert (Hne : ds <> []) by done.
  unfold dec_repr. fold (sign_str neg).
  change (match ds with [] => py "0.0" | d :: ds' => ?x end) with x.
  destruct ((-4 <? decpt) && (decpt <=? 16))%Z eqn:Erange.
  - destruct (Z.leb_spec decpt 0) as [Hle|Hgt].
    + exists [d0], (Some (zeros (Z.to_nat (- decpt)) ++ ds)), None.
      refine (conj _ (conj _ (conj _ (conj _ _)))).
      * simpl. by rewrite app_nil_r.
      * by left.
      * intros fs [= <-]. by destruct (zeros _).
      * done.
      * unfold number_value, float_of_literal, decimal_of_literal. simpl default.
        change ([d0] ++ ?x) with (zeros 1 ++ x).
        rewrite app_assoc.
        replace (zeros 1 ++ zeros (Z.to_nat (- decpt)))
          with (zeros (S (Z.to_nat (- decpt)))) by done.
        rewrite <- (app_nil_r ds) at 1. change (@nil digits) with (zeros 0).
        rewrite dec_norm_zeros by done. do 3 f_equal. simpl. lia.
    + destruct (Z.ltb_spec decpt (Z.of_nat (length ds))) as [Hlt|Hge].
      * exists (take (Z.to_nat decpt) ds), (Some (drop (Z.to_nat decpt) ds)), None.
        assert (Htk : exists n, Z.to_nat decpt = S n) by (exists (Z.to_nat decpt - 1)%nat; lia).
        destruct Htk as [n Hn].
        refine (conj _ (conj _ (conj _ (conj _ _)))).
        -- simpl. by rewrite app_nil_r.
        -- right. rewrite Hn. by exists d, (take n ds').
        -- intros fs [= <-]. intros Hnil.
           apply (f_equal length) in Hnil. rewrite length_drop in Hnil.
           change (length []) with 0%nat in Hnil. lia.
        -- done.
        -- unfold number_value, float_of_literal, decimal_of_literal. simpl default.
           rewrite take_drop, length_take.
           replace (Z.of_nat (Z.to_nat decpt `min` length ds) + 0)%Z with decpt by lia.
           by rewrite dec_norm_id.
      * exists (ds ++ zeros (Z.to_nat decpt - length ds)), (Some [d0]), None.
        refine (conj _ (conj _ (conj _ (conj _ _)))).
        -- done.
        -- right. by exists d, (ds' ++ zeros (Z.to_nat decpt - length ds)).
        -- by intros fs [= <-].
        -- done.
        -- unfold number_value, float_of_literal, decimal_of_literal. simpl default.
           rewrite <- app_assoc, length_app.
           change (zeros ?k ++ [d0]) with (zeros k ++ zeros 1).
           replace (zeros (Z.to_nat decpt - length ds) ++ zeros 1)
             with (zeros (S (Z.to_nat decpt - length ds))).
           2:{ unfold zeros. by rewrite <- repeat_app, Nat.add_1_r. }
           rewrite <- (app_nil_l (ds ++ _)). change (@nil digits) with (zeros 0) at 1.
           rewrite dec_norm_zeros by done. do 3 f_equal.
           unfold zeros. rewrite repeat_length. lia.
  - destruct (exp_repr_pieces (decpt - 1)) as (es & Hes & Ee & Ev).
    exists [d], (match ds' with [] => None | _ => Some ds' end),
      (Some ((decpt - 1 <? 0)%Z, es)).
    refine (conj _ (conj _ (conj _ (conj _ _)))).
    + rewrite <- Ee. subst ds. by destruct ds'.
    + right. by exists d, [].
    + intros fs. destruct ds'; [done|]. by intros [= <-].
    + by intros e [= <-].
    + unfold number_value, float_of_literal, decimal_of_literal. simpl option_map. rewrite Ev.
      assert (Hds : [d] ++ default [] (match ds' with [] => None | _ => Some ds' end) = ds)
        by by destruct ds'.
      transitivity (JFloat (float_of_decimal (dec_norm neg ([d] ++ default [] (match ds' with [] => None | _ => Some ds' end)) (Z.of_nat (length [d]) + default 0%Z (Some (decpt - 1)%Z))))).
      { by destruct ds'. }
      rewrite Hds. simpl length. simpl default.
      rewrite dec_norm_id by done. do 3 f_equal. lia.
Qed.

(** ** Printed values are read back *)

Lemma json_ind' (P : json -> Prop) :
  P JNull -> (forall b, P (JBool b)) -> (forall z, P (JInt z)) ->
  (forall f, P (JFloat f)) -> (forall s, P (JStr s)) ->
  (forall l, Forall P l -> P (JList l)) ->
  (forall d, Forall (fun kv => P (snd kv)) d -> P (JDict d)) ->
  forall v, P v.
Proof.
  intros Hn Hb Hi Hf Hs Hl Hd.
  refine (fix IH (v : json) : P v :=
    match v with
    | JNull => Hn
    | JBool b => Hb b
    | JInt z => Hi z
    | JFloat f => Hf f
    | JStr s => Hs s
    | JList l =>
      Hl l ((fix go (l : list json) : Forall P l :=
               match l with
               | [] => Forall_nil_2 P
               | x :: l' => Forall_cons_2 P x l' (IH x) (go l')
               end) l)
    | JDict d =>
      Hd d ((fix go (d : list (str * json)) : Forall (fun kv => P (snd kv)) d :=
               match d with
               | [] => Forall_nil_2 _
               | kv :: d' => Forall_cons_2 _ kv d' (IH (snd kv)) (go d')
               end) d)
    end).
Qed.

Lemma scan_once_number f depth s (neg : bool) d ds t :
  s = sign_str neg ++ digits_str (d :: ds) ++ t ->
  scan_once (S f) depth s
  = match match_number s with
    | Some (v, r) =>
      match int_digits_over v with
      | Some n => TooLong n
      | None => Parsed v r
      end
    | None => Malformed
    end.
Proof. intros ->. destruct neg, d; reflexivity. Qed.

Lemma scan_once_int z f depth r :
  int_digits_over (JInt z) = None ->
  delim r -> scan_once (S f) depth (int_repr z ++ r) = Parsed (JInt z) r.
Proof.
  intros Hfit Hr.
  assert (H : exists (neg : bool) n, int_repr z = sign_str neg ++ N_repr n
                            /\ signed neg n = z).
  { destruct z as [|p|p].
    - by exists false, 0.
    - by exists false, (Npos p).
    - by exists true, (Npos p). }
  destruct H as (neg & n & E & Hz). rewrite E, <- app_assoc.
  assert (Hn : exists d ds, N_repr n = digits_str (d :: ds)).
  { unfold N_repr.
    destruct (to_uint_shape n) as [[_ ->]|(d & ds & -> & _)]; by eexists _, _. }
  destruct Hn as (d & ds & En).
  erewrite scan_once_number by (by rewrite En).
  unfold sign_str. rewrite match_number_nat by done. by rewrite Hz, Hfit.
Qed.

Lemma float_of_decimal_ok d : float_ok (float_of_decimal d).
Proof.
  destruct d as [neg ds k]. unfold float_of_decimal, dec_scaled.
  apply round_scaled_ok.
  - pose proof (pow10_pos (k - Z.of_nat (length ds))).
    assert (0 < 2 ^ 1074)%Z by (apply Z.pow_pos_nonneg; lia). nia.
  - apply pow10_pos.
Qed.

Lemma float_of_decimal_zero neg : float_of_decimal (Dec neg [] 0) = FZero neg.
Proof. reflexivity. Qed.

(** The decimal [repr] writes for a float: it reads back as the float. *)
Lemma float_repr_decimal f0 :
  float_ok f0 ->
  match f0 with
  | FNan | FInf _ => True
  | _ => exists neg ds decpt,
           float_repr f0 = dec_repr (Dec neg ds decpt)
           /\ dec_wf (Dec neg ds decpt)
           /\ float_of_decimal (Dec neg ds decpt) = f0
  end.
Proof.
  intros Hok. destruct f0 as [|b|neg|neg m e]; try done.
  - exists neg, [], 0%Z. split; [done|]. split; [done|].
    apply float_of_decimal_zero.
  - destruct (repr_decimal_reads_back neg m e Hok) as [Hr Hwf].
    destruct (repr_decimal neg m e) as [neg' ds decpt] eqn:E.
    exists neg', ds, decpt. unfold float_repr. by rewrite E.
Qed.

Lemma scan_once_float f0 f depth r :
  float_ok f0 -> delim r ->
  scan_once (S f) depth (json_float_repr f0 ++ r) = Parsed (JFloat f0) r.
Proof.
  intros Hok Hr.
  pose proof (float_repr_decimal f0 Hok) as Hd.
  destruct f0 as [|[]|neg0|neg0 m e]; try reflexivity;
    destruct Hd as (neg & ds & decpt & Erepr & Hwf & Hback);
    unfold json_float_repr; rewrite Erepr;
    destruct (dec_repr_pieces neg ds decpt Hwf)
      as (ip & fp & ex & E & Hip & Hfp & Hex & Hv);
    rewrite E, <- !app_assoc;
    (assert (Hn : exists d ds', ip = d :: ds')
      by (destruct Hip as [->|(d & ds' & -> & _)]; by eexists _, _));
    destruct Hn as (d & ds' & ->);
    (erewrite scan_once_number by done);
    (rewrite match_number_pieces by done); by rewrite Hv, Hback.
Qed.


Lemma value_start_app s r : value_start s -> value_start (s ++ r).
Proof. intros (c & t & -> & H). by exists c, (t ++ r). Qed.

Lemma skip_ws_start s : value_start s -> skip_ws s = s.
Proof. intros (c & t & -> & Hc & _). simpl. by rewrite Hc. Qed.

Lemma value_start_number (neg : bool) d ds t :
  value_start (sign_str neg ++ digits_str (d :: ds) ++ t).
Proof. destruct neg, d; by eexists _, _. Qed.

Lemma dumps_start v : json_wf v -> value_start (json_dumps v).
Proof.
  destruct v as [|[]|z|f|s|l|d]; intros Hwf; try by eexists _, _.
  - destruct z as [|p|p]; simpl; unfold N_repr.
    + by eexists _, _.
    + destruct (to_uint_shape (Npos p)) as [[_ ->]|(d & ds & -> & _)];
        [by eexists _, _|].
      rewrite <- (app_nil_r (digits_str _)).
      apply (value_start_number false).
    + destruct (to_uint_shape (Npos p)) as [[_ ->]|(d & ds & -> & _)];
        [by eexists _, _|].
      rewrite <- (app_nil_r (digits_str _)).
      apply (value_start_number true d ds []).
  - pose proof (float_repr_decimal f Hwf) as Hd.
    destruct f as [|[]|neg0|neg0 m e]; try (by eexists _, _);
      destruct Hd as (neg & ds & decpt & Erepr & Hdwf & _);
      destruct (dec_repr_pieces neg ds decpt Hdwf)
        as (ip & fp & ex & E & Hip & _);
      unfold json_dumps, json_float_repr; rewrite Erepr, E;
      destruct Hip as [->|(d & ds' & -> & _)]; apply value_start_number.
Qed.

Lemma skip_ws_delim r : delim r -> skip_ws r = r.
Proof. destruct r as [|c r]; [done|]. by intros [->|[->| ->]]. Qed.

Lemma dict_set_fresh acc k v :
  k ∉ dict_keys acc -> dict_set acc k v = acc ++ [(k, v)].
Proof.
  induction acc as [|[k' v'] acc IH]; [done|]. simpl. intros Hk.
  apply not_elem_of_cons in Hk as [Hne Hk]. unfold str_eqb.
  rewrite bool_decide_eq_false_2 by done. by rewrite IH.
Qed.

Lemma parse_items_S f depth s acc :
  parse_items (S f) depth s acc
  = match scan_once f depth s with
    | Parsed v r =>
      match skip_ws r with
      | c :: r' =>
        if c =? 93 then Parsed (JList (rev (v :: acc))) r'
        else if c =? 44 then parse_items f depth (skip_ws r') (v :: acc)
        else Malformed
      | [] => Malformed
      end
    | failure => failure
    end.
Proof. done. Qed.

Lemma parse_members_S f depth s' acc :
  parse_members (S f) depth (34 :: s') acc
  = match scanstring s' [] with
    | Some (k, r) =>
      match skip_ws r with
      | c2 :: r2 =>
        if c2 =? 58 then
          match scan_once f depth (skip_ws r2) with
          | Parsed v r3 =>
            match skip_ws r3 with
            | c3 :: r4 =>
              if c3 =? 125 then Parsed (JDict (dict_set acc k v)) r4
              else if c3 =? 44
              then parse_members f depth (skip_ws r4) (dict_set acc k v)
              else Malformed
            | [] => Malformed
            end
          | failure => failure
          end
        else Malformed
      | [] => Malformed
      end
    | None => Malformed
    end.
Proof. done. Qed.

Lemma join_start x l t :
  json_wf x -> value_start (join (py ", ") (List.map json_dumps (x :: l)) ++ t).
Proof.
  intros Hwf. apply value_start_app. destruct l; simpl.
  - by apply dumps_start.
  - by apply value_start_app, dumps_start.
Qed.

(** Decide the comparisons between character constants in the goal. *)
Ltac eqb_consts :=
  repeat match goal with
         | |- context [N.eqb ?a ?b] =>
           let v := eval vm_compute in (N.eqb a b) in
           match v with
           | true => change (N.eqb a b) with true
           | false => change (N.eqb a b) with false
           end
         end;
  cbv iota.

Lemma parse_items_dumps depth l :
  l <> [] ->
  Forall (fun v => json_wf v /\ forall fuel r, (jsize v <= fuel)%nat -> delim r ->
                     scan_once fuel depth (json_dumps v ++ r) = Parsed v r) l ->
  forall fuel acc r,
    (fold_right (fun x n => S (jsize x + n)) 0 l <= fuel)%nat ->
    parse_items fuel depth (join (py ", ") (List.map json_dumps l) ++ 93 :: r) acc
    = Parsed (JList (rev acc ++ l)) r.
Proof.
  intros Hne Hall. induction Hall as [|x l [Hwf Hx] Hall IH]; [done|].
  intros fuel acc r Hfuel. simpl in Hfuel.
  destruct fuel as [|f]; [lia|]. rewrite parse_items_S.
  destruct l as [|y l].
  - simpl join. rewrite Hx; [|lia|by right; left]. done.
  - change (join (py ", ") (List.map json_dumps (x :: y :: l)))
      with (json_dumps x ++ py ", " ++ join (py ", ") (List.map json_dumps (y :: l))).
    rewrite <- !app_assoc. rewrite Hx; [|lia|by left].
    change (skip_ws (py ", " ++ ?t)) with (44 :: 32 :: t).
    eqb_consts. change (skip_ws (32 :: ?t)) with (skip_ws t).
    assert (Hy : json_wf y) by (by inversion Hall as [|?? []]).
    rewrite skip_ws_start by by apply join_start.
    rewrite IH; [|done|simpl in *; lia].
    simpl. by rewrite <- app_assoc.
Qed.

Lemma dump_member_app k x t :
  dump_member (k, x) ++ t
  = 34 :: flat_map escape_char k ++ 34 :: 58 :: 32 :: json_dumps x ++ t.
Proof.
  unfold dump_member, encode_string. simpl. by rewrite <- !app_assoc.
Qed.

Lemma parse_members_dumps depth d :
  d <> [] ->
  Forall (fun kv => json_wf (snd kv) /\ forall fuel r, (jsize (snd kv) <= fuel)%nat -> delim r ->
                     scan_once fuel depth (json_dumps (snd kv) ++ r) = Parsed (snd kv) r) d ->
  forall fuel acc r,
    (fold_right (fun kv n => S (jsize (snd kv) + n)) 0 d <= fuel)%nat ->
    NoDup (dict_keys (acc ++ d)) ->
    parse_members fuel depth (join (py ", ") (List.map dump_member d) ++ 125 :: r) acc
    = Parsed (JDict (acc ++ d)) r.
Proof.
  intros Hne Hall. induction Hall as [|[k x] d [Hwf Hx] Hall IH]; [done|].
  intros fuel acc r Hfuel Hnd. simpl in Hfuel, Hwf, Hx.
  destruct fuel as [|f]; [lia|].
  assert (Hk : k ∉ dict_keys acc).
  { unfold dict_keys in *. rewrite map_app in Hnd.
    apply NoDup_app in Hnd as (_ & Hdis & _). intros Hin.
    apply (Hdis k Hin). simpl. left. }
  destruct d as [|[k' y] d].
  - simpl join. rewrite dump_member_app, parse_members_S, scanstring_encode.
    change (skip_ws (58 :: ?t)) with (58 :: t).
    eqb_consts.
    change (skip_ws (32 :: ?t)) with (skip_ws t).
    rewrite skip_ws_start by by apply value_start_app, dumps_start.
    rewrite Hx; [|lia|by right; right].
    change (skip_ws (125 :: r)) with (125 :: r). eqb_consts.
    by rewrite dict_set_fresh.
  - change (join (py ", ") (List.map dump_member ((k, x) :: (k', y) :: d)))
      with (dump_member (k, x) ++ py ", " ++ join (py ", ") (List.map dump_member ((k', y) :: d))).
    rewrite <- !app_assoc.
    rewrite dump_member_app, parse_members_S, scanstring_encode.
    change (skip_ws (58 :: ?t)) with (58 :: t).
    eqb_consts.
    change (skip_ws (32 :: ?t)) with (skip_ws t).
    rewrite skip_ws_start by by apply value_start_app, dumps_start.
    rewrite Hx; [|lia|by left].
    change (skip_ws (py ", " ++ ?t)) with (44 :: 32 :: t).
    eqb_consts. change (skip_ws (32 :: ?t)) with (skip_ws t).
    rewrite skip_ws_start.
    2:{ apply value_start_app. simpl. destruct d; by eexists _, _. }
    rewrite dict_set_fresh by done.
    rewrite IH; [|done|simpl in *; lia|by rewrite <- app_assoc].
    by rewrite <- app_assoc.
Qed.

Lemma fold_wf_Forall {A} (f : A -> json) (l : list A) :
  fold_right (fun x P => json_wf (f x) /\ P) True l <-> Forall (fun x => json_wf (f x)) l.
Proof.
  induction l as [|x l IH]; simpl.
  - split; [constructor|done].
  - rewrite Forall_cons, IH. done.
Qed.

Lemma fold_fits_Forall {A} (f : A -> json) (l : list A) depth :
  fold_right (fun x P => json_fits (f x) depth /\ P) True l
  <-> Forall (fun x => json_fits (f x) depth) l.
Proof.
  induction l as [|x l IH]; simpl.
  - split; [constructor|done].
  - rewrite Forall_cons, IH. done.
Qed.

(** [scan_once] reads a printed value back, and stops right after it. *)
Lemma scan_once_dumps v :
  json_wf v ->
  forall depth, json_fits v depth ->
  forall fuel r, (jsize v <= fuel)%nat -> delim r ->
    scan_once fuel depth (json_dumps v ++ r) = Parsed v r.
Proof.
  induction v as [|b|z|f|s|l IH|d IH] using json_ind';
    intros Hwf depth Hfit fuel r Hfuel Hr; simpl in Hfuel;
    (destruct fuel as [|fuel]; [lia|]).
  - done.
  - by destruct b.
  - by apply scan_once_int.
  - by apply scan_once_float.
  - simpl. unfold encode_string.
    change (scan_once (S fuel) depth ((34 :: ?a ++ [34]) ++ r)) with
      (match scanstring ((a ++ [34]) ++ r) [] with
       | Some (x, r) => Parsed (JStr x) r
       | None => Malformed
       end).
    rewrite <- app_assoc. change ([34] ++ r) with (34 :: r).
    by rewrite scanstring_encode.
  - destruct depth as [|dp]; [done|].
    destruct l as [|x l]; [done|].
    apply (fold_wf_Forall (fun x => x) (x :: l)) in Hwf.
    apply (fold_fits_Forall (fun x => x) (x :: l)) in Hfit.
    assert (Hall : Forall (fun v => json_wf v /\ forall fuel r,
                (jsize v <= fuel)%nat -> delim r ->
                scan_once fuel dp (json_dumps v ++ r) = Parsed v r) (x :: l)).
    { apply Forall_and. split; [done|].
      eapply Forall_impl;
        [apply Forall_and; split; [exact IH|apply Forall_and; split; [exact Hwf|exact Hfit]]|].
      simpl. intros v (H1 & H2 & H3). by apply H1. }
    change (json_dumps (JList (x :: l)) ++ r)
      with (91 :: (join (py ", ") (List.map json_dumps (x :: l)) ++ [93]) ++ r).
    rewrite <- app_assoc.
    pose proof (join_start x l ([93] ++ r)) as Hst.
    pose proof Hst as (c & t & E & Hc & H93 & _); [by inversion Hwf|].
    change (scan_once (S fuel) (S dp) (91 :: ?a)) with
      (match skip_ws a with
       | c1 :: s2 => if c1 =? 93 then Parsed (JList []) s2
                     else parse_items fuel dp (c1 :: s2) []
       | [] => Malformed
       end).
    rewrite skip_ws_start by (apply Hst; by inversion Hwf).
    rewrite E. destruct (N.eqb_spec c 93); [done|]. rewrite <- E.
    change ([93] ++ r) with (93 :: r).
    rewrite parse_items_dumps; [done|done|done|]. simpl in *. lia.
  - destruct depth as [|dp]; [done|].
    destruct d as [|[k x] d]; [done|].
    destruct Hwf as [Hnd Hwf].
    apply (fold_wf_Forall snd ((k, x) :: d)) in Hwf.
    apply (fold_fits_Forall snd ((k, x) :: d)) in Hfit.
    assert (Hall : Forall (fun kv => json_wf (snd kv) /\ forall fuel r,
                (jsize (snd kv) <= fuel)%nat -> delim r ->
                scan_once fuel dp (json_dumps (snd kv) ++ r) = Parsed (snd kv) r) ((k, x) :: d)).
    { apply Forall_and. split; [done|].
      eapply Forall_impl;
        [apply Forall_and; split; [exact IH|apply Forall_and; split; [exact Hwf|exact Hfit]]|].
      simpl. intros v (H1 & H2 & H3). by apply H1. }
    change (json_dumps (JDict ((k, x) :: d)) ++ r)
      with (123 :: (join (py ", ") (List.map dump_member ((k, x) :: d)) ++ [125]) ++ r).
    rewrite <- app_assoc.
    assert (Hst : exists t, join (py ", ") (List.map dump_member ((k, x) :: d)) ++ [125] ++ r = 34 :: t).
    { simpl. destruct d; by eexists. }
    destruct Hst as [t E]. rewrite E.
    change (scan_once (S fuel) (S dp) (123 :: 34 :: t)) with (parse_members fuel dp (34 :: t) []).
    rewrite <- E. change ([125] ++ r) with (125 :: r).
    rewrite parse_members_dumps; [done|done|done| |done].
    simpl in *. lia.
Qed.

Lemma join_length_bound {A} (f : A -> str) (g : A -> nat) sep (l : list A) :
  Forall (fun x => (g x <= length (f x))%nat) l ->
  (2 <= length sep)%nat ->
  (fold_right (fun x n => S (g x + n)) 0 l <= length (join sep (List.map f l)) + 1)%nat.
Proof.
  intros Hall Hsep. induction Hall as [|x l Hx Hall IH]; [simpl; lia|].
  destruct l as [|y l].
  - simpl. lia.
  - change (join sep (List.map f (x :: y :: l)))
      with (f x ++ sep ++ join sep (List.map f (y :: l))).
    rewrite !length_app. simpl in *. lia.
Qed.

Lemma jsize_dumps v : json_wf v -> (jsize v <= length (json_dumps v))%nat.
Proof.
  induction v as [|b|z|f|s|l IH|d IH] using json_ind'; intros Hwf;
    try (destruct (dumps_start _ Hwf) as (c & t & -> & _); simpl; lia).
  - apply (fold_wf_Forall (fun x => x) l) in Hwf.
    assert (Hall : Forall (fun x => (jsize x <= length (json_dumps x))%nat) l).
    { eapply Forall_impl; [apply Forall_and; split; [exact IH|exact Hwf]|].
      simpl. intros v [H1 H2]. by apply H1. }
    pose proof (join_length_bound json_dumps jsize (py ", ") l Hall) as Hb.
    simpl in *. rewrite length_app. simpl. lia.
  - destruct Hwf as [_ Hwf]. apply (fold_wf_Forall snd d) in Hwf.
    assert (Hall : Forall (fun kv => (jsize (snd kv) <= length (dump_member kv))%nat) d).
    { eapply Forall_impl; [apply Forall_and; split; [exact IH|exact Hwf]|].
      cbv beta. intros v [H1 H2]. unfold dump_member. rewrite !length_app.
      specialize (H1 H2). lia. }
    pose proof (join_length_bound dump_member (fun kv => jsize (snd kv)) (py ", ") d Hall) as Hb.
    change (json_dumps (JDict d)) with (123 :: join (py ", ") (List.map dump_member d) ++ [125]).
    simpl in *. rewrite length_app. simpl. lia.
Qed.

(** Round trip: [json.loads(json.dumps(v)) == v]. *)
Lemma json_loads_dumps depth v :
  json_wf v -> json_fits v depth ->
  json_loads depth (json_dumps v) = Loaded v.
Proof.
  intros Hwf Hfit. unfold json_loads.
  rewrite skip_ws_start by by apply dumps_start.
  rewrite <- (app_nil_r (json_dumps v)) at 2.
  rewrite scan_once_dumps; [done|done|done| |done].
  pose proof (jsize_dumps v Hwf). lia.
Qed.

(** ** Parsed values are well formed *)

Lemma match_number_wf s v r : match_number s = Some (v, r) -> json_wf v.
Proof.
  unfold match_number.
  destruct (match s with
            | [] => (false, s)
            | c :: s' => if c =? 45 then (true, s') else (false, s)
            end) as [neg s0].
  destruct (scan_int_part s0) as [[ip r1]|]; [|done].
  destruct (scan_frac r1) as [fp r2]. destruct (scan_exp r2) as [ex r3].
  destruct fp, ex; intros [= <- <-]; try done; apply float_of_decimal_ok.
Qed.

Lemma dict_set_keys d k v :
  dict_keys (dict_set d k v)
  = if bool_decide (k ∈ dict_keys d) then dict_keys d else dict_keys d ++ [k].
Proof.
  induction d as [|[k' v'] d IH]; [done|]. simpl. unfold str_eqb.
  destruct (decide (k' = k)) as [->|Hne].
  - rewrite bool_decide_eq_true_2 by done.
    rewrite bool_decide_eq_true_2 by left. done.
  - rewrite bool_decide_eq_false_2 by done. simpl. rewrite IH.
    destruct (decide (k ∈ dict_keys d)) as [Hin|Hin].
    + rewrite !bool_decide_eq_true_2; [done|by right|done].
    + rewrite !bool_decide_eq_false_2; [done| |done].
      intros [?|?]%elem_of_cons; by subst.
Qed.

Lemma dict_set_wf d k v :
  json_wf (JDict d) -> json_wf v -> json_wf (JDict (dict_set d k v)).
Proof.
  intros [Hnd Hall] Hv. split.
  - rewrite dict_set_keys. case_bool_decide; [done|].
    apply NoDup_app. split; [done|]. split; [|apply NoDup_singleton].
    intros x Hx ->%list_elem_of_singleton. done.
  - clear Hnd. induction d as [|[k' v'] d IH]; [done|].
    simpl in *. destruct Hall as [H1 H2]. destruct (str_eqb k' k); simpl; auto.
Qed.

Lemma literal_wf lit v s v' r :
  json_wf v -> literal lit v s = Parsed v' r -> json_wf v'.
Proof. unfold literal. destruct (starts_with lit s); by intros ? [= <- _]. Qed.

Lemma json_wf_list l : json_wf (JList l) <-> Forall json_wf l.
Proof. apply (fold_wf_Forall (fun x => x)). Qed.

Lemma scan_wf fuel :
  (forall depth s v r, scan_once fuel depth s = Parsed v r -> json_wf v)
  /\ (forall depth s acc v r, Forall json_wf acc ->
        parse_items fuel depth s acc = Parsed v r -> json_wf v)
  /\ (forall depth s acc v r, json_wf (JDict acc) ->
        parse_members fuel depth s acc = Parsed v r -> json_wf v).
Proof.
  induction fuel as [|f (IH1 & IH2 & IH3)]; [done|].
  split; [|split].
  - intros depth s v r. simpl. destruct s as [|c s']; [done|].
    destruct (c =? 34).
    { destruct (scanstring s' []) as [[x r0]|]; [|done]. by intros [= <- _]. }
    destruct (c =? 123).
    { destruct depth as [|dp]; [done|].
      destruct (skip_ws s') as [|c1 s2]; [done|].
      destruct (c1 =? 125); [intros [= <- _]; split; [constructor|done]|].
      apply IH3. split; [constructor|done]. }
    destruct (c =? 91).
    { destruct depth as [|dp]; [done|].
      destruct (skip_ws s') as [|c1 s2]; [done|].
      destruct (c1 =? 93); [by intros [= <- _]|].
      by apply IH2. }
    repeat match goal with
           | |- context [N.eqb c ?k] => destruct (N.eqb c k); [by apply literal_wf|]
           end.
    match goal with
    | |- context [if ?b then Parsed (JFloat (FInf true)) _ else _] =>
      destruct b; [by intros [= <- _]|]
    end.
    destruct (match_number (c :: s')) as [[v0 r0]|] eqn:E; [|done].
    destruct (int_digits_over v0); [done|].
    intros [= <- _]. by eapply match_number_wf.
  - intros depth s acc v r Hacc. rewrite parse_items_S.
    destruct (scan_once f depth s) as [v0 r0| | | |] eqn:E; try done.
    apply IH1 in E.
    destruct (skip_ws r0) as [|c r']; [done|].
    destruct (c =? 93).
    { intros [= <- _]. apply json_wf_list. simpl.
      apply Forall_app. split; [by apply Forall_rev|by constructor]. }
    destruct (c =? 44); [|done]. apply IH2. by constructor.
  - intros depth s acc v r Hacc. destruct s as [|c s']; [done|].
    destruct (N.eqb_spec c 34) as [->|Hne].
    2:{ simpl. by destruct (N.eqb_spec c 34). }
    rewrite parse_members_S.
    destruct (scanstring s' []) as [[k r0]|]; [|done].
    destruct (skip_ws r0) as [|c2 r2]; [done|].
    destruct (c2 =? 58); [|done].
    destruct (scan_once f depth (skip_ws r2)) as [v0 r3| | | |] eqn:E; try done.
    apply IH1 in E.
    destruct (skip_ws r3) as [|c3 r4]; [done|].
    destruct (c3 =? 125); [intros [= <- _]; by apply dict_set_wf|].
    destruct (c3 =? 44); [|done]. apply IH3. by apply dict_set_wf.
Qed.

(** ** Parsed values are within the limits *)

Lemma json_fits_list l dp :
  json_fits (JList l) (S dp) <-> Forall (fun x => json_fits x dp) l.
Proof. apply (fold_fits_Forall (fun x => x)). Qed.

Lemma json_fits_dict d dp :
  json_fits (JDict d) (S dp) <-> Forall (fun kv => json_fits (snd kv) dp) d.
Proof. apply (fold_fits_Forall snd). Qed.

Lemma dict_set_fits d k v dp :
  json_fits (JDict d) (S dp) -> json_fits v dp ->
  json_fits (JDict (dict_set d k v)) (S dp).
Proof.
  rewrite !json_fits_dict. intros Hd Hv.
  induction Hd as [|[k' v'] d Hkv Hd IH]; simpl.
  - by repeat constructor.
  - destruct (str_eqb k' k); constructor; done.
Qed.

Lemma match_number_fits s v r depth :
  match_number s = Some (v, r) -> int_digits_over v = None ->
  json_fits v depth.
Proof.
  unfold match_number.
  destruct (match s with
            | [] => (false, s)
            | c :: s' => if c =? 45 then (true, s') else (false, s)
            end) as [neg s0].
  destruct (scan_int_part s0) as [[ip r1]|]; [|done].
  destruct (scan_frac r1) as [fp r2]. destruct (scan_exp r2) as [ex r3].
  destruct fp, ex; by intros [= <- <-].
Qed.

Lemma literal_fits lit v s v' r depth :
  json_fits v depth -> literal lit v s = Parsed v' r -> json_fits v' depth.
Proof. unfold literal. destruct (starts_with lit s); by intros ? [= <- _]. Qed.

Lemma scan_fits fuel :
  (forall depth s v r, scan_once fuel depth s = Parsed v r -> json_fits v depth)
  /\ (forall depth s acc v r, Forall (fun x => json_fits x depth) acc ->
        parse_items fuel depth s acc = Parsed v r -> json_fits v (S depth))
  /\ (forall depth s acc v r, json_fits (JDict acc) (S depth) ->
        parse_members fuel depth s acc = Parsed v r -> json_fits v (S depth)).
Proof.
  induction fuel as [|f (IH1 & IH2 & IH3)]; [done|].
  split; [|split].
  - intros depth s v r. simpl. destruct s as [|c s']; [done|].
    destruct (c =? 34).
    { destruct (scanstring s' []) as [[x r0]|]; [|done]. by intros [= <- _]. }
    destruct (c =? 123).
    { destruct depth as [|dp]; [done|].
      destruct (skip_ws s') as [|c1 s2]; [done|].
      destruct (c1 =? 125); [by intros [= <- _]|].
      by apply IH3. }
    destruct (c =? 91).
    { destruct depth as [|dp]; [done|].
      destruct (skip_ws s') as [|c1 s2]; [done|].
      destruct (c1 =? 93); [by intros [= <- _]|].
      by apply IH2. }
    repeat match goal with
           | |- context [N.eqb c ?k] => destruct (N.eqb c k); [by apply literal_fits|]
           end.
    match goal with
    | |- context [if ?b then Parsed (JFloat (FInf true)) _ else _] =>
      destruct b; [by intros [= <- _]|]
    end.
    destruct (match_number (c :: s')) as [[v0 r0]|] eqn:E; [|done].
    destruct (int_digits_over v0) eqn:Ed; [done|].
    intros [= <- _]. by eapply match_number_fits.
  - intros depth s acc v r Hacc. rewrite parse_items_S.
    destruct (scan_once f depth s) as [v0 r0| | | |] eqn:E; try done.
    apply IH1 in E.
    destruct (skip_ws r0) as [|c r']; [done|].
    destruct (c =? 93).
    { intros [= <- _]. apply json_fits_list. simpl.
      apply Forall_app. split; [by apply Forall_rev|by constructor]. }
    destruct (c =? 44); [|done]. apply IH2. by constructor.
  - intros depth s acc v r Hacc. destruct s as [|c s']; [done|].
    destruct (N.eqb_spec c 34) as [->|Hne].
    2:{ simpl. by destruct (N.eqb_spec c 34). }
    rewrite parse_members_S.
    destruct (scanstring s' []) as [[k r0]|]; [|done].
    destruct (skip_ws r0) as [|c2 r2]; [done|].
    destruct (c2 =? 58); [|done].
    destruct (scan_once f depth (skip_ws r2)) as [v0 r3| | | |] eqn:E; try done.
    apply IH1 in E.
    destruct (skip_ws r3) as [|c3 r4]; [done|].
    destruct (c3 =? 125); [intros [= <- _]; by apply dict_set_fits|].
    destruct (c3 =? 44); [|done]. apply IH3. by apply dict_set_fits.
Qed.

(** What [json.loads] returns is well formed and within the limits. *)
Lemma json_loads_wf depth s v :
  json_loads depth s = Loaded v -> json_wf v /\ json_fits v depth.
Proof.
  unfold json_loads.
  destruct (scan_once _ _ _) as [v0 r| | | |] eqn:E; try done.
  destruct (skip_ws r); [|done]. intros [= <-].
  split; [by apply (scan_wf _) in E|by apply (scan_fits _) in E].
Qed.

(** ** The fuel of [json_loads] always suffices *)

Lemma skip_ws_length s : (length (skip_ws s) <= length s)%nat.
Proof.
  induction s as [|c s IH]; [done|]. simpl.
  destruct (json_ws c); simpl; lia.
Qed.

Lemma scanstring_length n :
  forall s acc x r,
    (length s <= n)%nat -> scanstring s acc = Some (x, r) ->
    (length r < length s)%nat.
Proof.
  induction n as [|n IH]; intros s acc x r Hn.
  { destruct s; [done|simpl in Hn; lia]. }
  destruct s as [|c s1]; [done|]. simpl in Hn. simpl.
  destruct (c =? 34); [intros [= _ <-]; lia|].
  destruct (c =? 92).
  2:{ destruct (c <? 32); [done|]. intros H%IH; simpl in *; lia. }
  destruct s1 as [|e s2]; [done|]. simpl in Hn.
  destruct (e =? 117).
  2:{ destruct (unescape e); [|done]. intros H%IH; simpl in *; lia. }
  destruct s2 as [|h1 [|h2 [|h3 [|h4 s3]]]]; try done. simpl in Hn.
  destruct (hex4 h1 h2 h3 h4) as [u|]; [|done].
  assert (Hs3 : forall acc', scanstring s3 acc' = Some (x, r) ->
                  (length r < S (S (S (S (S (S (length s3)))))))%nat).
  { intros acc' H%IH; simpl in *; lia. }
  destruct (is_high_surrogate u); [|apply Hs3].
  destruct s3 as [|b [|m [|g1 [|g2 [|g3 [|g4 s4]]]]]]; try apply Hs3.
  destruct ((b =? 92) && (m =? 117)); [|apply Hs3].
  destruct (hex4 g1 g2 g3 g4) as [u2|]; [|done].
  destruct (is_low_surrogate u2); [|apply Hs3].
  simpl in Hn. intros H%IH; simpl in *; lia.
Qed.

Lemma scan_digits_length s : (length (scan_digits s).2 <= length s)%nat.
Proof.
  induction s as [|c s IH]; [done|]. simpl.
  destruct (digit_of_code c); [|done].
  destruct (scan_digits s) as [ds r]. simpl in *. lia.
Qed.

Lemma scan_int_part_length s ip r :
  scan_int_part s = Some (ip, r) -> (length r < length s)%nat.
Proof.
  unfold scan_int_part. destruct s as [|c s']; [done|].
  destruct (c =? 48); [intros [= _ <-]; simpl; lia|].
  pose proof (scan_digits_length (c :: s')) as Hl.
  destruct (scan_digits (c :: s')) as [ds r0] eqn:E.
  destruct ds as [|d ds]; [done|]. intros [= _ <-].
  simpl in E. destruct (digit_of_code c); [|done].
  pose proof (scan_digits_length s') as Hl'.
  destruct (scan_digits s') as [ds' r']. injection E as _ _ <-.
  simpl in *. lia.
Qed.

Lemma scan_frac_length s : (length (scan_frac s).2 <= length s)%nat.
Proof.
  unfold scan_frac. destruct s as [|c s']; [done|].
  destruct (c =? 46); [|done].
  pose proof (scan_digits_length s') as Hl.
  destruct (scan_digits s') as [[|d ds] r]; simpl in *; lia.
Qed.

Lemma scan_exp_length s : (length (scan_exp s).2 <= length s)%nat.
Proof.
  unfold scan_exp. destruct s as [|c s']; [done|].
  destruct ((c =? 101) || (c =? 69)); [|done].
  destruct s' as [|g t].
  - by simpl.
  - destruct (g =? 45).
    + pose proof (scan_digits_length t) as Hl.
      destruct (scan_digits t) as [[|d ds] r]; simpl in *; lia.
    + destruct (g =? 43).
      * pose proof (scan_digits_length t) as Hl.
        destruct (scan_digits t) as [[|d ds] r]; simpl in *; lia.
      * pose proof (scan_digits_length (g :: t)) as Hl.
        destruct (scan_digits (g :: t)) as [[|d ds] r]; simpl in *; lia.
Qed.

Lemma match_number_length s v r :
  match_number s = Some (v, r) -> (length r < length s)%nat.
Proof.
  unfold match_number.
  assert (Hs : (length (match s with
                  | [] => (false, s)
                  | c :: s' => if (c =? 45)%N then (true, s') else (false, s)
                  end).2 <= length s)%nat).
  { destruct s as [|c s']; [done|]. destruct (c =? 45); simpl; lia. }
  destruct (match s with
            | [] => (false, s)
            | c :: s' => if c =? 45 then (true, s') else (false, s)
            end) as [neg s0]. simpl in Hs.
  destruct (scan_int_part s0) as [[ip r1]|] eqn:E1; [|done].
  apply scan_int_part_length in E1.
  pose proof (scan_frac_length r1) as H2.
  destruct (scan_frac r1) as [fp r2].
  pose proof (scan_exp_length r2) as H3.
  destruct (scan_exp r2) as [ex r3]. simpl in *.
  destruct fp, ex; intros [= _ <-]; lia.
Qed.

Lemma starts_with_length p s :
  starts_with p s = true -> (length p <= length s)%nat.
Proof.
  revert s. induction p as [|a p IH]; intros s; [simpl; lia|].
  destruct s as [|b s]; [done|]. simpl.
  intros [_ H]%andb_prop. apply IH in H. lia.
Qed.

Lemma literal_length lit v s v' r :
  lit <> [] -> literal lit v s = Parsed v' r -> (length r < length s)%nat.
Proof.
  intros Hne. unfold literal.
  destruct (starts_with lit s) eqn:E; [|done]. intros [= _ <-].
  apply starts_with_length in E. rewrite length_drop.
  destruct lit; [done|]. simpl in *. lia.
Qed.


Lemma scan_once_S f depth c s' :
  scan_once (S f) depth (c :: s')
  = if c =? 34 then
      match scanstring s' [] with
      | Some (x, r) => Parsed (JStr x) r
      | None => Malformed
      end
    else if c =? 123 then
      match depth with
      | O => TooDeep (py "object")
      | S dp =>
        match skip_ws s' with
        | c1 :: s2 =>
          if c1 =? 125 then Parsed (JDict []) s2
          else parse_members f dp (c1 :: s2) []
        | [] => Malformed
        end
      end
    else if c =? 91 then
      match depth with
      | O => TooDeep (py "array")
      | S dp =>
        match skip_ws s' with
        | c1 :: s2 =>
          if c1 =? 93 then Parsed (JList []) s2
          else parse_items f dp (c1 :: s2) []
        | [] => Malformed
        end
      end
    else if c =? 110 then literal (py "null") JNull (c :: s')
    else if c =? 116 then literal (py "true") (JBool true) (c :: s')
    else if c =? 102 then literal (py "false") (JBool false) (c :: s')
    else if c =? 78 then literal (py "NaN") (JFloat FNan) (c :: s')
    else if c =? 73 then literal (py "Infinity") (JFloat (FInf false)) (c :: s')
    else if starts_with (py "-Infinity") (c :: s')
    then Parsed (JFloat (FInf true)) (drop 9 (c :: s'))
    else match match_number (c :: s') with
         | Some (v, r) =>
           match int_digits_over v with
           | Some n => TooLong n
           | None => Parsed v r
           end
         | None => Malformed
         end.
Proof. done. Qed.

(** An integer is refused only when it has too many digits. *)
Lemma scan_too_long fuel :
  (forall depth s n, scan_once fuel depth s = TooLong n ->
     (int_max_str_digits < n)%nat)
  /\ (forall depth s acc n, parse_items fuel depth s acc = TooLong n ->
        (int_max_str_digits < n)%nat)
  /\ (forall depth s acc n, parse_members fuel depth s acc = TooLong n ->
        (int_max_str_digits < n)%nat).
Proof.
  induction fuel as [|f (IH1 & IH2 & IH3)]; [done|].
  split; [|split].
  - intros depth s n. destruct s as [|c s']; [done|]. rewrite scan_once_S.
    destruct (c =? 34); [by destruct (scanstring s' []) as [[]|]|].
    destruct (c =? 123).
    { destruct depth as [|dp]; [done|].
      destruct (skip_ws s') as [|c1 s2]; [done|].
      destruct (c1 =? 125); [done|]. apply IH3. }
    destruct (c =? 91).
    { destruct depth as [|dp]; [done|].
      destruct (skip_ws s') as [|c1 s2]; [done|].
      destruct (c1 =? 93); [done|]. apply IH2. }
    unfold literal.
    repeat match goal with
           | |- context [if ?b then _ else _] => destruct b; try done
           end.
    destruct (match_number (c :: s')) as [[v0 r0]|]; [|done].
    unfold int_digits_over. destruct v0; try done.
    destruct (Nat.leb_spec (length (N_repr (Z.abs_N z))) int_max_str_digits);
      [done|]. by intros [= <-].
  - intros depth s acc n. rewrite parse_items_S.
    destruct (scan_once f depth s) as [v0 r0| | | |n'] eqn:E; try done.
    + destruct (skip_ws r0) as [|c r']; [done|].
      destruct (c =? 93); [done|]. destruct (c =? 44); [|done]. apply IH2.
    + intros [= <-]. by apply IH1 in E.
  - intros depth s acc n. destruct s as [|c s']; [done|].
    destruct (N.eqb_spec c 34) as [->|Hne].
    2:{ simpl. by destruct (N.eqb_spec c 34). }
    rewrite parse_members_S.
    destruct (scanstring s' []) as [[k r0]|]; [|done].
    destruct (skip_ws r0) as [|c2 r2]; [done|].
    destruct (c2 =? 58); [|done].
    destruct (scan_once f depth (skip_ws r2)) as [v0 r3| | | |n'] eqn:E; try done.
    + destruct (skip_ws r3) as [|c3 r4]; [done|].
      destruct (c3 =? 125); [done|]. destruct (c3 =? 44); [|done]. apply IH3.
    + intros [= <-]. by apply IH1 in E.
Qed.

Lemma scan_progress fuel :
  (forall depth s v r, scan_once fuel depth s = Parsed v r ->
      (length r < length s)%nat)
  /\ (forall depth s acc v r, parse_items fuel depth s acc = Parsed v r ->
        (length r < length s)%nat)
  /\ (forall depth s acc v r, parse_members fuel depth s acc = Parsed v r ->
        (length r < length s)%nat).
Proof.
  induction fuel as [|f (IH1 & IH2 & IH3)]; [done|].
  split; [|split].
  - intros depth s v r. destruct s as [|c s']; [done|]. rewrite scan_once_S.
    pose proof (skip_ws_length s') as Hws.
    destruct (c =? 34).
    { destruct (scanstring s' []) as [[x r0]|] eqn:E; [|done].
      intros [= _ <-]. apply (scanstring_length _ _ _ _ _ (le_n _)) in E.
      simpl. lia. }
    destruct (c =? 123).
    { destruct depth as [|dp]; [done|].
      destruct (skip_ws s') as [|c1 s2]; [done|].
      destruct (c1 =? 125); [intros [= _ <-]; simpl in *; lia|].
      intros H%IH3. simpl in *. lia. }
    destruct (c =? 91).
    { destruct depth as [|dp]; [done|].
      destruct (skip_ws s') as [|c1 s2]; [done|].
      destruct (c1 =? 93); [intros [= _ <-]; simpl in *; lia|].
      intros H%IH2. simpl in *. lia. }
    repeat match goal with
           | |- context [N.eqb c ?k] =>
             destruct (N.eqb c k); [by apply literal_length|]
           end.
    destruct (starts_with (py "-Infinity") (c :: s')) eqn:Eb.
    { intros [= _ <-]. apply starts_with_length in Eb.
      rewrite length_drop. change (length (py "-Infinity")) with 9%nat in Eb.
      simpl in *. lia. }
    destruct (match_number (c :: s')) as [[v0 r0]|] eqn:E; [|done].
    destruct (int_digits_over v0); [done|].
    intros [= _ <-]. by eapply match_number_length.
  - intros depth s acc v r. rewrite parse_items_S.
    destruct (scan_once f depth s) as [v0 r0| | | |] eqn:E; try done.
    apply IH1 in E. pose proof (skip_ws_length r0) as Hws.
    destruct (skip_ws r0) as [|c r']; [done|].
    destruct (c =? 93); [intros [= _ <-]; simpl in *; lia|].
    destruct (c =? 44); [|done]. intros H%IH2.
    pose proof (skip_ws_length r'). simpl in *. lia.
  - intros depth s acc v r. destruct s as [|c s']; [done|].
    destruct (N.eqb_spec c 34) as [->|Hne].
    2:{ simpl. by destruct (N.eqb_spec c 34). }
    rewrite parse_members_S.
    destruct (scanstring s' []) as [[k r0]|] eqn:Es; [|done].
    apply (scanstring_length _ _ _ _ _ (le_n _)) in Es.
    pose proof (skip_ws_length r0) as Hws.
    destruct (skip_ws r0) as [|c2 r2]; [done|].
    destruct (c2 =? 58); [|done].
    pose proof (skip_ws_length r2) as Hws2.
    destruct (scan_once f depth (skip_ws r2)) as [v0 r3| | | |] eqn:E; try done.
    apply IH1 in E. pose proof (skip_ws_length r3) as Hws3.
    destruct (skip_ws r3) as [|c3 r4]; [done|].
    destruct (c3 =? 125); [intros [= _ <-]; simpl in *; lia|].
    destruct (c3 =? 44); [|done]. intros H%IH3.
    pose proof (skip_ws_length r4). simpl in *. lia.
Qed.

Lemma scan_fuel fuel :
  (forall depth s, (2 * length s + 1 <= fuel)%nat ->
     scan_once fuel depth s <> OutOfFuel)
  /\ (forall depth s acc, (2 * length s + 2 <= fuel)%nat ->
        parse_items fuel depth s acc <> OutOfFuel)
  /\ (forall depth s acc, (2 * length s + 2 <= fuel)%nat ->
        parse_members fuel depth s acc <> OutOfFuel).
Proof.
  induction fuel as [|f (IH1 & IH2 & IH3)].
  { repeat split; intros; lia. }
  split; [|split].
  - intros depth s Hf. destruct s as [|c s']; [done|]. rewrite scan_once_S.
    pose proof (skip_ws_length s') as Hws. simpl in Hf.
    destruct (c =? 34); [by destruct (scanstring s' []) as [[]|]|].
    destruct (c =? 123).
    { destruct depth as [|dp]; [done|].
      destruct (skip_ws s') as [|c1 s2] eqn:E; [done|].
      destruct (c1 =? 125); [done|]. apply IH3. simpl in *. lia. }
    destruct (c =? 91).
    { destruct depth as [|dp]; [done|].
      destruct (skip_ws s') as [|c1 s2] eqn:E; [done|].
      destruct (c1 =? 93); [done|]. apply IH2. simpl in *. lia. }
    unfold literal.
    repeat match goal with
           | |- context [if ?b then _ else _] => destruct b; try done
           end.
    destruct (match_number (c :: s')) as [[v0 r0]|]; [|done].
    by destruct (int_digits_over v0).
  - intros depth s acc Hf. rewrite parse_items_S.
    pose proof (IH1 depth s) as H1.
    destruct (scan_once f depth s) as [v0 r0| | | |] eqn:E; try done.
    2:{ apply H1; lia. }
    apply (scan_progress f) in E. pose proof (skip_ws_length r0) as Hws.
    destruct (skip_ws r0) as [|c r']; [done|].
    destruct (c =? 93); [done|]. destruct (c =? 44); [|done].
    apply IH2. pose proof (skip_ws_length r'). simpl in *. lia.
  - intros depth s acc Hf. destruct s as [|c s']; [done|].
    destruct (N.eqb_spec c 34) as [->|Hne].
    2:{ simpl. by destruct (N.eqb_spec c 34). }
    rewrite parse_members_S.
    destruct (scanstring s' []) as [[k r0]|] eqn:Es; [|done].
    apply (scanstring_length _ _ _ _ _ (le_n _)) in Es.
    pose proof (skip_ws_length r0) as Hws.
    destruct (skip_ws r0) as [|c2 r2]; [done|].
    destruct (c2 =? 58); [|done].
    pose proof (skip_ws_length r2) as Hws2.
    pose proof (IH1 depth (skip_ws r2)) as H1.
    destruct (scan_once f depth (skip_ws r2)) as [v0 r3| | | |] eqn:E; try done.
    2:{ apply H1. simpl in *. lia. }
    apply (scan_progress f) in E. pose proof (skip_ws_length r3) as Hws3.
    destruct (skip_ws r3) as [|c3 r4]; [done|].
    destruct (c3 =? 125); [done|]. destruct (c3 =? 44); [|done].
    apply IH3. pose proof (skip_ws_length r4). simpl in *. lia.
Qed.

(** The fuel that [json_loads] gives to [scan_once] never runs out. *)
Lemma json_loads_fuel depth s :
  scan_once (2 * length s + 1) depth (skip_ws s) <> OutOfFuel.
Proof. apply scan_fuel. pose proof (skip_ws_length s). lia. Qed.

(** ** Blank text is never valid JSON *)

Lemma isspace_cases c :
  py_isspace c = true -> json_ws c = false ->
  List.In c [11; 12; 28; 29; 30; 31; 133; 160; 5760; 8192; 8193; 8194; 8195;
             8196; 8197; 8198; 8199; 8200; 8201; 8202; 8232; 8233; 8239;
             8287; 12288].
Proof.
  unfold py_isspace, json_ws. intros H1 H2.
  repeat (apply orb_prop in H1 as [H1|H1]);
  repeat (apply orb_false_elim in H2 as [H2 ?]);
  repeat match goal with
         | H : _ && _ = true |- _ => apply andb_prop in H as [??]
         | H : (_ <=? _) = true |- _ => apply N.leb_le in H
         | H : (_ =? _) = true |- _ => apply N.eqb_eq in H
         | H : (_ =? _) = false |- _ => apply N.eqb_neq in H
         end; simpl; lia.
Qed.

Lemma skip_ws_blank s : blank s -> blank (skip_ws s).
Proof.
  induction 1 as [|c s Hc Hs IH]; [constructor|]. simpl.
  destruct (json_ws c); [done|]. by constructor.
Qed.

Lemma skip_ws_head s c t : skip_ws s = c :: t -> json_ws c = false.
Proof.
  induction s as [|a s IH]; [done|]. simpl.
  destruct (json_ws a) eqn:E; [done|]. by intros [= <- _].
Qed.

Lemma json_loads_blank depth s :
  blank s -> json_loads depth s = JSONDecodeError.
Proof.
  intros Hb. unfold json_loads. apply skip_ws_blank in Hb.
  replace (2 * length s + 1)%nat with (S (2 * length s)) by lia.
  destruct (skip_ws s) as [|c t] eqn:E; [done|].
  apply skip_ws_head in E. inversion Hb as [|?? Hc _]; subst.
  pose proof (isspace_cases c Hc E) as Hin. simpl in Hin.
  repeat (destruct Hin as [<-|Hin]; [reflexivity|]). done.
Qed.

(** ** The adapters and the row assembler *)

Section Pipeline.
Context `{E : Env}.

Lemma set_world_id (st : state) : set_world st (world st) = st.
Proof. by destruct st. Qed.

(** The generation adapter never raises; it only touches the world. *)
Lemma run_generation_spec prompt cfg atts (st : state) :
  exists gen w,
    run_generation prompt cfg atts st = (Ok gen, set_world st w)
    /\ (success gen = false -> is_Some (error gen) /\ response gen = []).
Proof.
  unfold run_generation, bind, call_generation, ret.
  destruct (run_generation_task_async _ (world st)) as [[e|res] w].
  - eexists _, w. split; [done|]. by eauto.
  - destruct (results res) as [|item ?].
    + eexists _, w. split; [done|]. by eauto.
    + destruct (gi_success item) eqn:Es; eexists _, w; (split; [done|]);
        simpl; by eauto.
Qed.

(** The grading adapter only touches the world, whether it returns or
    raises. *)
Lemma run_grading_frame resp rub (st : state) :
  exists r w, run_grading resp rub st = (r, set_world st w).
Proof.
  unfold run_grading.
  destruct resp as [|c resp].
  { eexists _, _. unfold raise. by rewrite set_world_id. }
  unfold bind, lift, call_grading, raise, ret.
  destruct (parse_rubric rub) as [d|e].
  2:{ eexists _, _. by rewrite set_world_id. }
  destruct (run_grading_task_async _ (world st)) as [[e|res] w].
  { by eexists _, w. }
  destruct (criteria_results res); by eexists _, w.
Qed.

Lemma process_pair_spec fp rub atts cfg n run (st : state) :
  exists p w,
    process_pair fp rub atts cfg n run st
    = (Ok tt, {| world := w; trace := trace st ++ report_events n p;
                 result_row := report_row p (result_row st);
                 out_file := out_file st |})
    /\ report_id p = (model_id cfg, run)
    /\ report_ok rub p.
Proof.
  unfold process_pair, bind, log, emit.
  set (st1 := {| world := world st; trace := trace st ++ [EvLog (LogRun (model_id cfg) run n)];
                 result_row := result_row st; out_file := out_file st |}).
  destruct (run_generation_spec fp cfg atts st1) as (gen & w & Hg & Hfail).
  rewrite Hg. unfold row_set. simpl.
  destruct (success gen) eqn:Es; simpl.
  - destruct rub as [|c rub].
    { exists {| pr_model := model_id cfg; pr_run := run; pr_gen := gen; pr_graded := None |}, w.
      unfold report_events, report_row, report_ok. simpl. rewrite Es. simpl.
      rewrite <- app_assoc. repeat split; try done;
        try (by intros [? ?]); by intros (? & ? & ?). }
    destruct (response gen) as [|c' resp] eqn:Er.
    { exists {| pr_model := model_id cfg; pr_run := run; pr_gen := gen; pr_graded := None |}, w.
      unfold report_events, report_row, report_ok. simpl. rewrite Es, Er. simpl.
      rewrite <- app_assoc. repeat split; try done;
        try (by intros [? ?]); by intros (? & ? & ?). }
    unfold attempt.
    match goal with
    | |- context [run_grading ?a ?b ?s] =>
      destruct (run_grading_frame a b s) as (r & w' & Hr); rewrite Hr
    end.
    exists {| pr_model := model_id cfg; pr_run := run; pr_gen := gen; pr_graded := Some r |}, w'.
    unfold report_events, report_row, report_ok. simpl. rewrite Es, Er. simpl.
    destruct r as [g|e]; simpl; rewrite <- !app_assoc; repeat split; try done.
  - exists {| pr_model := model_id cfg; pr_run := run; pr_gen := gen; pr_graded := None |}, w.
    unfold report_events, report_row, report_ok. simpl. rewrite Es. simpl.
    rewrite <- app_assoc. repeat split; try done;
      try (by intros [? ?]); try (by intros (? & ? & ?)); by apply Hfail.
Qed.

End Pipeline.

Section Assembler.
Context `{E : Env}.

Lemma advance_nil (st : state) n : advance st (world st) n [] = st.
Proof. destruct st. unfold advance. simpl. by rewrite app_nil_r. Qed.

Lemma advance_advance (st : state) w1 w2 n ps1 ps2 :
  advance (advance st w1 n ps1) w2 n ps2 = advance st w2 n (ps1 ++ ps2).
Proof.
  unfold advance. simpl. by rewrite flat_map_app, fold_left_app, app_assoc.
Qed.

Lemma for_each_reports {A} (l : list A) (body : A -> M unit)
    (ids : A -> list (str * N)) rub n :
  (forall x st, exists ps w,
      body x st = (Ok tt, advance st w n ps)
      /\ List.map report_id ps = ids x /\ Forall (report_ok rub) ps) ->
  forall st, exists ps w,
      for_each l body st = (Ok tt, advance st w n ps)
      /\ List.map report_id ps = flat_map ids l /\ Forall (report_ok rub) ps.
Proof.
  intros Hbody. induction l as [|x l IH]; intros st.
  - exists [], (world st). by rewrite advance_nil.
  - destruct (Hbody x st) as (ps1 & w1 & H1 & Hid1 & Hok1).
    destruct (IH (advance st w1 n ps1)) as (ps2 & w2 & H2 & Hid2 & Hok2).
    exists (ps1 ++ ps2), w2. simpl. unfold bind. rewrite H1, H2, advance_advance.
    split; [done|]. split; [|by apply Forall_app].
    by rewrite map_app, Hid1, Hid2.
Qed.

Lemma pairs_loop_spec fp rub atts models n (st : state) :
  exists ps w,
    for_each models (fun cfg =>
      for_each (run_range n) (process_pair fp rub atts cfg n)) st
    = (Ok tt, advance st w n ps)
    /\ List.map report_id ps = List.map pair_id (all_pairs models n)
    /\ Forall (report_ok rub) ps.
Proof.
  destruct (for_each_reports models
              (fun cfg => for_each (run_range n) (process_pair fp rub atts cfg n))
              (fun cfg => List.map (fun run => (model_id cfg, run)) (run_range n))
              rub n) with (st := st) as (ps & w & H & Hid & Hok).
  - intros cfg st0.
    destruct (for_each_reports (run_range n) (process_pair fp rub atts cfg n)
                (fun run => [(model_id cfg, run)]) rub n) with (st := st0)
      as (ps & w & H & Hid & Hok).
    + intros run st1.
      destruct (process_pair_spec fp rub atts cfg n run st1) as (p & w & H & Hid & Hok).
      exists [p], w. unfold advance. simpl. rewrite app_nil_r.
      split; [done|]. split; [by rewrite Hid|by constructor].
    + exists ps, w. split; [done|]. split; [|done].
      rewrite Hid. clear. induction (run_range n); simpl; by f_equal.
  - exists ps, w. split; [done|]. split; [|done].
    rewrite Hid. unfold all_pairs. clear.
    induction models as [|cfg models IH]; [done|]. simpl.
    rewrite map_app, IH. f_equal. by rewrite List.map_map.
Qed.

End Assembler.

Section Task.
Context `{E : Env}.

Lemma add_trace_nil (st : state) : add_trace st [] = st.
Proof. destruct st. unfold add_trace. simpl. by rewrite app_nil_r. Qed.

Lemma attach_each_spec dir paths atts (st : state) :
  exists atts' logs,
    attach_each dir paths atts st = (Ok atts', add_trace st logs)
    /\ Forall is_file_log logs.
Proof.
  revert atts st. induction paths as [|p paths IH]; intros atts st.
  - exists atts, []. by rewrite add_trace_nil.
  - simpl. destruct (strip p) as [|c rel]; [apply IH|].
    destruct (path_exists _); [apply IH|].
    unfold bind, log, emit.
    match goal with
    | |- context [attach_each dir paths atts ?s] =>
      destruct (IH atts s) as (atts' & logs & H & Hl); rewrite H
    end.
    eexists atts', (_ :: logs). unfold add_trace. simpl.
    rewrite <- app_assoc. split; [done|]. constructor; [by eexists|done].
Qed.

Lemma bind_ok {A B} (m : M A) (k : A -> M B) (st st' : state) a :
  m st = (Ok a, st') -> bind m k st = k a st'.
Proof. unfold bind. by intros ->. Qed.

Lemma bind_raise {A B} (m : M A) (k : A -> M B) (st st' : state) e :
  m st = (Raise e, st') -> bind m k st = (Raise e, st').
Proof. unfold bind. by intros ->. Qed.

Lemma create_attachments_ok files dir (st : state) :
  exists atts logs,
    create_attachments (Some files) dir st = (Ok atts, add_trace st logs)
    /\ Forall is_file_log logs.
Proof.
  unfold create_attachments.
  destruct (attach_each_spec dir (split_on 10 (strip files)) [] st)
    as (atts & logs & H & Hl).
  exists atts, logs. split; [|done].
  by erewrite bind_ok.
Qed.

Lemma assemble_raise models n task_data dir (st : state) e :
  setup_error task_data = Some e ->
  exists logs,
    assemble models n task_data dir st = (Raise e, add_trace st logs)
    /\ Forall is_file_log logs.
Proof.
  unfold setup_error, assemble.
  destruct (get_cell task_data (py "File Attachments") []) as [files|].
  2:{ intros [= <-]. exists []. rewrite add_trace_nil. done. }
  destruct (create_attachments_ok files dir st) as (atts & logs & Ha & Hl).
  erewrite bind_ok by exact Ha.
  destruct (get_cell task_data (py "Rubric JSON") []) as [rub|].
  2:{ intros [= <-]. by exists logs. }
  erewrite bind_ok by done.
  destruct (get_cell task_data (py "Domain") []) as [dom|].
  2:{ intros [= <-]. by exists logs. }
  destruct (get_cell task_data (py "Prompt") []) as [prompt|]; [done|].
  intros [= <-]. by exists logs.
Qed.

Lemma assemble_ok models n task_data dir (st : state) :
  setup_error task_data = None ->
  exists logs ps w,
    assemble models n task_data dir st
    = (Ok tt,
       {| world := w;
          trace := trace st ++ logs ++ flat_map (report_events n) ps;
          result_row :=
            <[py "status" := VStr (py "completed")]>
              (fold_left (fun row p => report_row p row) ps (result_row st));
          out_file := out_file st |})
    /\ Forall is_file_log logs
    /\ List.map report_id ps = List.map pair_id (all_pairs models n)
    /\ Forall (report_ok (rubric_of task_data)) ps.
Proof.
  unfold setup_error, assemble, rubric_of.
  destruct (get_cell task_data (py "File Attachments") []) as [files|]; [|done].
  destruct (create_attachments_ok files dir st) as (atts & logs & Ha & Hl).
  erewrite bind_ok by exact Ha.
  destruct (get_cell task_data (py "Rubric JSON") []) as [rub|]; [|done].
  erewrite bind_ok by done.
  destruct (get_cell task_data (py "Domain") []) as [dom|]; [|done].
  destruct (get_cell task_data (py "Prompt") []) as [prompt|]; [|done].
  intros _. erewrite bind_ok by done.
  match goal with
  | |- context [process_pair ?fp ?r ?a _ _] =>
    destruct (pairs_loop_spec fp r a models n (add_trace st logs))
      as (ps & w & Hp & Hid & Hok)
  end.
  erewrite bind_ok by exact Hp.
  exists logs, ps, w. unfold row_set, advance, add_trace. simpl.
  split; [|done]. by rewrite <- app_assoc.
Qed.

(** [process_task] always returns a row. Either a cell needed before the
    first pair is [None] and the row carries the error status, or every
    pair is processed and the row carries what the pairs left, with status
    [completed]. *)
Lemma process_task_with_raise models n task_data dir (st : state) e :
  setup_error task_data = Some e ->
  exists logs,
    let row := <[py "status" := error_status e]> (initial_row task_data) in
    process_task_with models n task_data dir st
    = (Ok row,
       {| world := world st;
          trace := trace st ++ EvLog (LogProcessing (task_id_of task_data))
                   :: logs ++ [EvLog (LogTaskFailed (task_id_of task_data) e)];
          result_row := row; out_file := out_file st |})
    /\ Forall is_file_log logs.
Proof.
  intros He. unfold process_task_with, try_except.
  fold (task_id_of task_data). fold (initial_row task_data).
  unfold bind at 1. unfold log at 1. unfold emit.
  unfold bind at 1. unfold new_row. cbn [world trace result_row out_file].
  unfold bind at 1.
  match goal with
  | |- context [assemble models n task_data dir ?s] =>
    destruct (assemble_raise models n task_data dir s e He) as (logs & Ha & Hl)
  end.
  rewrite Ha. exists logs. split; [|done].
  unfold bind, log, emit, row_set, get_row, add_trace, error_status. simpl.
  by rewrite <- !app_assoc.
Qed.

Lemma process_task_with_ok models n task_data dir (st : state) :
  setup_error task_data = None ->
  exists logs ps w,
    let row := <[py "status" := VStr (py "completed")]>
                 (fold_left (fun row p => report_row p row) ps
                            (initial_row task_data)) in
    process_task_with models n task_data dir st
    = (Ok row,
       {| world := w;
          trace := trace st ++ EvLog (LogProcessing (task_id_of task_data))
                   :: logs ++ flat_map (report_events n) ps;
          result_row := row; out_file := out_file st |})
    /\ Forall is_file_log logs
    /\ List.map report_id ps = List.map pair_id (all_pairs models n)
    /\ Forall (report_ok (rubric_of task_data)) ps.
Proof.
  intros He. unfold process_task_with, try_except.
  fold (task_id_of task_data). fold (initial_row task_data).
  unfold bind at 1. unfold log at 1. unfold emit.
  unfold bind at 1. unfold new_row. cbn [world trace result_row out_file].
  unfold bind at 1.
  match goal with
  | |- context [assemble models n task_data dir ?s] =>
    destruct (assemble_ok models n task_data dir s He)
      as (logs & ps & w & Ha & Hl & Hid & Hok)
  end.
  rewrite Ha. exists logs, ps, w. split; [|done].
  unfold get_row. simpl. by rewrite <- !app_assoc.
Qed.

End Task.

(** ** Field names never collide *)

(** Two names that end differently are different: compare them from the
    right. *)
Ltac key_neq :=
  let H := fresh in
  intros H; apply (f_equal (@rev N)) in H;
  rewrite ?rev_app_distr in H; vm_compute in H; discriminate H.

Lemma response_score p q : p ++ py "_response" <> q ++ py "_score".
Proof. key_neq. Qed.
Lemma response_summary p q : p ++ py "_response" <> q ++ py "_score_summary".
Proof. key_neq. Qed.
Lemma score_summary_ne p q : p ++ py "_score" <> q ++ py "_score_summary".
Proof. key_neq. Qed.

Lemma pair_key_not_fixed (prefix k : str) :
  k ∈ pair_keys prefix ->
  k <> py "status" /\ k <> py "task_id" /\ k <> py "domain".
Proof.
  unfold pair_keys. rewrite !elem_of_cons, elem_of_nil.
  intros [->|[->|[->|[]]]]; repeat split; key_neq.
Qed.

Lemma pair_keys_disjoint (a b k : str) :
  k ∈ pair_keys a -> k ∈ pair_keys b -> a = b.
Proof.
  unfold pair_keys. rewrite !elem_of_cons, !elem_of_nil.
  intros [->|[->|[->|[]]]] [H|[H|[H|[]]]];
    try (by apply app_inv_tail in H);
    exfalso; revert H;
    first [apply response_score | apply response_summary | apply score_summary_ne
          | (intros H; symmetry in H; revert H;
             first [apply response_score | apply response_summary
                   | apply score_summary_ne])].
Qed.

(** ** How the reports shape the row *)

Lemma report_row_frame (p : pair_report) (row : gmap str value) (k : str) :
  k ∉ pair_keys (report_prefix p) -> report_row p row !! k = row !! k.
Proof.
  unfold pair_keys, report_prefix, report_row.
  rewrite !not_elem_of_cons. intros (H1 & H2 & H3 & _).
  destruct (negb (success (pr_gen p))); [|destruct (pr_graded p) as [[]|]];
    by rewrite ?lookup_insert_ne.
Qed.

Lemma report_row_congr (p : pair_report) (row1 row2 : gmap str value) (k : str) :
  row1 !! k = row2 !! k -> report_row p row1 !! k = report_row p row2 !! k.
Proof.
  intros H. unfold report_row.
  destruct (negb (success (pr_gen p))); [|destruct (pr_graded p) as [[]|]];
    rewrite !lookup_insert; repeat case_decide; done.
Qed.

Lemma fold_reports_frame (ps : list pair_report) (row : gmap str value) (k : str) :
  (forall p, p ∈ ps -> k ∉ pair_keys (report_prefix p)) ->
  fold_left (fun row p => report_row p row) ps row !! k = row !! k.
Proof.
  revert row. induction ps as [|p ps IH]; intros row Hk; [done|]. simpl.
  rewrite IH by (intros; apply Hk; by right).
  apply report_row_frame, Hk. by left.
Qed.

Lemma fold_reports_lookup (ps : list pair_report) (row : gmap str value)
    (p : pair_report) (k : str) :
  NoDup (List.map report_prefix ps) -> p ∈ ps ->
  k ∈ pair_keys (report_prefix p) ->
  fold_left (fun row p => report_row p row) ps row !! k
  = report_row p row !! k.
Proof.
  revert row. induction ps as [|q ps IH]; intros row Hnd Hin Hk.
  { by apply elem_of_nil in Hin. }
  simpl in *. apply NoDup_cons in Hnd as [Hq Hnd].
  apply elem_of_cons in Hin as [->|Hin].
  - apply fold_reports_frame. intros p' Hp' Hk'.
    apply Hq. rewrite (pair_keys_disjoint _ _ _ Hk Hk').
    by apply list_elem_of_fmap_2.
  - rewrite IH by done. apply report_row_congr, report_row_frame.
    intros Hk'. apply Hq. rewrite (pair_keys_disjoint _ _ _ Hk' Hk).
    by apply list_elem_of_fmap_2.
Qed.

(** ** How the reports shape the trace *)

Lemma generated_pairs_app a b :
  generated_pairs (a ++ b) = generated_pairs a ++ generated_pairs b.
Proof. apply flat_map_app. Qed.

Lemma generated_pairs_reports n ps :
  generated_pairs (flat_map (report_events n) ps) = List.map report_id ps.
Proof.
  induction ps as [|p ps IH]; [done|].
  change (flat_map (report_events n) (p :: ps))
    with (report_events n p ++ flat_map (report_events n) ps).
  rewrite generated_pairs_app, IH.
  unfold report_events. simpl. by destruct (pr_graded p) as [[]|].
Qed.

Lemma generated_pairs_logs logs :
  Forall is_file_log logs -> generated_pairs logs = [].
Proof.
  induction 1 as [|e logs [p ->] _ IH]; [done|]. by simpl.
Qed.

Lemma generated_in_reports n ps m r gen :
  EvGenerated m r gen ∈ flat_map (report_events n) ps ->
  exists p, p ∈ ps /\ report_id p = (m, r) /\ pr_gen p = gen.
Proof.
  rewrite list_elem_of_In, in_flat_map. intros (p & Hp & Hin).
  exists p. split; [by apply list_elem_of_In|].
  unfold report_events in Hin. apply in_app_or in Hin as [Hin|Hin].
  - simpl in Hin. destruct Hin as [Hin|[Hin|[]]]; [done|].
    by injection Hin as <- <- <-.
  - destruct (pr_graded p) as [[]|]; simpl in Hin; try done;
      repeat (destruct Hin as [Hin|Hin]; try done).
Qed.

Lemma graded_in_reports n ps m r res :
  EvGraded m r res ∈ flat_map (report_events n) ps ->
  exists p, p ∈ ps /\ report_id p = (m, r) /\ pr_graded p = Some res.
Proof.
  rewrite list_elem_of_In, in_flat_map. intros (p & Hp & Hin).
  exists p. split; [by apply list_elem_of_In|].
  unfold report_events in Hin. apply in_app_or in Hin as [Hin|Hin].
  - simpl in Hin. destruct Hin as [Hin|[Hin|[]]]; done.
  - destruct (pr_graded p) as [[]|]; simpl in Hin; try done;
      repeat (destruct Hin as [Hin|Hin]; try done);
      by injection Hin as <- <- <-.
Qed.

Lemma file_log_not_generated logs m r gen :
  Forall is_file_log logs -> EvGenerated m r gen ∉ logs.
Proof.
  intros Hl Hin. rewrite Forall_forall in Hl.
  by destruct (Hl _ Hin).
Qed.

Lemma file_log_not_graded logs m r res :
  Forall is_file_log logs -> EvGraded m r res ∉ logs.
Proof.
  intros Hl Hin. rewrite Forall_forall in Hl.
  by destruct (Hl _ Hin).
Qed.

(** ** The row of one task *)

Lemma configured_prefixes_distinct :
  NoDup (List.map id_prefix (List.map pair_id (all_pairs MODELS NUMBER_OF_RUNS))).
Proof. apply (bool_decide_unpack _). by vm_compute. Qed.

Section Row.
Context `{E : Env}.

Lemma report_prefixes ps :
  List.map report_prefix ps = List.map id_prefix (List.map report_id ps).
Proof. by rewrite List.map_map. Qed.

Lemma assemble_outcome models n task_data dir (st : state) :
  match setup_error task_data with
  | Some e => exists st', assemble models n task_data dir st = (Raise e, st')
  | None => exists st', assemble models n task_data dir st = (Ok tt, st')
  end.
Proof.
  destruct (setup_error task_data) as [e|] eqn:He.
  - destruct (assemble_raise models n task_data dir st e He) as (? & -> & _).
    by eexists.
  - destruct (assemble_ok models n task_data dir st He) as (? & ? & ? & -> & _).
    by eexists.
Qed.

(** The two ways [process_task] ends. *)
Lemma process_task_cases task_data dir (st st' : state) row evs :
  process_task task_data dir st = (Ok row, st') ->
  trace st' = trace st ++ evs ->
  (exists e logs,
      setup_error task_data = Some e
      /\ row = <[py "status" := error_status e]> (initial_row task_data)
      /\ evs = EvLog (LogProcessing (task_id_of task_data))
               :: logs ++ [EvLog (LogTaskFailed (task_id_of task_data) e)]
      /\ Forall is_file_log logs)
  \/ (exists logs ps,
      setup_error task_data = None
      /\ row = <[py "status" := VStr (py "completed")]>
                 (fold_left (fun row p => report_row p row) ps
                            (initial_row task_data))
      /\ evs = EvLog (LogProcessing (task_id_of task_data))
               :: logs ++ flat_map (report_events NUMBER_OF_RUNS) ps
      /\ Forall is_file_log logs
      /\ List.map report_id ps = List.map pair_id (all_pairs MODELS NUMBER_OF_RUNS)
      /\ Forall (report_ok (rubric_of task_data)) ps
      /\ NoDup (List.map report_prefix ps)).
Proof.
  unfold process_task. intros Hrun Htr.
  destruct (setup_error task_data) as [e|] eqn:He.
  - left.
    destruct (process_task_with_raise MODELS NUMBER_OF_RUNS task_data dir st e He)
      as (logs & Hspec & Hl).
    rewrite Hspec in Hrun. injection Hrun as <- <-. simpl in Htr.
    apply app_inv_head in Htr. by exists e, logs.
  - right.
    destruct (process_task_with_ok MODELS NUMBER_OF_RUNS task_data dir st He)
      as (logs & ps & w & Hspec & Hl & Hid & Hok).
    rewrite Hspec in Hrun. injection Hrun as <- <-. simpl in Htr.
    apply app_inv_head in Htr. exists logs, ps.
    repeat split; try done.
    rewrite report_prefixes, Hid. apply configured_prefixes_distinct.
Qed.

(** [process_task] returns a row whatever happens. *)
Lemma process_task_total task_data dir (st : state) :
  exists row st' evs,
    process_task task_data dir st = (Ok row, st')
    /\ trace st' = trace st ++ evs
    /\ out_file st' = out_file st.
Proof.
  unfold process_task.
  destruct (setup_error task_data) as [e|] eqn:He.
  - destruct (process_task_with_raise MODELS NUMBER_OF_RUNS task_data dir st e He)
      as (logs & Hspec & Hl).
    eexists _, _, _. split; [exact Hspec|]. done.
  - destruct (process_task_with_ok MODELS NUMBER_OF_RUNS task_data dir st He)
      as (logs & ps & w & Hspec & Hl & Hid & Hok).
    eexists _, _, _. split; [exact Hspec|]. done.
Qed.

Lemma initial_row_pair_key task_data prefix k :
  k ∈ pair_keys prefix -> initial_row task_data !! k = None.
Proof.
  intros (H1 & H2 & H3)%pair_key_not_fixed. unfold initial_row.
  by rewrite !lookup_insert_ne.
Qed.

Lemma score_key prefix : prefix ++ py "_score" ∈ pair_keys prefix.
Proof. unfold pair_keys. set_solver. Qed.
Lemma summary_key prefix : prefix ++ py "_score_summary" ∈ pair_keys prefix.
Proof. unfold pair_keys. set_solver. Qed.
Lemma response_key prefix : prefix ++ py "_response" ∈ pair_keys prefix.
Proof. unfold pair_keys. set_solver. Qed.

(** The field of a pair in the final row is the field its report wrote. *)
Lemma final_row_lookup task_data ps p k :
  NoDup (List.map report_prefix ps) -> p ∈ ps ->
  k ∈ pair_keys (report_prefix p) ->
  (<[py "status" := VStr (py "completed")]>
     (fold_left (fun row p => report_row p row) ps (initial_row task_data)))
    !! k
  = report_row p (initial_row task_data) !! k.
Proof.
  intros Hnd Hin Hk.
  destruct (pair_key_not_fixed _ _ Hk) as (Hs & _).
  rewrite lookup_insert_ne by done. by apply fold_reports_lookup.
Qed.

End Row.

(** ** Claims about the row assembler *)

Section RowClaims.
Context `{E : Env}.

(** C2. When the generation adapter reports a failure for a (model, run)
    pair, the row holds score 0 for that pair and the summary
    "Generation failed: " followed by the first 100 characters of the
    error text; and the generation adapter was called for every configured
    pair, in profile order then run order, so the pairs after the failed
    one were attempted too. *)
Theorem failed_generation_is_recorded_and_isolated
    task_data dir (st st' : state) row evs m r gen :
  process_task task_data dir st = (Ok row, st') ->
  trace st' = trace st ++ evs ->
  EvGenerated m r gen ∈ evs ->
  success gen = false ->
  row !! (prefix_of m r ++ py "_score") = Some (VInt 0)
  /\ (exists msg,
        error gen = Some msg
        /\ row !! (prefix_of m r ++ py "_score_summary")
           = Some (VStr (py "Generation failed: " ++ take 100 msg)))
  /\ generated_pairs evs = List.map pair_id (all_pairs MODELS NUMBER_OF_RUNS).
Proof.
  intros Hrun Htr Hin Hfail.
  destruct (process_task_cases _ _ _ _ _ _ Hrun Htr)
    as [(e & logs & _ & _ & -> & Hl)|(logs & ps & _ & -> & -> & Hl & Hid & Hok & Hnd)].
  { exfalso. apply elem_of_cons in Hin as [?|Hin]; [done|].
    apply elem_of_app in Hin as [Hin|Hin].
    - by eapply file_log_not_generated.
    - by apply list_elem_of_singleton in Hin. }
  apply elem_of_cons in Hin as [?|Hin]; [done|].
  apply elem_of_app in Hin as [Hin|Hin].
  { exfalso. by eapply file_log_not_generated. }
  apply generated_in_reports in Hin as (p & Hp & Hpid & <-).
  assert (Hpre : report_prefix p = prefix_of m r).
  { unfold report_prefix. by injection Hpid as -> ->. }
  rewrite Forall_forall in Hok. destruct (Hok p Hp) as [_ Herr].
  destruct (Herr Hfail) as [[msg Hmsg] _].
  rewrite <- Hpre. split; [|split].
  - rewrite (final_row_lookup task_data ps p); [|done|done|apply score_key].
    unfold report_row. fold (report_prefix p). rewrite Hfail. simpl.
    rewrite lookup_insert_ne by (symmetry; apply score_summary_ne).
    by rewrite lookup_insert_eq.
  - exists msg. split; [done|].
    rewrite (final_row_lookup task_data ps p); [|done|done|apply summary_key].
    unfold report_row. fold (report_prefix p). rewrite Hfail, Hmsg. simpl.
    by rewrite lookup_insert_eq.
  - simpl. rewrite generated_pairs_app, generated_pairs_logs by done.
    by rewrite generated_pairs_reports.
Qed.

(** C3. When grading raises for a (model, run) pair (which happens only
    after a successful generation with a non-empty response and a rubric
    present), the row has no score and no score-summary field for that
    pair, its response field holds the generated response, every
    configured pair was attempted, and the task status is "completed". *)
Theorem grading_error_leaves_score_absent
    task_data dir (st st' : state) row evs m r e :
  process_task task_data dir st = (Ok row, st') ->
  trace st' = trace st ++ evs ->
  EvGraded m r (Raise e) ∈ evs ->
  row !! (prefix_of m r ++ py "_score") = None
  /\ row !! (prefix_of m r ++ py "_score_summary") = None
  /\ (exists gen,
        EvGenerated m r gen ∈ evs
        /\ success gen = true /\ response gen <> []
        /\ row !! (prefix_of m r ++ py "_response") = Some (VStr (response gen)))
  /\ rubric_of task_data <> []
  /\ row !! py "status" = Some (VStr (py "completed"))
  /\ generated_pairs evs = List.map pair_id (all_pairs MODELS NUMBER_OF_RUNS).
Proof.
  intros Hrun Htr Hin.
  destruct (process_task_cases _ _ _ _ _ _ Hrun Htr)
    as [(e' & logs & _ & _ & -> & Hl)|(logs & ps & _ & -> & -> & Hl & Hid & Hok & Hnd)].
  { exfalso. apply elem_of_cons in Hin as [?|Hin]; [done|].
    apply elem_of_app in Hin as [Hin|Hin].
    - by eapply file_log_not_graded.
    - by apply list_elem_of_singleton in Hin. }
  apply elem_of_cons in Hin as [?|Hin]; [done|].
  apply elem_of_app in Hin as [Hin|Hin].
  { exfalso. by eapply file_log_not_graded. }
  apply graded_in_reports in Hin as (p & Hp & Hpid & Hgr).
  assert (Hpre : report_prefix p = prefix_of m r).
  { unfold report_prefix. by injection Hpid as -> ->. }
  rewrite Forall_forall in Hok. destruct (Hok p Hp) as [Hatt _].
  destruct Hatt as [Hatt _].
  destruct Hatt as (Hs & Hrub & Hresp); [by rewrite Hgr|].
  assert (Hrow : forall k, k ∈ pair_keys (report_prefix p) ->
            k <> report_prefix p ++ py "_response" ->
            report_row p (initial_row task_data) !! k = None).
  { intros k Hk Hne. unfold report_row. fold (report_prefix p).
    rewrite Hs, Hgr. simpl. rewrite lookup_insert_ne by done.
    by eapply initial_row_pair_key. }
  rewrite <- Hpre. repeat split.
  - rewrite (final_row_lookup task_data ps p); [|done|done|apply score_key].
    apply Hrow; [apply score_key|]. symmetry. apply response_score.
  - rewrite (final_row_lookup task_data ps p); [|done|done|apply summary_key].
    apply Hrow; [apply summary_key|]. symmetry. apply response_summary.
  - exists (pr_gen p). split; [|split; [done|split; [done|]]].
    + apply elem_of_cons. right. apply elem_of_app. right.
      apply list_elem_of_In, in_flat_map. exists p.
      split; [by apply list_elem_of_In|].
      unfold report_events. injection Hpid as <- <-. simpl. auto.
    + rewrite (final_row_lookup task_data ps p); [|done|done|apply response_key].
      unfold report_row. fold (report_prefix p). rewrite Hs, Hgr. simpl.
      by rewrite lookup_insert_eq.
  - done.
  - by rewrite lookup_insert_eq.
  - simpl. rewrite generated_pairs_app, generated_pairs_logs by done.
    by rewrite generated_pairs_reports.
Qed.

(** C8 (amended). When generation succeeds for a (model, run) pair and
    either the task's rubric text is empty once stripped or the response
    is the empty string, the row holds score 0 for that pair and the
    summary "No rubric or empty response". *)
Theorem ungraded_pair_scores_zero
    task_data dir (st st' : state) row evs m r gen :
  process_task task_data dir st = (Ok row, st') ->
  trace st' = trace st ++ evs ->
  EvGenerated m r gen ∈ evs ->
  success gen = true ->
  rubric_of task_data = [] \/ response gen = [] ->
  row !! (prefix_of m r ++ py "_score") = Some (VInt 0)
  /\ row !! (prefix_of m r ++ py "_score_summary")
     = Some (VStr (py "No rubric or empty response")).
Proof.
  intros Hrun Htr Hin Hs Hskip.
  destruct (process_task_cases _ _ _ _ _ _ Hrun Htr)
    as [(e & logs & _ & _ & -> & Hl)|(logs & ps & _ & -> & -> & Hl & Hid & Hok & Hnd)].
  { exfalso. apply elem_of_cons in Hin as [?|Hin]; [done|].
    apply elem_of_app in Hin as [Hin|Hin].
    - by eapply file_log_not_generated.
    - by apply list_elem_of_singleton in Hin. }
  apply elem_of_cons in Hin as [?|Hin]; [done|].
  apply elem_of_app in Hin as [Hin|Hin].
  { exfalso. by eapply file_log_not_generated. }
  apply generated_in_reports in Hin as (p & Hp & Hpid & <-).
  assert (Hpre : report_prefix p = prefix_of m r).
  { unfold report_prefix. by injection Hpid as -> ->. }
  rewrite Forall_forall in Hok. destruct (Hok p Hp) as [[Hatt _] _].
  assert (Hgr : pr_graded p = None).
  { destruct (pr_graded p) as [res|]; [|done].
    destruct Hatt as (_ & Hrub & Hresp); [done|]. by destruct Hskip. }
  rewrite <- Hpre. split.
  - rewrite (final_row_lookup task_data ps p); [|done|done|apply score_key].
    unfold report_row. fold (report_prefix p). rewrite Hs, Hgr. simpl.
    rewrite lookup_insert_ne by (symmetry; apply score_summary_ne).
    by rewrite lookup_insert_eq.
  - rewrite (final_row_lookup task_data ps p); [|done|done|apply summary_key].
    unfold report_row. fold (report_prefix p). rewrite Hs, Hgr. simpl.
    by rewrite lookup_insert_eq.
Qed.

End RowClaims.

(** ** Dictionaries *)



Lemma dict_get_in d k v : dict_get d k = Some v -> k ∈ dict_keys d.
Proof.
  induction d as [|[k' v'] d IH]; [done|]. simpl. unfold str_eqb.
  case_bool_decide as Hk.
  - intros _. subst. left.
  - intros H. right. by apply IH.
Qed.

Lemma dict_set_keys_present d k v v' :
  dict_get d k = Some v' -> dict_keys (dict_set d k v) = dict_keys d.
Proof.
  intros H. rewrite dict_set_keys.
  rewrite bool_decide_eq_true_2; [done|]. by eapply dict_get_in.
Qed.

Lemma dict_get_wf d k v :
  json_wf (JDict d) -> dict_get d k = Some v -> json_wf v.
Proof.
  intros [_ Hall]. induction d as [|[k' v'] d IH]; [done|].
  simpl in *. destruct Hall as [H1 H2].
  destruct (str_eqb k' k); [by intros [= <-]|by apply IH].
Qed.

(** ** Claims about the rubric and the grading adapter *)

Lemma inject_keys d cr : dict_keys (inject d cr) = dict_keys d.
Proof.
  unfold inject. destruct (criterion_key cr) as [key|]; [|done].
  destruct (dict_get d key) as [[| | | | | |c]|] eqn:Hg; try done.
  by eapply dict_set_keys_present.
Qed.

Lemma fold_inject_keys crs d :
  dict_keys (fold_left inject crs d) = dict_keys d.
Proof.
  revert d. induction crs as [|cr crs IH]; intros d; [done|].
  simpl. by rewrite IH, inject_keys.
Qed.


Section Grading.
Context `{E : Env}.

Lemma dict_get_fits d k v dp :
  json_fits (JDict d) (S dp) -> dict_get d k = Some v -> json_fits v dp.
Proof.
  rewrite json_fits_dict. intros Hall.
  induction Hall as [|[k' v'] d Hkv Hall IH]; [done|]. simpl.
  destruct (str_eqb k' k); [by intros [= <-]|done].
Qed.

Lemma inject_wf d cr :
  json_wf (JDict d) -> json_fits (JDict d) json_max_depth -> cr_wf cr ->
  json_wf (JDict (inject d cr))
  /\ json_fits (JDict (inject d cr)) json_max_depth.
Proof.
  intros Hd Hf Hcr. unfold inject.
  destruct (criterion_key cr) as [key|]; [|done].
  destruct (dict_get d key) as [[| | | | | |c]|] eqn:Hg; try done.
  destruct json_max_depth as [|dp] eqn:Edepth; [done|].
  pose proof (dict_get_fits _ _ _ _ Hf Hg) as Hc.
  destruct dp as [|dp']; [done|].
  unfold cr_wf in Hcr. rewrite Edepth in Hcr. simpl in Hcr.
  rewrite Nat.sub_0_r in Hcr.
  split.
  - apply dict_set_wf; [done|]. apply dict_set_wf.
    + apply dict_set_wf; [|done]. by eapply dict_get_wf.
    + destruct (cr_reason cr); [by destruct Hcr|done].
  - apply dict_set_fits; [done|]. apply dict_set_fits.
    + by apply dict_set_fits.
    + destruct (cr_reason cr); [by destruct Hcr|done].
Qed.

Lemma fold_inject_wf crs d :
  json_wf (JDict d) -> json_fits (JDict d) json_max_depth ->
  Forall cr_wf crs ->
  json_wf (JDict (fold_left inject crs d))
  /\ json_fits (JDict (fold_left inject crs d)) json_max_depth.
Proof.
  intros Hd Hf Hcrs. revert d Hd Hf.
  induction Hcrs as [|cr crs Hcr _ IH]; intros d Hd Hf; [done|].
  simpl. destruct (inject_wf d cr Hd Hf Hcr). by apply IH.
Qed.

Lemma parse_rubric_ok text d :
  parse_rubric text = Ok d
  <-> text <> [] /\ json_loads json_max_depth text = Loaded (JDict d).
Proof.
  unfold parse_rubric. destruct text as [|c text].
  { split; [done|by intros [? _]]. }
  destruct (json_loads json_max_depth (c :: text)) as [[| | | | | |d']| | |];
    split; try done; try (by intros [_ ?]).
  - intros [= ->]. done.
  - by intros [_ [= ->]].
Qed.

Lemma parse_rubric_dumps d :
  json_wf (JDict d) -> json_fits (JDict d) json_max_depth ->
  parse_rubric (json_dumps (JDict d)) = Ok d.
Proof.
  intros Hwf Hfit. apply parse_rubric_ok. split; [done|].
  by apply json_loads_dumps.
Qed.

(** C5 (amended). Decoding a rubric fails exactly when the text is empty,
    when it is not one JSON value (which is the case of every blank text),
    when it nests more containers than the interpreter's recursion limit
    lets [json.loads] enter, when it holds an integer literal of more
    digits than [int] accepts, or when the decoded value is not a mapping;
    a mapping is accepted whatever its values are, and a successful decode
    is the whole decoded mapping.  The recursion limit raises a
    [RecursionError] and the long integer a [ValueError] of [int], not the
    [ValueError] that [parse_rubric] makes of a [JSONDecodeError]. *)
Theorem parse_rubric_fails_iff (text : str) :
  ((exists e, parse_rubric text = Raise e)
   <-> text = []
       \/ json_loads json_max_depth text = JSONDecodeError
       \/ (exists what, json_loads json_max_depth text = RecursionLimit what)
       \/ (exists n, json_loads json_max_depth text = IntDigitsLimit n)
       \/ exists v, json_loads json_max_depth text = Loaded v /\ ~ is_dict v)
  /\ (blank text -> exists e, parse_rubric text = Raise e)
  /\ (forall d, parse_rubric text = Ok d
                <-> text <> []
                    /\ json_loads json_max_depth text = Loaded (JDict d))
  /\ (forall what, json_loads json_max_depth text = RecursionLimit what ->
        text <> [] ->
        exists msg, parse_rubric text = Raise (RecursionError msg))
  /\ (forall n, json_loads json_max_depth text = IntDigitsLimit n ->
        text <> [] ->
        (int_max_str_digits < n)%nat
        /\ exists msg, parse_rubric text = Raise (ValueError msg)).
Proof.
  assert (Hiff : (exists e, parse_rubric text = Raise e)
   <-> text = []
       \/ json_loads json_max_depth text = JSONDecodeError
       \/ (exists what, json_loads json_max_depth text = RecursionLimit what)
       \/ (exists n, json_loads json_max_depth text = IntDigitsLimit n)
       \/ exists v, json_loads json_max_depth text = Loaded v /\ ~ is_dict v).
  { unfold parse_rubric. destruct text as [|c text].
    { split; [by left|by eexists]. }
    destruct (json_loads json_max_depth (c :: text)) as [v| |what|n] eqn:El.
    - split.
      + intros [e He]. do 4 right. exists v. split; [done|].
        intros [d ->]. done.
      + intros [?|[?|[[? ?]|[[? ?]|(v' & [= <-] & Hv)]]]]; try done.
        destruct v; try by eexists. destruct Hv. by eexists.
    - split; [by right; left|by eexists].
    - split; [right; right; left; by eexists|by eexists].
    - split; [right; right; right; left; by eexists|by eexists]. }
  split; [done|]. split; [|split; [apply parse_rubric_ok|split]].
  - intros Hb. apply Hiff. right; left. by apply json_loads_blank.
  - intros what Hl Hne. unfold parse_rubric. destruct text; [done|].
    rewrite Hl. by eexists.
  - intros n Hl Hne. split.
    + revert Hl. unfold json_loads.
      destruct (scan_once _ _ _) as [v r| | | |n'] eqn:Es; try done.
      { by destruct (skip_ws r). }
      intros [= <-]. by apply (scan_too_long _) in Es.
    + unfold parse_rubric. destruct text; [done|]. rewrite Hl. by eexists.
Qed.

(** C6 (amended). The grading adapter raises exactly when the response is
    empty, when the rubric text cannot be decoded, when the grading
    collaborator itself raises (its exception propagates), or when the
    collaborator returns no per-criterion result; otherwise it returns the
    collaborator's percentage unchanged as the score, and as summary the
    printed rubric with the verdicts injected. *)
Theorem run_grading_outcomes (response rubric_json : str) (st : state) :
  let answer :=
    (run_grading_task_async (grading_request response rubric_json) (world st)).1 in
  ((exists e st', run_grading response rubric_json st = (Raise e, st'))
   <-> response = []
       \/ (exists e, parse_rubric rubric_json = Raise e)
       \/ (exists e, answer = inl e)
       \/ (exists result, answer = inr result /\ criteria_results result = []))
  /\ (forall g st',
        run_grading response rubric_json st = (Ok g, st') ->
        exists result rubric_dict,
          answer = inr result
          /\ parse_rubric rubric_json = Ok rubric_dict
          /\ score g = percentage_score result
          /\ score_summary g
             = json_dumps (JDict (fold_left inject (criteria_results result)
                                            rubric_dict))).
Proof.
  cbv zeta. unfold run_grading. fold (grading_request response rubric_json).
  destruct response as [|c resp].
  { split; [|done]. split; [by left|by eexists _, _]. }
  unfold bind, lift, call_grading, raise, ret.
  destruct (parse_rubric rubric_json) as [d|e] eqn:Ep.
  2:{ split; [|done]. split; [right; left; by eexists|by eexists _, _]. }
  destruct (run_grading_task_async _ (world st)) as [[e|res] w] eqn:Ea; simpl.
  { split; [|done]. split; [right; right; left; by eexists|by eexists _, _]. }
  destruct (criteria_results res) as [|cr crs] eqn:Ec.
  { split; [|done].
    split; [right; right; right; by eexists|by eexists _, _]. }
  split.
  - split; [by intros (? & ? & ?)|].
    intros [?|[[? ?]|[[? ?]|(? & [= <-] & ?)]]]; congruence.
  - intros g st' [= <- _]. exists res, d. by rewrite Ec.
Qed.

(** C7. A rubric that decodes, once encoded, decodes to the same mapping:
    the same keys in the same order with the same fields, numbers
    included (a float is printed with the shortest digits that read back
    as that float). The same holds after grading has injected any list of
    verdicts whose reasons can themselves be read back, and the keys are
    still those of the decoded rubric. *)
Theorem rubric_round_trip (R : str) (d : pydict) :
  parse_rubric R = Ok d ->
  parse_rubric (json_dumps (JDict d)) = Ok d
  /\ forall crs, Forall cr_wf crs ->
       parse_rubric (json_dumps (JDict (fold_left inject crs d)))
       = Ok (fold_left inject crs d)
       /\ dict_keys (fold_left inject crs d) = dict_keys d.
Proof.
  intros [_ Hd]%parse_rubric_ok. apply json_loads_wf in Hd as [Hwf Hfit].
  split.
  - by apply parse_rubric_dumps.
  - intros crs Hcrs. split; [|apply fold_inject_keys].
    destruct (fold_inject_wf crs d Hwf Hfit Hcrs). by apply parse_rubric_dumps.
Qed.

End Grading.

(** ** The header row *)

Lemma replace_char a b s :
  py_replace [a] [b] s = List.map (fun c => if c =? a then b else c) s.
Proof.
  unfold py_replace. induction s as [|c s IH]; [done|].
  simpl. rewrite andb_true_r, N.eqb_sym.
  destruct (c =? a); simpl; by rewrite IH.
Qed.

Lemma sanitize_map name : sanitize name = List.map normalize_sep name.
Proof.
  unfold sanitize.
  change (py "/") with [47]. change (py ".") with [46].
  change (py "-") with [45]. change (py "_") with [95].
  rewrite !replace_char, !List.map_map. apply map_ext. intros c.
  unfold normalize_sep.
  destruct (N.eqb_spec c 45) as [->|?]; [done|].
  destruct (N.eqb_spec c 46) as [->|?]; [done|].
  by destruct (N.eqb_spec c 47).
Qed.

Lemma safe_chars_check (l : str) :
  forallb (fun c => is_alnum c || (c =? 95)) l = true ->
  Forall (fun c => is_alnum c = true \/ c = 95) l.
Proof.
  induction l as [|c l IH]; [constructor|]. simpl.
  intros [Hc Hl]%andb_prop. constructor; [|by apply IH].
  apply orb_prop in Hc as [?|?%N.eqb_eq]; auto.
Qed.

Lemma digits_str_string (u : Decimal.uint) :
  digits_str (to_list u) = py (NilEmpty.string_of_uint u).
Proof. induction u; simpl; try done; by rewrite IHu. Qed.

(** C9. The header row of the configured models is [task_id], [domain],
    [status], then the three columns of [claude_opus_4_5_20251101], run 1,
    then the three columns of [gemini_3_pro_preview], run 1.  In general
    it is [task_id], [domain], [status], followed, for each model in list
    order and each run index counted up from 1, by the three columns
    [<model>_<run>_response], [<model>_<run>_score] and
    [<model>_<run>_score_summary], where the run index is written as a
    decimal numeral and the model identifier is sanitized character by
    character, each of the separators [-], [.] and [/] becoming one [_];
    the sanitized identifiers of the configured models contain only
    letters, digits and [_]. *)
Theorem csv_headers_layout :
  get_csv_headers
  = [py "task_id"; py "domain"; py "status";
     py "claude_opus_4_5_20251101_1_response";
     py "claude_opus_4_5_20251101_1_score";
     py "claude_opus_4_5_20251101_1_score_summary";
     py "gemini_3_pro_preview_1_response";
     py "gemini_3_pro_preview_1_score";
     py "gemini_3_pro_preview_1_score_summary"]
  /\ (forall models n,
        headers_for models n
        = [py "task_id"; py "domain"; py "status"]
          ++ flat_map (fun cfg =>
               flat_map (fun run =>
                 [sanitize (model_id cfg) ++ py "_" ++ N_repr run ++ py "_response";
                  sanitize (model_id cfg) ++ py "_" ++ N_repr run ++ py "_score";
                  sanitize (model_id cfg) ++ py "_" ++ N_repr run
                  ++ py "_score_summary"])
                 (List.map N.of_nat (seq 1 n)))
               models)
  /\ (forall n, N_repr n = py (NilEmpty.string_of_uint (N.to_uint n)))
  /\ (forall n i, (i < n)%nat -> run_range n !! i = Some (N.of_nat (S i)))
  /\ (forall n, length (run_range n) = n)
  /\ (forall name,
        sanitize name
        = List.map (fun c => if (c =? 45) || (c =? 46) || (c =? 47)
                             then 95 else c) name)
  /\ Forall (fun cfg =>
       Forall (fun c => 48 <= c <= 57 \/ 65 <= c <= 90 \/ 97 <= c <= 122
                        \/ c = 95)
              (sanitize (model_id cfg)))
       MODELS.
Proof.
  split; [|split; [|split; [|split; [|split; [|split]]]]].
  - vm_compute. reflexivity.
  - intros models n. unfold headers_for. f_equal.
    apply flat_map_ext. intros cfg. apply flat_map_ext. intros run.
    unfold prefix_of. by rewrite <- !app_assoc.
  - intros n. apply digits_str_string.
  - intros n i Hi. unfold run_range.
    by rewrite list_lookup_fmap, lookup_seq_lt.
  - intros n. unfold run_range. by rewrite length_map, length_seq.
  - apply sanitize_map.
  - apply Forall_forall. intros cfg Hin.
    assert (Hs : Forall (fun c => is_alnum c = true \/ c = 95)
                        (sanitize (model_id cfg))).
    { apply safe_chars_check. unfold MODELS in Hin.
      repeat (apply elem_of_cons in Hin as [->|Hin]; [vm_compute; reflexivity|]).
      by apply elem_of_nil in Hin. }
    eapply Forall_impl; [exact Hs|]. intros c [Hc|Hc]; [|auto].
    unfold is_alnum in Hc.
    apply orb_prop in Hc as [Hc|Hc]; [apply orb_prop in Hc as [Hc|Hc]|];
      apply andb_prop in Hc as [?%N.leb_le ?%N.leb_le]; auto.
Qed.

Lemma headers_for_layout models n :
  headers_for models n
  = [py "task_id"; py "domain"; py "status"]
    ++ flat_map (fun cfg => flat_map (pair_columns (model_id cfg)) (run_range n))
                models.
Proof.
  unfold headers_for. f_equal.
  apply flat_map_ext. intros cfg. apply flat_map_ext. intros run.
  unfold pair_columns, prefix_of. by rewrite <- !app_assoc.
Qed.

(** ** The checkpointed writer *)

Lemma with_records_nil (f : csv_file) : with_records f [] = f.
Proof.
  destruct f. unfold with_records. simpl. by rewrite andb_true_r, app_nil_r.
Qed.

Lemma with_records_cons (f : csv_file) rec rows :
  with_records (with_record f rec) rows = with_records f (rec :: rows).
Proof.
  unfold with_records, with_record. simpl. by rewrite andb_assoc, <- app_assoc.
Qed.

Lemma header_encodable : encodable get_csv_headers = true.
Proof. vm_compute. reflexivity. Qed.

Lemma header_file :
  with_record empty_file get_csv_headers
  = {| readable := true; records := [get_csv_headers] |}.
Proof. vm_compute. reflexivity. Qed.

Lemma universal_newlines_no_cr (s : str) :
  no_cr s = true -> universal_newlines s = s.
Proof.
  induction s as [|c s IH]; [done|]. simpl.
  intros [Hc Hs]%andb_prop. destruct (c =? 13); [done|]. by rewrite IH.
Qed.

Section Writer.
Context `{E : Env}.

Lemma fold_reports_fixed (ps : list pair_report) (row : gmap str value)
    (k : str) :
  k = py "status" \/ k = py "task_id" \/ k = py "domain" ->
  fold_left (fun row p => report_row p row) ps row !! k = row !! k.
Proof.
  intros Hk. apply fold_reports_frame. intros p _ Hin.
  apply pair_key_not_fixed in Hin as (? & ? & ?). by destruct Hk as [?|[?|?]].
Qed.

(** The first cell of the record written for a task is its identifier, the
    third one is its status. *)
Lemma process_task_record task_data dir (st st' : state) row :
  process_task task_data dir st = (Ok row, st') ->
  let rec := dict_writer_row get_csv_headers row in
  rec !! 0%nat = Some (cell_text (value_of_cell (task_id_of task_data)))
  /\ match setup_error task_data with
     | Some e => rec !! 2%nat = Some (py "error: " ++ take 100 (exn_msg e))
     | None => rec !! 2%nat = Some (py "completed")
     end.
Proof.
  intros Hrun.
  destruct (process_task_total task_data dir st) as (row' & st2 & evs & Hrun' & Htr & _).
  rewrite Hrun in Hrun'. injection Hrun' as <- <-.
  assert (H0 : forall r : gmap str value,
            dict_writer_row get_csv_headers r !! 0%nat
            = Some (cell_text (default (VStr []) (r !! py "task_id")))) by done.
  assert (H2 : forall r : gmap str value,
            dict_writer_row get_csv_headers r !! 2%nat
            = Some (cell_text (default (VStr []) (r !! py "status")))) by done.
  cbv zeta. rewrite H0, H2.
  destruct (process_task_cases _ _ _ _ _ _ Hrun Htr)
    as [(e & logs & -> & -> & _)|(logs & ps & -> & -> & _)].
  - rewrite lookup_insert_ne by done. rewrite lookup_insert_eq.
    unfold initial_row. rewrite lookup_insert_ne by done.
    rewrite lookup_insert_ne by done. by rewrite lookup_insert_eq.
  - rewrite lookup_insert_ne by done. rewrite lookup_insert_eq.
    rewrite fold_reports_fixed by auto.
    unfold initial_row. rewrite lookup_insert_ne by done.
    rewrite lookup_insert_ne by done. by rewrite lookup_insert_eq.
Qed.

Lemma process_task_log task_data dir (st st' : state) row evs id :
  process_task task_data dir st = (Ok row, st') ->
  trace st' = trace st ++ evs ->
  EvLog (LogProcessing id) ∈ evs -> id = task_id_of task_data.
Proof.
  intros Hrun Htr Hin.
  destruct (process_task_cases _ _ _ _ _ _ Hrun Htr)
    as [(e & logs & _ & _ & -> & Hl)|(logs & ps & _ & _ & -> & Hl & _)].
  - apply elem_of_cons in Hin as [[= ->]|Hin]; [done|].
    apply elem_of_app in Hin as [Hin|Hin].
    + rewrite Forall_forall in Hl. by destruct (Hl _ Hin).
    + by apply list_elem_of_singleton in Hin.
  - apply elem_of_cons in Hin as [[= ->]|Hin]; [done|].
    apply elem_of_app in Hin as [Hin|Hin].
    + rewrite Forall_forall in Hl. by destruct (Hl _ Hin).
    + apply list_elem_of_In, in_flat_map in Hin as (p & _ & Hin).
      unfold report_events in Hin. apply in_app_or in Hin as [Hin|Hin].
      * simpl in Hin. by destruct Hin as [?|[?|[]]].
      * destruct (pr_graded p) as [[]|]; simpl in Hin; try done;
          by destruct Hin as [?|[?|[]]].
Qed.

Lemma write_header_configured (st : state) :
  write_header get_csv_headers st
  = (Ok tt, set_out_file st {| readable := true; records := [get_csv_headers] |}).
Proof. unfold write_header. by rewrite header_encodable, header_file. Qed.

Lemma append_row_ok headers row (st : state) f :
  out_file st = Some f ->
  encodable (dict_writer_row headers row) = true ->
  append_row headers row st
  = (Ok tt, set_out_file st (with_record f (dict_writer_row headers row))).
Proof. intros Hf Henc. unfold append_row. by rewrite Hf, Henc. Qed.

Lemma append_row_fails headers row (st : state) f :
  out_file st = Some f ->
  encodable (dict_writer_row headers row) = false ->
  append_row headers row st
  = (Raise (UnicodeEncodeError (encode_error_text (dict_writer_row headers row))),
     set_out_file st f).
Proof. intros Hf Henc. unfold append_row. by rewrite Hf, Henc. Qed.

(** The task loop: one record is appended for every task that is not
    skipped, in order, until a record cannot be encoded; the skipped tasks
    are not processed. *)
Lemma task_loop_spec args existing tasks processed (st : state) f :
  out_file st = Some f ->
  exists r st' done rows evs,
    task_loop args get_csv_headers existing tasks processed st = (r, st')
    /\ out_file st' = Some (with_records f rows)
    /\ trace st' = trace st ++ evs
    /\ Forall2 (written_for args) done rows
    /\ (forall id, EvLog (LogProcessing id) ∈ evs ->
          exists t, t ∈ tasks /\ skipped args existing t = false
                    /\ task_id_of t = id)
    /\ (r = Ok (processed + length rows)%nat
        /\ done = unskipped args existing tasks
        /\ (forall t, t ∈ tasks -> skipped args existing t = true ->
              EvLog (LogSkipping (task_id_of t)) ∈ evs)
        \/ exists t rest,
             unskipped args existing tasks = done ++ t :: rest
             /\ stops_at args t r).
Proof.
  revert processed st f. induction tasks as [|t tasks IH]; intros processed st f Hf.
  - exists (Ok processed), st, [], [], []. simpl. unfold ret.
    rewrite !app_nil_r, Nat.add_0_r, with_records_nil.
    split; [done|]. split; [done|]. split; [done|]. split; [constructor|].
    split; [by intros ? ?%elem_of_nil|].
    left. repeat split; try done. by intros ? ?%elem_of_nil.
  - simpl task_loop. fold (task_id_of t). fold (skipped args existing t).
    unfold unskipped. simpl List.filter. fold (unskipped args existing tasks).
    destruct (skipped args existing t) eqn:Hsk; cbn [negb].
    + unfold bind at 1. unfold log, emit.
      match goal with
      | |- context [task_loop _ _ _ tasks processed ?s] =>
        destruct (IH processed s f Hf)
          as (r & st' & dn & rows & evs & Hl & Ho & Ht & Hr & Hp & Hc)
      end.
      rewrite Hl.
      exists r, st', dn, rows, (EvLog (LogSkipping (task_id_of t)) :: evs).
      simpl in Ht. rewrite <- app_assoc in Ht.
      split; [done|]. split; [done|]. split; [done|]. split; [done|]. split.
      * intros id [?|Hin]%elem_of_cons; [done|].
        destruct (Hp id Hin) as (t' & ? & ? & ?). exists t'.
        split; [by right|done].
      * destruct Hc as [(-> & -> & Hs)|Hstop]; [left|by right].
        repeat split; try done.
        intros t' [->|Hin]%elem_of_cons Hsk'; [by left|].
        right. by apply Hs.
    + destruct (process_task_total t (input_dir args) st)
        as (row & st1 & evs1 & Hrun & Htr1 & Hout1).
      erewrite bind_ok by exact Hrun.
      rewrite Hf in Hout1.
      destruct (encodable (dict_writer_row get_csv_headers row)) eqn:Henc.
      * erewrite bind_ok by (by apply append_row_ok).
        match goal with
        | |- context [task_loop _ _ _ tasks (S processed) ?s] =>
          destruct (IH (S processed) s _ eq_refl)
            as (r & st' & dn & rows & evs & Hl & Ho & Ht & Hr & Hp & Hc)
        end.
        rewrite Hl.
        exists r, st', (t :: dn), (dict_writer_row get_csv_headers row :: rows),
               (evs1 ++ evs).
        rewrite with_records_cons in Ho.
        cbn [set_out_file trace] in Ht. rewrite Htr1, <- app_assoc in Ht.
        split; [done|]. split; [done|]. split; [done|]. split; [|split].
        -- constructor; [|done]. by exists st, st1, row.
        -- intros id [Hin|Hin]%elem_of_app.
           ++ exists t. split; [by left|]. split; [done|].
              symmetry. by eapply process_task_log.
           ++ destruct (Hp id Hin) as (t' & ? & ? & ?). exists t'.
              split; [by right|done].
        -- destruct Hc as [(-> & -> & Hs)|(t' & rest & Hun & Hstop)].
           ++ left. split; [simpl; f_equal; lia|]. split; [done|].
              intros t' [->|Hin]%elem_of_cons Hsk'; [congruence|].
              apply elem_of_app. right. by apply Hs.
           ++ right. exists t', rest. by rewrite Hun.
      * erewrite bind_raise by (by apply append_row_fails).
        eexists _, _, [], [], evs1.
        split; [reflexivity|]. rewrite with_records_nil.
        split; [done|]. split; [done|]. split; [constructor|]. split.
        -- intros id Hin. exists t. split; [by left|]. split; [done|].
           symmetry. by eapply process_task_log.
        -- right. exists t, (unskipped args existing tasks).
           split; [done|]. by exists st, st1, row.
Qed.

Lemma main_unfold args recs (st : state) :
  main args (Some (Ok recs)) st
  = bind (task_loop args get_csv_headers (existing_index args st)
                    (selected_tasks args recs) 0)
         (fun processed => log (LogDone processed (output args)))
         (loop_start args recs st).
Proof.
  unfold main.
  assert (Hex : (if resume args then load_existing_results else ret ∅) st
                = (Ok (existing_index args st), st)).
  { unfold existing_index, load_existing_results, ret.
    destruct (resume args); [|done].
    destruct (out_file st) as [f|]; [|done]. by destruct (readable f). }
  erewrite bind_ok by exact Hex.
  unfold bind at 1. unfold lift at 1. fold (selected_tasks args recs).
  unfold bind at 1. unfold log at 1. unfold emit.
  unfold bind at 1. unfold output_exists.
  cbn [world trace result_row out_file].
  unfold loop_start, kept_file.
  destruct (resume args); cbn [negb orb].
  - destruct (out_file st) as [f|] eqn:Hf.
    + rewrite bool_decide_eq_true_2 by by eexists.
      cbn [negb]. unfold bind at 1. unfold ret at 1. done.
    + rewrite bool_decide_eq_false_2 by by intros [? ?].
      cbn [negb]. erewrite bind_ok by apply write_header_configured. done.
  - erewrite bind_ok by apply write_header_configured. done.
Qed.

Lemma main_unreadable_input args e (st : state) :
  main args (Some (Raise e)) st = (Raise e, st).
Proof.
  unfold main.
  assert (Hex : (if resume args then load_existing_results else ret ∅) st
                = (Ok (existing_index args st), st)).
  { unfold existing_index, load_existing_results, ret.
    destruct (resume args); [|done].
    destruct (out_file st) as [f|]; [|done]. by destruct (readable f). }
  erewrite bind_ok by exact Hex. done.
Qed.

Lemma main_run_spec args recs (st : state) :
  exists r st' done rows evs,
    main args (Some (Ok recs)) st = (r, st')
    /\ out_file st'
       = Some (file_after (kept_file args st) get_csv_headers rows)
    /\ trace st'
       = trace st
         ++ EvLog (LogProcessingCount (length (selected_tasks args recs)))
         :: evs
         ++ match r with
            | Ok _ => [EvLog (LogDone (length rows) (output args))]
            | Raise _ => []
            end
    /\ Forall2 (written_for args) done rows
    /\ (forall id, EvLog (LogProcessing id) ∈ evs ->
          exists t, t ∈ selected_tasks args recs
                    /\ skipped args (existing_index args st) t = false
                    /\ task_id_of t = id)
    /\ (r = Ok tt
        /\ done = unskipped args (existing_index args st)
                            (selected_tasks args recs)
        /\ (forall t, t ∈ selected_tasks args recs ->
              skipped args (existing_index args st) t = true ->
              EvLog (LogSkipping (task_id_of t)) ∈ evs)
        \/ exists t rest,
             unskipped args (existing_index args st) (selected_tasks args recs)
             = done ++ t :: rest
             /\ stops_at args t r).
Proof.
  rewrite main_unfold.
  destruct (task_loop_spec args (existing_index args st)
              (selected_tasks args recs) 0 (loop_start args recs st) _ eq_refl)
    as (r & st' & dn & rows & evs & Hl & Ho & Ht & Hr & Hp & Hc).
  destruct Hc as [(-> & -> & Hs)|(t & rest & Hun & st0 & st1 & row & Hrun & Henc & ->)].
  - erewrite bind_ok by exact Hl. unfold log, emit.
    eexists (Ok tt), _, _, rows, evs. split; [done|]. cbn [trace out_file].
    split; [exact Ho|]. split.
    { rewrite Ht. unfold loop_start. cbn [trace]. by rewrite <- !app_assoc. }
    split; [done|]. split; [done|]. by left.
  - erewrite bind_raise by exact Hl.
    eexists (Raise _), st', dn, rows, evs. split; [done|].
    split; [exact Ho|]. split.
    { rewrite Ht. unfold loop_start. cbn [trace].
      by rewrite app_nil_r, <- !app_assoc. }
    split; [done|]. split; [done|]. right. exists t, rest.
    split; [done|]. by exists st0, st1, row.
Qed.

Lemma task_loop_all_skipped args headers existing tasks processed (st : state) :
  Forall (fun t => skipped args existing t = true) tasks ->
  task_loop args headers existing tasks processed st
  = (Ok processed,
     add_trace st (List.map (fun t => EvLog (LogSkipping (task_id_of t))) tasks)).
Proof.
  intros Hall. revert st. induction Hall as [|t ts Ht _ IH]; intros st.
  - simpl. unfold ret. by rewrite add_trace_nil.
  - simpl. unfold skipped, task_id_of in Ht. rewrite Ht.
    unfold bind, log, emit. rewrite IH. unfold add_trace. simpl.
    by rewrite <- app_assoc.
Qed.

End Writer.

Section Main.
Context `{E : Env}.

Lemma index_fold_keeps (rows : list (gmap str cell))
    (d : gmap str (gmap str cell)) (tid : str) :
  is_Some (d !! tid) ->
  is_Some (fold_left
    (fun d row =>
       match row !! py "task_id" with
       | Some (Some (c :: s)) => <[c :: s := row]> d
       | _ => d
       end) rows d !! tid).
Proof.
  revert d. induction rows as [|r rows IH]; intros d Hd; [done|].
  simpl. apply IH.
  destruct (r !! py "task_id") as [[[|c s]|]|]; try done.
  destruct (decide (c :: s = tid)) as [->|Hne].
  - rewrite lookup_insert_eq. by eexists.
  - by rewrite lookup_insert_ne.
Qed.

(** Every non-empty [task_id] of the existing records is in the index,
    whatever the rest of its record says. *)
Lemma index_by_task_id_in (rows : list (gmap str cell)) (old : gmap str cell)
    (tid : str) :
  old ∈ rows -> old !! py "task_id" = Some (Some tid) -> tid <> [] ->
  is_Some (index_by_task_id rows !! tid).
Proof.
  unfold index_by_task_id. generalize (∅ : gmap str (gmap str cell)).
  induction rows as [|r rows IH]; intros d Hin Hid Hne.
  { by apply elem_of_nil in Hin. }
  apply elem_of_cons in Hin as [<-|Hin].
  - simpl. rewrite Hid. destruct tid as [|c s]; [done|].
    apply index_fold_keeps. rewrite lookup_insert_eq. by eexists.
  - simpl. by apply IH.
Qed.

Lemma filter_all {A} (P : A -> bool) (l : list A) :
  (forall x, P x = true) -> List.filter P l = l.
Proof.
  intros H. induction l as [|x l IH]; [done|]. simpl. by rewrite H, IH.
Qed.

Lemma unskipped_fresh args existing tasks :
  resume args = false -> unskipped args existing tasks = tasks.
Proof.
  intros Hres. apply filter_all. intros t. unfold skipped. by rewrite Hres.
Qed.

Lemma unskipped_in args existing tasks t :
  t ∈ unskipped args existing tasks ->
  t ∈ tasks /\ skipped args existing t = false.
Proof.
  intros [Hin Ht]%list_elem_of_In%filter_In. split; [by apply list_elem_of_In|].
  by destruct (skipped args existing t).
Qed.

(** C1. On a fresh run (no resume) [main] writes the header and then one
    record per selected input task, in input order, for as long as the
    records can be encoded.  The record of a task starts with its
    identifier; when the [try] block of [process_task] raises an exception
    [e] (outside the per-pair handling), the record is still written and
    its status cell is "error: " followed by the first 100 characters of
    [str(e)]; when the block ends normally the status cell is "completed".
    The run ends normally with a record for every selected task, or it
    stops at the first task whose record holds a character that UTF-8
    cannot encode: the write raises [UnicodeEncodeError], which [main]
    lets through, and neither that task nor a later one gets a record. *)
Theorem fresh_run_emits_one_row_per_task
    (args : arguments) (recs : list (list str)) (st : state) :
  resume args = false ->
  exists r st' done rows,
    main args (Some (Ok recs)) st = (r, st')
    /\ out_file st'
       = Some {| readable :=
                   forallb (fun rec => within_limit (read_back rec)) rows;
                 records := get_csv_headers :: List.map read_back rows |}
    /\ Forall2
         (fun task_data rec =>
            exists (st0 st1 : state) row,
              process_task task_data (input_dir args) st0 = (Ok row, st1)
              /\ rec = dict_writer_row get_csv_headers row
              /\ encodable rec = true
              /\ rec !! 0%nat
                 = Some (cell_text (value_of_cell (task_id_of task_data)))
              /\ (forall e sb,
                    assemble MODELS NUMBER_OF_RUNS task_data (input_dir args)
                             (begin_task st0 task_data) = (Raise e, sb) ->
                    rec !! 2%nat
                    = Some (py "error: " ++ take 100 (exn_msg e)))
              /\ (forall sb,
                    assemble MODELS NUMBER_OF_RUNS task_data (input_dir args)
                             (begin_task st0 task_data) = (Ok tt, sb) ->
                    rec !! 2%nat = Some (py "completed")))
         done rows
    /\ (r = Ok tt /\ done = selected_tasks args recs
        \/ exists t rest (st0 st1 : state) row,
             selected_tasks args recs = done ++ t :: rest
             /\ process_task t (input_dir args) st0 = (Ok row, st1)
             /\ encodable (dict_writer_row get_csv_headers row) = false
             /\ r = Raise (UnicodeEncodeError
                             (encode_error_text
                                (dict_writer_row get_csv_headers row)))).
Proof.
  intros Hres.
  destruct (main_run_spec args recs st)
    as (r & st' & dn & rows & evs & Hm & Ho & _ & Hr & _ & Hc).
  exists r, st', dn, rows. split; [done|]. split.
  { rewrite Ho. unfold file_after, kept_file. by rewrite Hres. }
  split.
  - eapply Forall2_impl; [exact Hr|].
    intros t rec (st0 & st1 & row & Hrun & -> & Henc).
    exists st0, st1, row. split; [done|]. split; [done|]. split; [done|].
    destruct (process_task_record _ _ _ _ _ Hrun) as [H0 H2].
    split; [done|].
    pose proof (assemble_outcome MODELS NUMBER_OF_RUNS t (input_dir args)
                  (begin_task st0 t)) as Ha.
    destruct (setup_error t) as [e'|]; destruct Ha as [sb' Ha]; split.
    + intros e sb Hraise. rewrite Ha in Hraise. by injection Hraise as <- _.
    + intros sb Hok. rewrite Ha in Hok. done.
    + intros e sb Hraise. rewrite Ha in Hraise. done.
    + done.
  - rewrite unskipped_fresh in Hc by done.
    destruct Hc as [(-> & -> & _)|(t & rest & Hun & st0 & st1 & row & ? & ? & ->)];
      [by left|right].
    by exists t, rest, st0, st1, row.
Qed.

(** C10. On a resume run over an output file that can be read, a task
    whose identifier is the non-empty [task_id] of some existing record is
    skipped, whatever the status (or any other cell) of that record:
    [process_task] is not started for it and no record written by the run
    carries its identifier; when the run reaches its end a skip was logged
    for every selected task with that identifier.  The run ends normally,
    or it stops at a task with another identifier whose record cannot be
    encoded. *)
Theorem resume_skips_recorded_tasks
    (args : arguments) (recs : list (list str)) (st : state)
    (f : csv_file) (old : gmap str cell) (tid : str) :
  resume args = true ->
  out_file st = Some f ->
  readable f = true ->
  old ∈ dict_reader (records f) ->
  old !! py "task_id" = Some (Some tid) ->
  tid <> [] ->
  exists r st' rows evs,
    main args (Some (Ok recs)) st = (r, st')
    /\ trace st' = trace st ++ evs
    /\ out_file st'
       = Some {| readable :=
                   forallb (fun rec => within_limit (read_back rec)) rows;
                 records := records f ++ List.map read_back rows |}
    /\ (EvLog (LogProcessing (Some tid)) ∉ evs)
    /\ Forall (fun rec : list str => rec !! 0%nat <> Some tid) rows
    /\ (r = Ok tt
        /\ (forall t, t ∈ selected_tasks args recs -> task_id_of t = Some tid ->
              EvLog (LogSkipping (Some tid)) ∈ evs)
        \/ exists t (st0 st1 : state) row,
             t ∈ selected_tasks args recs
             /\ task_id_of t <> Some tid
             /\ process_task t (input_dir args) st0 = (Ok row, st1)
             /\ encodable (dict_writer_row get_csv_headers row) = false
             /\ r = Raise (UnicodeEncodeError
                             (encode_error_text
                                (dict_writer_row get_csv_headers row)))).
Proof.
  intros Hres Hf Hread Hold Hid Hne.
  destruct (main_run_spec args recs st)
    as (r & st' & dn & rows & evs & Hm & Ho & Ht & Hr & Hp & Hc).
  assert (Hidx : existing_index args st
                 = index_by_task_id (dict_reader (records f))).
  { unfold existing_index. by rewrite Hres, Hf, Hread. }
  rewrite Hidx in *. set (existing := index_by_task_id (dict_reader (records f))) in *.
  assert (Hex : is_Some (existing !! tid)) by by eapply index_by_task_id_in.
  assert (Hskip : forall t, task_id_of t = Some tid -> skipped args existing t = true).
  { intros t Ht'. unfold skipped, task_in. rewrite Hres, Ht'. simpl.
    by apply bool_decide_eq_true_2. }
  assert (Hdn : forall t, t ∈ dn ->
            t ∈ selected_tasks args recs /\ task_id_of t <> Some tid).
  { intros t Hin.
    assert (Hu : t ∈ unskipped args existing (selected_tasks args recs)).
    { destruct Hc as [(_ & <- & _)|(t' & rest & -> & _)]; [done|].
      apply elem_of_app. by left. }
    apply unskipped_in in Hu as [? Hns]. split; [done|].
    intros Ht'. by rewrite Hskip in Hns. }
  eexists r, st', rows, _. split; [done|]. split; [exact Ht|]. split.
  { rewrite Ho. unfold file_after, kept_file. rewrite Hres, Hf.
    unfold with_records, base_file. by rewrite Hread. }
  split; [|split].
  - intros [?|Hin]%elem_of_cons; [done|].
    apply elem_of_app in Hin as [Hin|Hin].
    + destruct (Hp _ Hin) as (t & _ & Hns & Ht').
      rewrite Hskip in Hns by done. done.
    + destruct r; [|by apply elem_of_nil in Hin].
      by apply list_elem_of_singleton in Hin.
  - apply Forall_forall. intros rec [i Hi]%list_elem_of_lookup_1.
    destruct (Forall2_lookup_r _ _ _ _ _ Hr Hi)
      as (t & Hti & st0 & st1 & row & Hrun & -> & _).
    destruct (process_task_record _ _ _ _ _ Hrun) as [H0 _].
    cbv zeta in H0. rewrite H0.
    destruct (Hdn t) as [_ Hnt]; [by eapply list_elem_of_lookup_2|].
    destruct (task_id_of t) as [s|] eqn:Et; simpl; intros [= Heq].
    + by rewrite Heq in Hnt.
    + by rewrite <- Heq in Hne.
  - destruct Hc as [(-> & _ & Hs)|(t & rest & Hun & st0 & st1 & row & Hrun & Henc & ->)].
    + left. split; [done|]. intros t Hin Ht'. right. apply elem_of_app. left.
      rewrite <- Ht'. apply Hs; [done|by apply Hskip].
    + right. exists t, st0, st1, row.
      assert (Hu : t ∈ unskipped args existing (selected_tasks args recs)).
      { rewrite Hun. apply elem_of_app. right. by left. }
      apply unskipped_in in Hu as [? Hns]. split; [done|]. split; [|done].
      intros Ht'. by rewrite Hskip in Hns.
Qed.

End Main.

(** ** The scenarios of the specification, and inputs on which the
    theorems above apply *)

(** Membership in an explicit list. *)
Ltac in_list :=
  repeat first [apply list_elem_of_here | apply list_elem_of_further].

(** The events of a run that starts with an empty trace. *)
Ltac run_events Hrun Htr :=
  match type of Hrun with
  | ?run = (_, ?st') =>
    match type of Htr with
    | _ = _ ++ ?evs =>
      let H := fresh in
      assert (H : evs = trace (run.2)) by (rewrite Hrun; exact (eq_sym Htr));
      rewrite H; vm_compute; in_list
    end
  end.

Example scenario_T1 :
  match process_task task_T1 (py "/data") (start world_ok None) with
  | (Ok row, _) =>
    row !! (prefix_of opus 1 ++ py "_score") = Some (VFloat (FNum false 7036874417766400 (-46)))
    /\ row !! (prefix_of opus 1 ++ py "_score_summary")
       = Some (VStr (pyq "{'c1': {'description': 'x', 'autorating': true, 'reason': 'ok'}}"))
    /\ row !! py "status" = Some (VStr (py "completed"))
  | _ => False
  end.
Proof. vm_compute. repeat split. Qed.

Example scenario_T4 :
  match process_task task_T4 (py "/data") (start world_ok None) with
  | (Ok row, _) =>
    row !! (prefix_of opus 1 ++ py "_score") = None
    /\ row !! (prefix_of opus 1 ++ py "_score_summary") = None
    /\ row !! (prefix_of opus 1 ++ py "_response") = Some (VStr (py "ans"))
    /\ row !! py "status" = Some (VStr (py "completed"))
  | _ => False
  end.
Proof. vm_compute. repeat split. Qed.

Lemma fresh_run_witness :
  resume fresh_args = false
  /\ exists st' rows,
       main fresh_args (Some (Ok sample_input)) (start world_ok None)
       = (Ok tt, st')
       /\ out_file st'
          = Some {| readable :=
                      forallb (fun rec => within_limit (read_back rec)) rows;
                    records := get_csv_headers :: List.map read_back rows |}
       /\ length rows = 2%nat.
Proof.
  split; [reflexivity|].
  destruct (fresh_run_emits_one_row_per_task fresh_args sample_input
              (start world_ok None) eq_refl)
    as (r & st' & dn & rows & Hm & Ho & Hr & Hc).
  assert (H1 : (main fresh_args (Some (Ok sample_input))
                     (start world_ok None)).1 = Ok tt)
    by (vm_compute; reflexivity).
  rewrite Hm in H1. simpl in H1. subst r.
  destruct Hc as [[_ ->]|(? & ? & ? & ? & ? & _ & _ & _ & ?)]; [|discriminate].
  exists st', rows. split; [exact Hm|]. split; [exact Ho|].
  apply Forall2_length in Hr. rewrite <- Hr. vm_compute. reflexivity.
Defined.

Lemma failed_generation_witness :
  length long_message = 127%nat
  /\ match process_task task_T1 (py "/data") (start world_long_failure None) with
     | (Ok row, _) =>
       row !! (prefix_of gemini 1 ++ py "_score") = Some (VInt 0)
       /\ row !! (prefix_of gemini 1 ++ py "_score_summary")
          = Some (VStr (py "Generation failed: connection reset by peer while streaming the response from the upstream model provider; retry budget"))
     | _ => False
     end.
Proof.
  split; [reflexivity|].
  destruct (process_task_total task_T1 (py "/data") (start world_long_failure None))
    as (row & st' & evs & Hrun & Htr & _).
  rewrite Hrun.
  destruct (failed_generation_is_recorded_and_isolated
              task_T1 (py "/data") (start world_long_failure None) st' row
              evs gemini 1 (failed_gen long_message) Hrun Htr)
    as (Hscore & (msg & Hmsg & Hsum) & _).
  - run_events Hrun Htr.
  - reflexivity.
  - split; [exact Hscore|]. injection Hmsg as <-. exact Hsum.
Defined.

Lemma grading_error_witness :
  match process_task task_T4 (py "/data") (start world_ok None) with
  | (Ok row, _) =>
    row !! (prefix_of opus 1 ++ py "_score") = None
    /\ row !! py "status" = Some (VStr (py "completed"))
  | _ => False
  end.
Proof.
  destruct (process_task_total task_T4 (py "/data") (start world_ok None))
    as (row & st' & evs & Hrun & Htr & _).
  rewrite Hrun.
  destruct (grading_error_leaves_score_absent
              task_T4 (py "/data") (start world_ok None) st' row
              evs opus 1
              (ValueError (py "Failed to parse rubric JSON: Expecting value"))
              Hrun Htr)
    as (Hscore & _ & _ & _ & Hst & _).
  - run_events Hrun Htr.
  - split; [exact Hscore|exact Hst].
Defined.

Lemma rubric_round_trip_witness :
  parse_rubric (pyq "{'c1': {'description': 'x', 'weight': 0.1, 'type': 'must'}}")
  = Ok [(py "c1", JDict [(py "description", JStr (py "x"));
                         (py "weight", JFloat (FNum false 7205759403792794 (-56)));
                         (py "type", JStr (py "must"))])]
  /\ json_dumps (JDict [(py "c1", JDict [(py "description", JStr (py "x"));
                         (py "weight", JFloat (FNum false 7205759403792794 (-56)));
                         (py "type", JStr (py "must"))])])
     = pyq "{'c1': {'description': 'x', 'weight': 0.1, 'type': 'must'}}"
  /\ parse_rubric
       (json_dumps
          (JDict [(py "c1", JDict [(py "description", JStr (py "x"));
                         (py "weight", JFloat (FNum false 7205759403792794 (-56)));
                         (py "type", JStr (py "must"))])]))
     = Ok [(py "c1", JDict [(py "description", JStr (py "x"));
                         (py "weight", JFloat (FNum false 7205759403792794 (-56)));
                         (py "type", JStr (py "must"))])].
Proof.
  assert (H : parse_rubric (pyq "{'c1': {'description': 'x', 'weight': 0.1, 'type': 'must'}}")
              = Ok [(py "c1", JDict [(py "description", JStr (py "x"));
                         (py "weight", JFloat (FNum false 7205759403792794 (-56)));
                         (py "type", JStr (py "must"))])])
    by (vm_compute; reflexivity).
  split; [exact H|]. split; [vm_compute; reflexivity|].
  exact (proj1 (rubric_round_trip _ _ H)).
Defined.

Lemma ungraded_pair_witness :
  match process_task task_T2 (py "/data") (start world_ok None) with
  | (Ok row, _) =>
    row !! (prefix_of opus 1 ++ py "_score") = Some (VInt 0)
    /\ row !! (prefix_of opus 1 ++ py "_score_summary")
       = Some (VStr (py "No rubric or empty response"))
  | _ => False
  end.
Proof.
  destruct (process_task_total task_T2 (py "/data") (start world_ok None))
    as (row & st' & evs & Hrun & Htr & _).
  rewrite Hrun.
  apply (ungraded_pair_scores_zero
           task_T2 (py "/data") (start world_ok None) st' row
           evs opus 1 (good_gen (py "ans")) Hrun Htr).
  - run_events Hrun Htr.
  - reflexivity.
  - left. vm_compute. reflexivity.
Defined.

Lemma resume_skips_witness :
  exists r st' rows evs,
    main resume_args (Some (Ok sample_input))
         (start world_ok (Some earlier_output)) = (r, st')
    /\ trace st' = evs
    /\ out_file st'
       = Some {| readable :=
                   forallb (fun rec => within_limit (read_back rec)) rows;
                 records := records earlier_output ++ List.map read_back rows |}
    /\ (EvLog (LogProcessing (Some (py "T1"))) ∉ evs)
    /\ Forall (fun rec : list str => rec !! 0%nat <> Some (py "T1")) rows.
Proof.
  destruct (resume_skips_recorded_tasks resume_args sample_input
              (start world_ok (Some earlier_output)) earlier_output
              earlier_T1 (py "T1"))
    as (r & st' & rows & evs & Hm & Ht & Ho & Hp & Hrows & _).
  - reflexivity.
  - reflexivity.
  - reflexivity.
  - apply list_elem_of_here.
  - vm_compute. reflexivity.
  - discriminate.
  - exists r, st', rows, evs. split; [exact Hm|]. split; [exact Ht|].
    split; [exact Ho|]. split; [exact Hp|exact Hrows].
Defined.

(** C1, as stated, fails: on a fresh run over two tasks in which the first
    response is a lone surrogate, T1 is processed but the write of its
    record raises; [main] ends with that error and the output file holds
    the header only, no record for T1 and none for T2. *)
Lemma unencodable_row_is_not_written :
  resume fresh_args = false
  /\ List.map task_id_of (selected_tasks fresh_args sample_input)
     = [Some (py "T1"); Some (py "T2")]
  /\ (main fresh_args (Some (Ok sample_input)) (start world_surrogate None)).1
     = Raise (UnicodeEncodeError (py "surrogates not allowed"))
  /\ out_file (main fresh_args (Some (Ok sample_input))
                    (start world_surrogate None)).2
     = Some {| readable := true; records := [get_csv_headers] |}
  /\ EvLog (LogProcessing (Some (py "T1")))
     ∈ trace (main fresh_args (Some (Ok sample_input))
                   (start world_surrogate None)).2.
Proof.
  split; [reflexivity|]. split; [vm_compute; reflexivity|].
  split; [vm_compute; reflexivity|]. split; [vm_compute; reflexivity|].
  vm_compute. in_list.
Qed.

(** C10, as stated, fails: a first run writes a record for T1 whose
    response is one character over the field limit of the [csv] module;
    the output file then holds a record with [task_id] T1 and status
    "completed", but reading it raises, the index of a resumed run is
    empty, and T1 is processed again and gets a second record. *)
Lemma unreadable_output_is_processed_again :
  (main fresh_args (Some (Ok sample_input)) (start world_long_response None)).1
  = Ok tt
  /\ (f ← out_file (main fresh_args (Some (Ok sample_input))
                         (start world_long_response None)).2;
      old ← dict_reader (records f) !! 0%nat;
      old !! py "task_id") = Some (Some (py "T1"))
  /\ (f ← out_file (main fresh_args (Some (Ok sample_input))
                         (start world_long_response None)).2;
      old ← dict_reader (records f) !! 0%nat;
      old !! py "status") = Some (Some (py "completed"))
  /\ (f ← out_file (main fresh_args (Some (Ok sample_input))
                         (start world_long_response None)).2;
      old ← dict_reader (records f) !! 0%nat;
      (fun s => N.of_nat (length s))
        <$> default None (old !! py "claude_opus_4_5_20251101_1_response"))
     = Some 131073
  /\ resume resume_args = true
  /\ (main resume_args (Some (Ok sample_input))
           (start world_ok
              (out_file (main fresh_args (Some (Ok sample_input))
                              (start world_long_response None)).2))).1
     = Ok tt
  /\ EvLog (LogProcessing (Some (py "T1")))
     ∈ trace (main resume_args (Some (Ok sample_input))
                (start world_ok
                   (out_file (main fresh_args (Some (Ok sample_input))
                                   (start world_long_response None)).2))).2
  /\ (f ← out_file (main resume_args (Some (Ok sample_input))
                (start world_ok
                   (out_file (main fresh_args (Some (Ok sample_input))
                                   (start world_long_response None)).2))).2;
      Some (List.map (fun rec => rec !! 0%nat) (records f)))
     = Some [Some (py "task_id"); Some (py "T1"); Some (py "T2");
             Some (py "T1"); Some (py "T2")].
Proof.
  split; [vm_compute; reflexivity|].
  split; [vm_compute; reflexivity|].
  split; [vm_compute; reflexivity|].
  split; [vm_compute; reflexivity|].
  split; [reflexivity|].
  split; [vm_compute; reflexivity|].
  split; [vm_compute; in_list|].
  vm_compute; reflexivity.
Qed.

(** C5, as stated, fails: a mapping whose value is a scalar is decoded. *)
Lemma parse_rubric_accepts_scalar_values :
  parse_rubric (pyq "{'a': 1}") = Ok [(py "a", JInt 1)]
  /\ ~ is_dict (JInt 1).
Proof. split; [vm_compute; reflexivity|]. by intros [d Hd]. Qed.

(** The other ways [parse_rubric] fails, here in an interpreter that lets
    [json.loads] enter 900 nested containers: a text nested deeper than
    that, and an integer literal of more than 4300 digits. *)
Example parse_rubric_too_deep :
  parse_rubric (repeat 91 901)
  = Raise (RecursionError
             (py "maximum recursion depth exceeded while decoding a JSON array from a unicode string")).
Proof. vm_compute. reflexivity. Qed.

Example parse_rubric_long_integer :
  parse_rubric (repeat 49 4301)
  = Raise (ValueError
             (py "Exceeds the limit (4300 digits) for integer string conversion: value has 4301 digits; use sys.set_int_max_str_digits() to increase the limit")).
Proof. vm_compute. reflexivity. Qed.

(** Number literals are rounded to binary64 when they are read: out of
    range they become infinities and zeros, and [json.dumps] prints the
    rounded values. *)
Example parse_rubric_rounds_floats :
  parse_rubric (pyq "{'a': 1e400, 'b': -1e-400, 'c': 0.1, 'd': 9007199254740993.0}")
  = Ok [(py "a", JFloat (FInf false)); (py "b", JFloat (FZero true));
        (py "c", JFloat (FNum false 7205759403792794 (-56)));
        (py "d", JFloat (FNum false 4503599627370496 1))]
  /\ json_dumps (JDict [(py "a", JFloat (FInf false)); (py "b", JFloat (FZero true));
        (py "c", JFloat (FNum false 7205759403792794 (-56)));
        (py "d", JFloat (FNum false 4503599627370496 1))])
     = pyq "{'a': Infinity, 'b': -0.0, 'c': 0.1, 'd': 9007199254740992.0}".
Proof. split; vm_compute; reflexivity. Qed.

(** C6, as stated, fails: with a non-empty response, a rubric that decodes
    and a collaborator that returns no result at all because it raises,
    the grading adapter raises the collaborator's exception. *)
Lemma run_grading_collaborator_error :
  run_grading (py "ans") sample_rubric (start world_timeout None)
  = (Raise timeout_error, start ([], []) None)
  /\ py "ans" <> []
  /\ parse_rubric sample_rubric
     = Ok [(py "c1", JDict [(py "description", JStr (py "x"))])]
  /\ (run_grading_task_async (grading_request (py "ans") sample_rubric)
        world_timeout).1 = inl timeout_error.
Proof. repeat split; try (vm_compute; reflexivity). discriminate. Qed.

(** C8, as stated, fails: a response made of one space is blank, yet it is
    graded and the row holds the collaborator's score, not 0. *)
Lemma blank_response_is_graded :
  match process_task task_T1 (py "/data") (start world_blank None) with
  | (Ok row, st') =>
    EvGenerated opus 1 (good_gen (py " ")) ∈ trace st'
    /\ blank (py " ")
    /\ row !! (prefix_of opus 1 ++ py "_score")
       = Some (VFloat (FNum false 7036874417766400 (-46)))
    /\ row !! (prefix_of opus 1 ++ py "_score") <> Some (VInt 0)
  | _ => False
  end.
Proof.
  vm_compute. split; [in_list|]. split; [by repeat constructor|].
  split; [reflexivity|discriminate].
Qed.

(** * Further properties of the pipeline *)

(** ** [sanitize] *)

(** X1. [sanitize] keeps the length of a name, leaves none of the separators
    [-], [.], [/] in it, does nothing to a name without separators, and
    does nothing when applied twice; two names that differ only in which
    separator they use get the same sanitized form. *)
Theorem sanitize_facts (name : str) :
  length (sanitize name) = length name
  /\ Forall (fun c => is_separator c = false) (sanitize name)
  /\ (Forall (fun c => is_separator c = false) name -> sanitize name = name)
  /\ sanitize (sanitize name) = sanitize name
  /\ (forall a b, sanitize (a ++ py "-" ++ b) = sanitize (a ++ py "." ++ b)
                  /\ sanitize (a ++ py "-" ++ b) = sanitize (a ++ py "/" ++ b)).
Proof.
  assert (Hclean : forall s, Forall (fun c => is_separator c = false) s ->
                     List.map normalize_sep s = s).
  { intros s Hs. induction Hs as [|c s Hc _ IH]; [done|]. simpl.
    rewrite IH. f_equal. unfold normalize_sep.
    unfold is_separator in Hc. by rewrite Hc. }
  assert (Hsep : forall s, Forall (fun c => is_separator c = false)
                                  (List.map normalize_sep s)).
  { intros s. induction s as [|c s IH]; constructor; [|done].
    unfold normalize_sep, is_separator.
    destruct (N.eqb_spec c 45) as [->|?]; [done|].
    destruct (N.eqb_spec c 46) as [->|?]; [done|].
    destruct (N.eqb_spec c 47) as [->|?]; [done|]. simpl.
    destruct (N.eqb_spec c 45); [done|]. destruct (N.eqb_spec c 46); [done|].
    by destruct (N.eqb_spec c 47). }
  rewrite !sanitize_map. split; [apply length_map|]. split; [apply Hsep|].
  split; [apply Hclean|]. split; [apply Hclean, Hsep|].
  intros a b. rewrite !sanitize_map, !map_app. done.
Qed.

(** ** [run_generation] *)

Section Generation.
Context `{E : Env}.

(** X2. [run_generation] never raises and calls the generation collaborator
    exactly once, with one model, one run and the attachments (or [None]
    when there are none); only the world changes.  It reports success
    exactly when the collaborator returned a first result marked
    successful, then with that result's response and no error; otherwise
    the response is empty and the error is the exception's text, the first
    result's error message ("Unknown" when absent) or "No results". *)
Theorem run_generation_normalizes prompt cfg atts (st : state) :
  let call := run_generation_task_async
                (generation_request prompt cfg atts) (world st) in
  exists gen,
    run_generation prompt cfg atts st = (Ok gen, set_world st call.2)
    /\ match call.1 with
       | inl e =>
         gen = {| success := false; response := []; error := Some (exn_msg e) |}
       | inr result =>
         match results result with
         | [] => gen = {| success := false; response := [];
                          error := Some (py "No results") |}
         | item :: _ =>
           if gi_success item
           then success gen = true /\ error gen = None
                /\ response gen = default [] (gi_response item)
           else success gen = false /\ response gen = []
                /\ error gen = Some (default (py "Unknown") (gi_error_message item))
         end
       end.
Proof.
  intros call. unfold run_generation, bind, call_generation.
  fold (generation_request prompt cfg atts). subst call.
  destruct (run_generation_task_async _ _) as [[e|res] w]; simpl.
  - eexists; split; [reflexivity|done].
  - destruct (results res) as [|item rest]; simpl.
    + eexists; split; [reflexivity|done].
    + destruct (gi_success item); eexists; (split; [reflexivity|done]).
Qed.

End Generation.

(** ** [create_attachments] *)

Section Attachments.
Context `{E : Env}.

Lemma attach_each_filter dir (raw : list str) atts (st : state) :
  let paths := List.filter (fun p => match p with [] => false | _ => true end)
                           (List.map strip raw) in
  attach_each dir raw atts st
  = (Ok (atts ++ List.map (attachment_of dir)
                   (List.filter (fun p => path_exists (path_join dir p)) paths)),
     add_trace st
       (List.map (fun p => EvLog (LogFileNotFound (path_join dir p)))
          (List.filter (fun p => negb (path_exists (path_join dir p))) paths))).
Proof.
  revert atts st. induction raw as [|p raw IH]; intros atts st; simpl.
  - rewrite app_nil_r. unfold ret. by rewrite add_trace_nil.
  - destruct (strip p) as [|c s] eqn:Hp; [apply IH|]. simpl.
    destruct (path_exists (path_join dir (c :: s))) eqn:Hex; simpl.
    + rewrite IH. by rewrite <- app_assoc.
    + unfold bind, log, emit. simpl. rewrite IH. f_equal.
      unfold add_trace. simpl. f_equal. by rewrite <- app_assoc.
Qed.

(** X3. [create_attachments] on a text never fails: it returns one attachment
    for each listed path (the lines of the stripped text, stripped, the
    empty ones dropped) that exists under the base directory, in the order
    of the text, and logs one warning for each listed path that does not
    exist, also in order; nothing else changes.  On [None] it raises an
    [AttributeError] and changes nothing. *)
Theorem create_attachments_lists_existing_files dir (st : state) :
  (forall files,
     create_attachments (Some files) dir st
     = (Ok (List.map (attachment_of dir)
              (List.filter (fun p => path_exists (path_join dir p))
                           (listed_paths files))),
        add_trace st
          (List.map (fun p => EvLog (LogFileNotFound (path_join dir p)))
             (List.filter (fun p => negb (path_exists (path_join dir p)))
                          (listed_paths files)))))
  /\ exists msg, create_attachments None dir st = (Raise (AttributeError msg), st).
Proof.
  split.
  - intros files. unfold create_attachments, bind, lift. simpl.
    by rewrite attach_each_filter.
  - eexists. reflexivity.
Qed.

End Attachments.

(** ** [load_existing_results] *)

Lemma index_fold_last (rows : list (gmap str cell))
    (d : gmap str (gmap str cell)) (tid : str) :
  tid <> [] ->
  fold_left
    (fun d row =>
       match row !! py "task_id" with
       | Some (Some (c :: s)) => <[c :: s := row]> d
       | _ => d
       end) rows d !! tid
  = match last (records_of_task tid rows) with
    | Some r => Some r
    | None => d !! tid
    end.
Proof.
  intros Htid. revert d. induction rows as [|r rows IH]; intros d; [done|].
  simpl. rewrite IH. unfold records_of_task in *. simpl.
  destruct (r !! py "task_id") as [[[|c s]|]|] eqn:Hr.
  - rewrite bool_decide_eq_false_2 by congruence. done.
  - destruct (decide (c :: s = tid)) as [<-|Hne].
    + rewrite bool_decide_eq_true_2 by done.
      destruct (List.filter _ rows) as [|r' l] eqn:Hf.
      * simpl. by rewrite lookup_insert_eq.
      * change (last (r :: r' :: l)) with (last (r' :: l)).
        destruct (last (r' :: l)) eqn:Hl; [done|]. by apply last_None in Hl.
    + rewrite bool_decide_eq_false_2 by congruence.
      destruct (last _); [done|]. by rewrite lookup_insert_ne.
  - rewrite bool_decide_eq_false_2 by congruence. done.
  - rewrite bool_decide_eq_false_2 by congruence. done.
Qed.

Lemma index_fold_no_empty (rows : list (gmap str cell))
    (d : gmap str (gmap str cell)) :
  d !! ([] : str) = None ->
  fold_left
    (fun d row =>
       match row !! py "task_id" with
       | Some (Some (c :: s)) => <[c :: s := row]> d
       | _ => d
       end) rows d !! ([] : str) = None.
Proof.
  revert d. induction rows as [|r rows IH]; intros d Hd; [done|].
  simpl. apply IH. destruct (r !! py "task_id") as [[[|c s]|]|]; try done.
  by rewrite lookup_insert_ne.
Qed.

Section Existing.
Context `{E : Env}.

(** X4. [load_existing_results] never raises and changes nothing.  The index
    is empty when the output file is missing or cannot be read; otherwise
    a non-empty task id is mapped to the last record of the file with that
    [task_id] (a later record replaces an earlier one), ids without a
    record are absent, and the empty id is never a key. *)
Theorem load_existing_results_last_record_wins (st : state) :
  exists idx,
    load_existing_results st = (Ok idx, st)
    /\ match out_file st with
       | None => idx = ∅
       | Some f =>
         if readable f
         then (forall tid : str, tid <> [] ->
                 idx !! tid = last (records_of_task tid (dict_reader (records f))))
              /\ idx !! ([] : str) = None
         else idx = ∅
       end.
Proof.
  unfold load_existing_results.
  destruct (out_file st) as [f|]; [|by eexists].
  destruct (readable f); [|by eexists].
  eexists; split; [reflexivity|]. split.
  - intros tid Htid. unfold index_by_task_id.
    rewrite index_fold_last by done. by destruct (last _).
  - by apply index_fold_no_empty.
Qed.

End Existing.

(** X5. A task whose [Task ID] cell is empty or [None] is never taken as done:
    whatever the output file holds, the resume check does not skip it. *)
Theorem task_without_id_is_never_skipped (args : arguments)
    (rows : list (gmap str cell)) (task_data : gmap str cell) :
  task_id_of task_data = None \/ task_id_of task_data = Some [] ->
  skipped args (index_by_task_id rows) task_data = false.
Proof.
  intros Hid. unfold skipped. apply andb_false_iff. right.
  destruct Hid as [-> | ->]; [done|]. simpl.
  apply bool_decide_eq_false_2. unfold index_by_task_id.
  rewrite index_fold_no_empty by done. by intros [? ?].
Qed.

(** ** [main] *)

Lemma fold_insert_other {K V} `{Countable K} (l : list (K * V))
    (d : gmap K V) (k : K) :
  k ∉ List.map fst l ->
  fold_left (fun d kv => <[kv.1 := kv.2]> d) l d !! k = d !! k.
Proof.
  revert d. induction l as [|[k' v] l IH]; intros d Hk; [done|].
  simpl in *. apply not_elem_of_cons in Hk as [Hne Hk].
  rewrite IH by done. by rewrite lookup_insert_ne.
Qed.

Lemma zip_fill_keys (ks vs : list str) : List.map fst (zip_fill ks vs) = ks.
Proof.
  revert vs. induction ks as [|k ks IH]; intros vs; [done|].
  destruct vs as [|v vs]; simpl; by rewrite IH.
Qed.

Lemma row_dict_first (k : str) (ks : list str) (rec : list str) (v : str) :
  k ∉ ks -> rec !! 0%nat = Some v ->
  row_dict (k :: ks) rec !! k = Some (Some v).
Proof.
  intros Hk Hv. destruct rec as [|v' vs]; [done|]. injection Hv as ->.
  unfold row_dict. simpl. rewrite fold_insert_other.
  - by rewrite lookup_insert_eq.
  - by rewrite zip_fill_keys.
Qed.

Lemma task_id_column_once :
  exists ks, get_csv_headers = py "task_id" :: ks /\ py "task_id" ∉ ks.
Proof.
  eexists. split; [reflexivity|].
  intros Hin. apply list_elem_of_In in Hin. vm_compute in Hin.
  repeat (destruct Hin as [Hin|Hin]; [discriminate Hin|]). exact Hin.
Qed.

Section MainProperties.
Context `{E : Env}.

(** X6. [main] fails in three cases only.  When the input file does not
    exist it logs the error and exits with status 1; when the input file
    cannot be read to the end, the exception of the read comes out of
    [main]; in both cases the output file is as it was and nothing else
    was logged.  When the record of a selected task cannot be encoded, the
    [UnicodeEncodeError] of the write comes out of [main].  Otherwise
    [main] runs to the end, whatever the tasks, the collaborators and the
    output file are. *)
Theorem main_outcomes args input (st : state) :
  match input with
  | None =>
    main args input st
    = (Raise (SystemExit (py "1")),
       add_trace st [EvLog (LogInputNotFound (input_csv_path args))])
  | Some (Raise e) => main args input st = (Raise e, st)
  | Some (Ok recs) =>
    exists r st',
      main args input st = (r, st')
      /\ (r = Ok tt
          \/ exists t (st0 st1 : state) row,
               t ∈ selected_tasks args recs
               /\ process_task t (input_dir args) st0 = (Ok row, st1)
               /\ encodable (dict_writer_row get_csv_headers row) = false
               /\ r = Raise (UnicodeEncodeError
                               (encode_error_text
                                  (dict_writer_row get_csv_headers row))))
  end.
Proof.
  destruct input as [[recs|e]|]; [|apply main_unreadable_input|done].
  destruct (main_run_spec args recs st)
    as (r & st' & dn & rows & evs & Hm & _ & _ & _ & _ & Hc).
  exists r, st'. split; [done|].
  destruct Hc as [(-> & _)|(t & rest & Hun & st0 & st1 & row & Hrun & Henc & ->)];
    [by left|right].
  exists t, st0, st1, row. split; [|done].
  assert (Hu : t ∈ unskipped args (existing_index args st)
                             (selected_tasks args recs)).
  { rewrite Hun. apply elem_of_app. right. by left. }
  by apply unskipped_in in Hu as [? _].
Qed.

(** X7. After [main] the output file is the file it started from (the
    existing file when resuming and there is one, a new file holding the
    header otherwise) followed by one record for each of the first
    selected tasks that the resume check does not skip, in input order;
    the file holds each record as it is read back, and it can be read as
    long as the file it started from can and no field is over the limit.
    Each record written has one cell per header column, starts with the
    task's id and can be encoded.  Either every such task has its record,
    [main] ends normally and the number of tasks logged at the end is the
    number of records written, or [main] stops with the error of the first
    record that cannot be encoded, and the records are those of the tasks
    before it. *)
Theorem main_appends_records_in_input_order args recs (st : state) :
  exists r st' done rows,
    main args (Some (Ok recs)) st = (r, st')
    /\ out_file st'
       = Some {| readable :=
                   readable (base_file (kept_file args st) get_csv_headers)
                   && forallb (fun rec => within_limit (read_back rec)) rows;
                 records :=
                   records (base_file (kept_file args st) get_csv_headers)
                   ++ List.map read_back rows |}
    /\ Forall2 (fun task_data rec =>
                  rec !! 0%nat
                  = Some (cell_text (value_of_cell (task_id_of task_data)))
                  /\ length rec = length get_csv_headers
                  /\ encodable rec = true)
               done rows
    /\ (r = Ok tt
        /\ done = List.filter
                    (fun t => negb (skipped args (existing_index args st) t))
                    (selected_tasks args recs)
        /\ last (trace st') = Some (EvLog (LogDone (length rows) (output args)))
        \/ exists t rest (st0 st1 : state) row,
             List.filter
               (fun t => negb (skipped args (existing_index args st) t))
               (selected_tasks args recs)
             = done ++ t :: rest
             /\ process_task t (input_dir args) st0 = (Ok row, st1)
             /\ encodable (dict_writer_row get_csv_headers row) = false
             /\ r = Raise (UnicodeEncodeError
                             (encode_error_text
                                (dict_writer_row get_csv_headers row)))).
Proof.
  destruct (main_run_spec args recs st)
    as (r & st' & dn & rows & evs & Hm & Ho & Ht & Hr & _ & Hc).
  exists r, st', dn, rows. split; [done|]. split; [done|]. split.
  - eapply Forall2_impl; [exact Hr|].
    intros t rec (st0 & st1 & row & Hrun & -> & Henc).
    destruct (process_task_record _ _ _ _ _ Hrun) as [H0 _].
    split; [exact H0|]. split; [|done]. unfold dict_writer_row. apply length_map.
  - destruct Hc as [(-> & -> & _)|(t & rest & Hun & st0 & st1 & row & ? & ? & ->)].
    + left. split; [done|]. split; [done|]. rewrite Ht.
      change (?a :: ?l ++ ?b) with ((a :: l) ++ b).
      rewrite app_assoc. apply last_snoc.
    + right. by exists t, rest, st0, st1, row.
Qed.

(** X8. A run with [--resume] over the output of a complete run on the same
    input, when that output can be read back (no field over the limit) and
    every selected task has a non-empty id without a carriage return (as
    the cells read from the input file are), processes nothing: every task
    is logged as skipped, no collaborator is called, and the output file
    is left as it was. *)
Theorem resume_after_complete_run_adds_nothing
    args recs (st st1 st1' : state) (f1 : csv_file) :
  resume args = false ->
  forallb has_task_id (selected_tasks args recs) = true ->
  main args (Some (Ok recs)) st = (Ok tt, st1) ->
  out_file st1 = Some f1 ->
  readable f1 = true ->
  out_file st1' = out_file st1 ->
  exists st2,
    main (with_resume args) (Some (Ok recs)) st1' = (Ok tt, st2)
    /\ out_file st2 = out_file st1
    /\ world st2 = world st1'
    /\ trace st2
       = trace st1'
         ++ EvLog (LogProcessingCount (length (selected_tasks args recs)))
         :: List.map (fun t => EvLog (LogSkipping (task_id_of t)))
                     (selected_tasks args recs)
         ++ [EvLog (LogDone 0 (output args))].
Proof.
  intros Hres Hids Hrun Hf1 Hread Hout.
  destruct (main_run_spec args recs st)
    as (r & st1_ & dn & rows & evs & Hm & Ho & _ & Hr & _ & Hc).
  rewrite Hrun in Hm. injection Hm as <- <-.
  destruct Hc as [(_ & -> & _)|(? & ? & _ & ? & ? & ? & _ & _ & ?)]; [|done].
  rewrite unskipped_fresh in Hr by done.
  unfold kept_file, file_after in Ho. rewrite Hres in Ho.
  rewrite Hf1 in Ho. injection Ho as ->.
  rewrite main_unfold.
  change (selected_tasks (with_resume args) recs) with (selected_tasks args recs).
  assert (Hidx : existing_index (with_resume args) st1'
                 = index_by_task_id
                     (dict_reader (get_csv_headers :: List.map read_back rows))).
  { unfold existing_index. simpl. by rewrite Hout, Hf1, Hread. }
  rewrite Hidx.
  assert (Hall : Forall (fun t => skipped (with_resume args)
                                   (index_by_task_id
                                      (dict_reader
                                         (get_csv_headers :: List.map read_back rows)))
                                   t = true)
                        (selected_tasks args recs)).
  { apply Forall_forall. intros t Hin.
    rewrite forallb_forall in Hids.
    pose proof (Hids t (proj1 (list_elem_of_In _ _) Hin)) as Hid.
    unfold has_task_id in Hid.
    destruct (task_id_of t) as [[|c s]|] eqn:Et; try discriminate.
    apply list_elem_of_lookup_1 in Hin as [i Hi].
    destruct (Forall2_lookup_l _ _ _ _ _ Hr Hi)
      as (rec & Hrec & st0 & st0' & row & Hp & -> & _).
    destruct (process_task_record _ _ _ _ _ Hp) as [H0 _].
    cbv zeta in H0. rewrite Et in H0. cbn [value_of_cell cell_text] in H0.
    assert (H0' : read_back (dict_writer_row get_csv_headers row) !! 0%nat
                  = Some (c :: s)).
    { unfold read_back. rewrite list_lookup_fmap, H0.
      cbn [fmap option_fmap option_map].
      by rewrite universal_newlines_no_cr. }
    unfold skipped, task_in. rewrite Et. simpl.
    apply bool_decide_eq_true_2.
    destruct task_id_column_once as (ks & Hks & Hnot).
    eapply index_by_task_id_in; [| |discriminate].
    + unfold dict_reader. apply list_elem_of_In, in_map, filter_In. split.
      * apply list_elem_of_In. eapply list_elem_of_lookup_2.
        rewrite list_lookup_fmap, Hrec. reflexivity.
      * by destruct (read_back _).
    + rewrite Hks at 1. apply row_dict_first; [done|]. exact H0'. }
  erewrite bind_ok by exact (task_loop_all_skipped _ _ _ _ _ _ Hall).
  unfold log, emit. eexists. split; [reflexivity|].
  cbn [out_file world trace add_trace loop_start].
  unfold kept_file. simpl. rewrite Hout, Hf1. simpl.
  split; [done|]. split; [done|]. by rewrite <- !app_assoc.
Qed.

End MainProperties.

(** ** The task window *)

(** X9. With a non-negative start index and a non-negative limit, the tasks
    [main] selects are the at most [limit] tasks that follow the first
    [start_index] ones, in the order of the input file; without a limit,
    all the tasks from [start_index] on. *)
Theorem selected_tasks_window (args : arguments) (recs : list (list str)) :
  (0 <= start_index args)%Z ->
  match limit args with
  | Some lim =>
    (0 <= lim)%Z ->
    selected_tasks args recs
    = take (Z.to_nat lim) (drop (Z.to_nat (start_index args)) (dict_reader recs))
  | None =>
    selected_tasks args recs = drop (Z.to_nat (start_index args)) (dict_reader recs)
  end.
Proof.
  intros Hs. unfold selected_tasks, py_slice, clamp_index.
  set (tasks := dict_reader recs). set (start := start_index args) in *.
  destruct (Z.ltb_spec start 0) as [?|_]; [lia|].
  destruct (limit args) as [lim|].
  - intros Hl.
    destruct (Z.ltb_spec (Z.min (start + lim) (Z.of_nat (length tasks))) 0)
      as [?|_]; [lia|].
    destruct (Z_le_gt_dec (Z.of_nat (length tasks)) start) as [Hge|Hlt].
    + rewrite (drop_ge tasks (Z.to_nat start)) by lia.
      rewrite (drop_ge tasks) by lia. by rewrite !take_nil.
    + replace (Z.min start (Z.of_nat (length tasks))) with start by lia.
      destruct (Z_le_gt_dec lim (Z.of_nat (length tasks) - start)) as [Hin|Hout].
      * f_equal. lia.
      * rewrite !take_ge; [done| |]; rewrite length_drop; lia.
  - destruct (Z.ltb_spec (Z.of_nat (length tasks)) 0) as [?|_]; [lia|].
    destruct (Z_le_gt_dec (Z.of_nat (length tasks)) start) as [Hge|Hlt].
    + rewrite (drop_ge tasks (Z.to_nat start)) by lia.
      rewrite (drop_ge tasks) by lia. by rewrite take_nil.
    + rewrite take_ge; [f_equal; lia|]. rewrite length_drop. lia.
Qed.

(** ** The row of a task *)

Lemma report_row_dom (p : pair_report) (row : gmap str value) (k : str) :
  is_Some (report_row p row !! k) ->
  is_Some (row !! k) \/ k ∈ pair_keys (report_prefix p).
Proof.
  unfold report_row, report_prefix, pair_keys.
  set (prefix := prefix_of (pr_model p) (pr_run p)).
  assert (Hins : forall (k' : str) v (m : gmap str value),
             is_Some (<[k' := v]> m !! k) -> k = k' \/ is_Some (m !! k)).
  { intros k' v m Hs. destruct (decide (k' = k)) as [->|Hne]; [by left|].
    right. by rewrite lookup_insert_ne in Hs. }
  intros Hs.
  destruct (negb (success (pr_gen p))); [|destruct (pr_graded p) as [[g|e]|]];
    repeat (apply Hins in Hs as [->|Hs]; [right; in_list|]); by left.
Qed.

Lemma fold_reports_dom (ps : list pair_report) (row : gmap str value) (k : str) :
  is_Some (fold_left (fun row p => report_row p row) ps row !! k) ->
  is_Some (row !! k) \/ exists p, p ∈ ps /\ k ∈ pair_keys (report_prefix p).
Proof.
  revert row. induction ps as [|p ps IH]; intros row Hs; [by left|].
  simpl in Hs. apply IH in Hs as [Hs|(q & Hq & Hk)].
  - apply report_row_dom in Hs as [Hs|Hs]; [by left|].
    right. exists p. split; [apply list_elem_of_here|done].
  - right. exists q. split; [by apply list_elem_of_further|done].
Qed.

Lemma pair_keys_in_headers (models : list model_cfg) (n : nat)
    (id : str * N) (k : str) :
  id ∈ List.map pair_id (all_pairs models n) ->
  k ∈ pair_keys (id_prefix id) ->
  k ∈ headers_for models n.
Proof.
  intros Hid Hk. unfold headers_for. apply elem_of_app. right.
  apply list_elem_of_In in Hid. apply in_map_iff in Hid as ([cfg run] & <- & Hin).
  unfold all_pairs in Hin. apply in_flat_map in Hin as (cfg' & Hcfg & Hrun).
  apply in_map_iff in Hrun as (run' & [= <- <-] & Hrun).
  apply list_elem_of_In, in_flat_map. exists cfg'. split; [done|].
  apply in_flat_map. exists run'. split; [done|].
  apply list_elem_of_In. exact Hk.
Qed.

Section RowShape.
Context `{E : Env}.

(** X10. [process_task] always returns a row, and leaves the output file to its
    caller.  The row holds the task's id and domain, a status that is
    either "completed" or an error text (never "pending"), and no key
    outside the header columns, so that writing it drops nothing. *)
Theorem process_task_row_fits_header task_data dir (st : state) :
  exists row st',
    process_task task_data dir st = (Ok row, st')
    /\ out_file st' = out_file st
    /\ (forall k : str, is_Some (row !! k) -> k ∈ get_csv_headers)
    /\ row !! py "task_id" = Some (value_of_cell (task_id_of task_data))
    /\ row !! py "domain"
       = Some (value_of_cell (get_cell task_data (py "Domain") []))
    /\ (row !! py "status" = Some (VStr (py "completed"))
        \/ exists e, row !! py "status"
                     = Some (VStr (py "error: " ++ take 100 (exn_msg e)))).
Proof.
  destruct (process_task_total task_data dir st)
    as (row & st' & evs & Hrun & Htr & Hout).
  exists row, st'. split; [done|]. split; [done|].
  assert (Hinit : forall k : str, is_Some (initial_row task_data !! k) ->
            k ∈ get_csv_headers).
  { intros k. unfold initial_row.
    destruct (decide (k = py "status")) as [->|H1]; [intros _; in_list|].
    rewrite lookup_insert_ne by done.
    destruct (decide (k = py "domain")) as [->|H2]; [intros _; in_list|].
    rewrite lookup_insert_ne by done.
    destruct (decide (k = py "task_id")) as [->|H3]; [intros _; in_list|].
    rewrite lookup_insert_ne by done. rewrite lookup_empty. by intros [? ?]. }
  destruct (process_task_cases _ _ _ _ _ _ Hrun Htr)
    as [(e & logs & He & -> & _)|(logs & ps & He & -> & _ & _ & Hids & _)].
  - split; [|split; [|split]].
    + intros k. destruct (decide (k = py "status")) as [->|H1]; [intros _; in_list|].
      rewrite lookup_insert_ne by done. apply Hinit.
    + done.
    + done.
    + right. exists e. by rewrite lookup_insert_eq.
  - split; [|split; [|split]].
    + intros k. destruct (decide (k = py "status")) as [->|H1]; [intros _; in_list|].
      rewrite lookup_insert_ne by done.
      intros [Hs|(p & Hp & Hk)]%fold_reports_dom; [by apply Hinit|].
      apply (pair_keys_in_headers MODELS NUMBER_OF_RUNS (report_id p)); [|done].
      rewrite <- Hids. by apply list_elem_of_fmap_2.
    + rewrite lookup_insert_ne by done. by rewrite fold_reports_fixed by auto.
    + rewrite lookup_insert_ne by done. by rewrite fold_reports_fixed by auto.
    + left. by rewrite lookup_insert_eq.
Qed.

(** X11. A task in which one of the cells [File Attachments], [Rubric JSON],
    [Domain] or [Prompt] is [None] (a record shorter than the header)
    costs nothing: no collaborator is called, the world is unchanged, and
    the row holds the id, the domain and an error status only. *)
Theorem task_with_missing_cell_calls_nothing task_data dir (st : state) :
  task_data !! py "File Attachments" = Some None
  \/ task_data !! py "Rubric JSON" = Some None
  \/ task_data !! py "Domain" = Some None
  \/ task_data !! py "Prompt" = Some None ->
  exists e st' evs,
    process_task task_data dir st
    = (Ok (<[py "status" := VStr (py "error: " ++ take 100 (exn_msg e))]>
             (initial_row task_data)), st')
    /\ world st' = world st
    /\ out_file st' = out_file st
    /\ trace st' = trace st ++ evs
    /\ generated_pairs evs = []
    /\ last evs = Some (EvLog (LogTaskFailed (task_id_of task_data) e)).
Proof.
  intros Hnone.
  assert (He : exists e, setup_error task_data = Some e).
  { unfold setup_error, get_cell.
    destruct Hnone as [H|[H|[H|H]]]; rewrite H;
      repeat match goal with
             | |- context [match ?d !! ?k with _ => _ end] =>
               destruct (d !! k) as [[?|]|]
             end; by eexists. }
  destruct He as [e He].
  destruct (process_task_with_raise MODELS NUMBER_OF_RUNS task_data dir st e He)
    as (logs & Hrun & Hlogs).
  cbv zeta in Hrun. exists e. eexists _, _.
  split; [exact Hrun|]. cbn [world out_file trace].
  split; [done|]. split; [done|]. split; [done|]. split.
  - change (?a :: ?l ++ ?b) with ((a :: l) ++ b).
    rewrite generated_pairs_app. simpl. rewrite app_nil_r.
    by apply generated_pairs_logs.
  - change (?a :: ?l ++ ?b) with ((a :: l) ++ b). apply last_snoc.
Qed.

End RowShape.

(** ** [run_grading] and the collaborator *)

Section GradingCalls.
Context `{E : Env}.

(** X12. [run_grading] calls the grading collaborator only after both checks
    have passed: with an empty response or a rubric text that
    [parse_rubric] rejects it raises and the state, the world included, is
    what it was; otherwise the collaborator is called exactly once, with
    the response and the rubric text as given, and only the world
    changes. *)
Theorem run_grading_checks_before_calling response rubric_json (st : state) :
  match response, parse_rubric rubric_json with
  | _ :: _, Ok _ =>
    exists r,
      run_grading response rubric_json st
      = (r, set_world st
              (run_grading_task_async
                 (grading_request response rubric_json) (world st)).2)
  | [], _ =>
    run_grading response rubric_json st
    = (Raise (ValueError (py "Empty model response for grading")), st)
  | _ :: _, Raise e => run_grading response rubric_json st = (Raise e, st)
  end.
Proof.
  destruct response as [|c s]; [done|].
  unfold run_grading, bind, lift.
  destruct (parse_rubric rubric_json) as [d|e]; [|done].
  unfold call_grading. fold (grading_request (c :: s) rubric_json).
  destruct (run_grading_task_async _ _) as [[e|res] w]; simpl.
  - by eexists.
  - destruct (criteria_results res); by eexists.
Qed.

End GradingCalls.

(** ** [format_prompt] *)

Lemma replace_from_skip (old new l b : str) :
  replace_from old new (length l) (l ++ b) = replace_from old new 0 b.
Proof. induction l as [|c l IH]; [done|]. simpl. exact IH. Qed.

Lemma replace_from_prefix (h : N) (old' new a x : str) :
  h ∉ a ->
  replace_from (h :: old') new 0 (a ++ x)
  = a ++ replace_from (h :: old') new 0 x.
Proof.
  induction a as [|c a IH]; intros Ha; [done|].
  apply not_elem_of_cons in Ha as [Hne Ha].
  cbn [app replace_from starts_with].
  rewrite (proj2 (N.eqb_neq h c)) by done. cbn [andb].
  by rewrite IH.
Qed.

Lemma replace_from_no_match (old new : str) (c : N) (s : str) :
  starts_with old (c :: s) = false ->
  replace_from old new 0 (c :: s) = c :: replace_from old new 0 s.
Proof. intros Hs. cbn [replace_from]. by rewrite Hs. Qed.

Lemma starts_with_app (old b : str) : starts_with old (old ++ b) = true.
Proof.
  induction old as [|c old IH]; [done|]. simpl. by rewrite N.eqb_refl, IH.
Qed.

Lemma replace_from_occurrence (h : N) (old' new a b : str) :
  h ∉ a ->
  replace_from (h :: old') new 0 (a ++ (h :: old') ++ b)
  = a ++ new ++ replace_from (h :: old') new 0 b.
Proof.
  intros Ha. rewrite replace_from_prefix by done. f_equal.
  change ((h :: old') ++ b) with (h :: (old' ++ b)).
  cbn [replace_from].
  change (h :: old' ++ b) with ((h :: old') ++ b).
  rewrite starts_with_app. f_equal.
  replace (length (h :: old') - 1)%nat with (length old') by (simpl; lia).
  apply replace_from_skip.
Qed.

Section Prompt.
Context `{E : Env}.

(** X13. When the template is some text, the domain placeholder, some text, the
    prompt placeholder and some text, and neither these texts nor the
    domain contain an opening brace, [format_prompt] puts the domain and the
    task prompt in the place of their placeholders; the task prompt is
    inserted as it is, whatever it contains. *)
Theorem format_prompt_fills_placeholders (a b c domain task_prompt : str) :
  PROMPT_TEMPLATE = a ++ py "{{Domain}}" ++ b ++ py "{{Prompt}}" ++ c ->
  123 ∉ a -> 123 ∉ b -> 123 ∉ c -> 123 ∉ domain ->
  format_prompt (Some domain) (Some task_prompt)
  = Ok (a ++ domain ++ b ++ task_prompt ++ c).
Proof.
  intros Ht Ha Hb Hc Hd. unfold format_prompt, py_replace. rewrite Ht.
  f_equal.
  change (py "{{Domain}}") with (123 :: py "{Domain}}").
  rewrite replace_from_occurrence by done.
  rewrite replace_from_prefix by done.
  assert (Hkeep : replace_from (123 :: py "{Domain}}") domain 0
                    (py "{{Prompt}}" ++ c)
                  = py "{{Prompt}}" ++ c).
  { change (py "{{Prompt}}" ++ c)
      with (123 :: 123 :: 80 :: 114 :: 111 :: 109 :: 112 :: 116 :: 125 :: 125 :: c).
    change (py "{Domain}}") with [123; 68; 111; 109; 97; 105; 110; 125; 125].
    do 10 (rewrite replace_from_no_match by (vm_compute; reflexivity)).
    do 10 f_equal.
    rewrite <- (app_nil_r c) at 1. rewrite replace_from_prefix by done.
    by rewrite app_nil_r. }
  rewrite Hkeep.
  change (py "{{Prompt}}") with (123 :: py "{Prompt}}").
  rewrite (app_assoc a), (app_assoc (a ++ domain)).
  rewrite replace_from_occurrence.
  - rewrite <- (app_nil_r c) at 1. rewrite replace_from_prefix by done.
    simpl. by rewrite app_nil_r, <- !app_assoc.
  - rewrite !not_elem_of_app. done.
Qed.

End Prompt.

(** ** From the collaborator's verdicts to the row *)

Section Summary.
Context `{E : Env}.

Lemma run_grading_ok_inv resp rub (st st' : state) g :
  run_grading resp rub st = (Ok g, st') ->
  exists d result,
    parse_rubric rub = Ok d
    /\ (run_grading_task_async (grading_request resp rub) (world st)).1
       = inr result
    /\ score g = percentage_score result
    /\ score_summary g
       = json_dumps (JDict (fold_left inject (criteria_results result) d)).
Proof.
  unfold run_grading. destruct resp as [|c resp]; [done|].
  unfold bind, lift, call_grading, raise, ret.
  fold (grading_request (c :: resp) rub).
  destruct (parse_rubric rub) as [d|e]; [|done].
  destruct (run_grading_task_async _ (world st)) as [[e|res] w]; [done|].
  simpl. destruct (criteria_results res) as [|cr crs] eqn:Ec; [done|].
  intros [= <- _]. exists d, res. by rewrite Ec.
Qed.

Lemma process_pair_graded fp rub atts cfg n run (st : state) :
  exists p w,
    process_pair fp rub atts cfg n run st
    = (Ok tt, advance st w n [p])
    /\ report_id p = (model_id cfg, run)
    /\ report_ok rub p /\ report_graded rub p.
Proof.
  unfold process_pair, bind, log, emit, advance.
  set (st1 := {| world := world st; trace := trace st ++ [EvLog (LogRun (model_id cfg) run n)];
                 result_row := result_row st; out_file := out_file st |}).
  destruct (run_generation_spec fp cfg atts st1) as (gen & w & Hg & Hfail).
  rewrite Hg. unfold row_set. simpl.
  destruct (success gen) eqn:Es; simpl.
  - destruct rub as [|c rub].
    { exists {| pr_model := model_id cfg; pr_run := run; pr_gen := gen; pr_graded := None |}, w.
      unfold report_events, report_row, report_ok, report_graded.
      simpl. rewrite Es. simpl.
      rewrite ?app_nil_r, <- ?app_assoc. repeat split; try done;
        try (by intros [? ?]); by intros (? & ? & ?). }
    destruct (response gen) as [|c' resp] eqn:Er.
    { exists {| pr_model := model_id cfg; pr_run := run; pr_gen := gen; pr_graded := None |}, w.
      unfold report_events, report_row, report_ok, report_graded.
      simpl. rewrite Es, Er. simpl.
      rewrite ?app_nil_r, <- ?app_assoc. repeat split; try done;
        try (by intros [? ?]); by intros (? & ? & ?). }
    unfold attempt.
    match goal with
    | |- context [run_grading ?a ?b ?s] =>
      destruct (run_grading_frame a b s) as (r & w' & Hr); rewrite Hr
    end.
    exists {| pr_model := model_id cfg; pr_run := run; pr_gen := gen; pr_graded := Some r |}, w'.
    unfold report_events, report_row, report_ok, report_graded.
    simpl. rewrite Es, Er. simpl.
    destruct r as [g|e]; simpl; rewrite ?app_nil_r, <- ?app_assoc;
      repeat split; try done; by eexists _, _.
  - exists {| pr_model := model_id cfg; pr_run := run; pr_gen := gen; pr_graded := None |}, w.
    unfold report_events, report_row, report_ok, report_graded.
    simpl. rewrite Es. simpl.
    rewrite ?app_nil_r, <- ?app_assoc. repeat split; try done;
      try (by intros [? ?]); try (by intros (? & ? & ?)); by apply Hfail.
Qed.

Lemma for_each_reports_with {A} (l : list A) (body : A -> M unit)
    (ids : A -> list (str * N)) (P : pair_report -> Prop) n :
  (forall x st, exists ps w,
      body x st = (Ok tt, advance st w n ps)
      /\ List.map report_id ps = ids x /\ Forall P ps) ->
  forall st, exists ps w,
      for_each l body st = (Ok tt, advance st w n ps)
      /\ List.map report_id ps = flat_map ids l /\ Forall P ps.
Proof.
  intros Hbody. induction l as [|x l IH]; intros st.
  - exists [], (world st). by rewrite advance_nil.
  - destruct (Hbody x st) as (ps1 & w1 & H1 & Hid1 & Hok1).
    destruct (IH (advance st w1 n ps1)) as (ps2 & w2 & H2 & Hid2 & Hok2).
    exists (ps1 ++ ps2), w2. simpl. unfold bind. rewrite H1, H2, advance_advance.
    split; [done|]. split; [|by apply Forall_app].
    by rewrite map_app, Hid1, Hid2.
Qed.

Lemma pairs_loop_graded fp rub atts models n (st : state) :
  exists ps w,
    for_each models (fun cfg =>
      for_each (run_range n) (process_pair fp rub atts cfg n)) st
    = (Ok tt, advance st w n ps)
    /\ List.map report_id ps = List.map pair_id (all_pairs models n)
    /\ Forall (fun p => report_ok rub p /\ report_graded rub p) ps.
Proof.
  destruct (for_each_reports_with models
              (fun cfg => for_each (run_range n) (process_pair fp rub atts cfg n))
              (fun cfg => List.map (fun run => (model_id cfg, run)) (run_range n))
              (fun p => report_ok rub p /\ report_graded rub p) n)
    with (st := st) as (ps & w & H & Hid & Hok).
  - intros cfg st0.
    destruct (for_each_reports_with (run_range n) (process_pair fp rub atts cfg n)
                (fun run => [(model_id cfg, run)])
                (fun p => report_ok rub p /\ report_graded rub p) n)
      with (st := st0) as (ps & w & H & Hid & Hok).
    + intros run st1.
      destruct (process_pair_graded fp rub atts cfg n run st1)
        as (p & w & H & Hid & Hok & Hgr).
      exists [p], w. split; [done|]. split; [simpl; by rewrite Hid|].
      apply Forall_cons. split; [done|apply Forall_nil_2].
    + exists ps, w. split; [done|]. split; [|done].
      rewrite Hid. clear. induction (run_range n); simpl; by f_equal.
  - exists ps, w. split; [done|]. split; [|done].
    rewrite Hid. unfold all_pairs. clear.
    induction models as [|cfg models IH]; [done|]. simpl.
    rewrite map_app, IH. f_equal. by rewrite List.map_map.
Qed.

Lemma assemble_graded models n task_data dir (st : state) :
  setup_error task_data = None ->
  exists logs ps w,
    assemble models n task_data dir st
    = (Ok tt,
       {| world := w;
          trace := trace st ++ logs ++ flat_map (report_events n) ps;
          result_row :=
            <[py "status" := VStr (py "completed")]>
              (fold_left (fun row p => report_row p row) ps (result_row st));
          out_file := out_file st |})
    /\ Forall is_file_log logs
    /\ List.map report_id ps = List.map pair_id (all_pairs models n)
    /\ Forall (fun p => report_ok (rubric_of task_data) p
                        /\ report_graded (rubric_of task_data) p) ps.
Proof.
  unfold setup_error, assemble, rubric_of.
  destruct (get_cell task_data (py "File Attachments") []) as [files|]; [|done].
  destruct (create_attachments_ok files dir st) as (atts & logs & Ha & Hl).
  erewrite bind_ok by exact Ha.
  destruct (get_cell task_data (py "Rubric JSON") []) as [rub|]; [|done].
  erewrite bind_ok by done.
  destruct (get_cell task_data (py "Domain") []) as [dom|]; [|done].
  destruct (get_cell task_data (py "Prompt") []) as [prompt|]; [|done].
  intros _. erewrite bind_ok by done.
  match goal with
  | |- context [process_pair ?fp ?r ?a _ _] =>
    destruct (pairs_loop_graded fp r a models n (add_trace st logs))
      as (ps & w & Hp & Hid & Hok)
  end.
  erewrite bind_ok by exact Hp.
  exists logs, ps, w. unfold row_set, advance, add_trace. simpl.
  split; [|done]. by rewrite <- app_assoc.
Qed.

Lemma process_task_graded task_data dir (st : state) :
  setup_error task_data = None ->
  exists logs ps w,
    let row := <[py "status" := VStr (py "completed")]>
                 (fold_left (fun row p => report_row p row) ps
                            (initial_row task_data)) in
    process_task task_data dir st
    = (Ok row,
       {| world := w;
          trace := trace st ++ EvLog (LogProcessing (task_id_of task_data))
                   :: logs ++ flat_map (report_events NUMBER_OF_RUNS) ps;
          result_row := row; out_file := out_file st |})
    /\ Forall is_file_log logs
    /\ NoDup (List.map report_prefix ps)
    /\ Forall (fun p => report_ok (rubric_of task_data) p
                        /\ report_graded (rubric_of task_data) p) ps.
Proof.
  intros He. unfold process_task, process_task_with, try_except.
  fold (task_id_of task_data). fold (initial_row task_data).
  unfold bind at 1. unfold log at 1. unfold emit.
  unfold bind at 1. unfold new_row. cbn [world trace result_row out_file].
  unfold bind at 1.
  match goal with
  | |- context [assemble MODELS NUMBER_OF_RUNS task_data dir ?s] =>
    destruct (assemble_graded MODELS NUMBER_OF_RUNS task_data dir s He)
      as (logs & ps & w & Ha & Hl & Hid & Hok)
  end.
  rewrite Ha. exists logs, ps, w.
  split; [unfold get_row; simpl; by rewrite <- !app_assoc|].
  split; [done|]. split; [|done].
  rewrite report_prefixes, Hid. apply configured_prefixes_distinct.
Qed.

(** X14. [process_task] always returns, and for every pair that was graded
    with success there is an answer of the grading collaborator to the
    pair's response and the task's rubric text such that the row holds the
    response, the answer's percentage as the score and, as the summary,
    the encoding of the task's rubric with the answer's verdicts injected:
    a mapping with the keys of the task's rubric, in the same order.  When
    the reasons of these verdicts are values that can be read back,
    [parse_rubric] decodes the summary to that enriched rubric. *)
Theorem graded_summary_holds_the_rubric task_data dir (st : state) :
  exists row st' evs,
    process_task task_data dir st = (Ok row, st')
    /\ trace st' = trace st ++ evs
    /\ forall m r g,
         EvGraded m r (Ok g) ∈ evs ->
         exists d resp (w : World) result,
           parse_rubric (rubric_of task_data) = Ok d
           /\ row !! (prefix_of m r ++ py "_response") = Some (VStr resp)
           /\ (run_grading_task_async
                 (grading_request resp (rubric_of task_data)) w).1
              = inr result
           /\ score g = percentage_score result
           /\ score_summary g
              = json_dumps
                  (JDict (fold_left inject (criteria_results result) d))
           /\ dict_keys (fold_left inject (criteria_results result) d)
              = dict_keys d
           /\ row !! (prefix_of m r ++ py "_score") = Some (VFloat (score g))
           /\ row !! (prefix_of m r ++ py "_score_summary")
              = Some (VStr (score_summary g))
           /\ (Forall cr_wf (criteria_results result) ->
               parse_rubric (score_summary g)
               = Ok (fold_left inject (criteria_results result) d)).
Proof.
  destruct (setup_error task_data) as [e|] eqn:He.
  - destruct (process_task_with_raise MODELS NUMBER_OF_RUNS task_data dir st e He)
      as (logs & Hrun & Hl).
    cbv zeta in Hrun. eexists _, _, _. split; [exact Hrun|].
    split; [reflexivity|]. intros m r g Hin. exfalso.
    apply elem_of_cons in Hin as [?|Hin]; [done|].
    apply elem_of_app in Hin as [Hin|Hin].
    + by eapply file_log_not_graded.
    + by apply list_elem_of_singleton in Hin.
  - destruct (process_task_graded task_data dir st He)
      as (logs & ps & w & Hrun & Hl & Hnd & Hok).
    cbv zeta in Hrun. eexists _, _, _. split; [exact Hrun|].
    split; [reflexivity|]. intros m r g Hin.
    apply elem_of_cons in Hin as [?|Hin]; [done|].
    apply elem_of_app in Hin as [Hin|Hin].
    { exfalso. by eapply file_log_not_graded. }
    apply graded_in_reports in Hin as (p & Hp & Hpid & Hgr).
    assert (Hpre : report_prefix p = prefix_of m r).
    { unfold report_prefix. by injection Hpid as -> ->. }
    rewrite Forall_forall in Hok. destruct (Hok p Hp) as [[[Hatt _] _] Hrg].
    destruct Hatt as (Hs & _ & _); [by rewrite Hgr|].
    unfold report_graded in Hrg. rewrite Hgr in Hrg.
    destruct Hrg as (st0 & st1 & Hrg).
    apply run_grading_ok_inv in Hrg as (d & res & Hd & Hans & Hscore & Hsum).
    exists d, (response (pr_gen p)), (world st0), res.
    split; [done|]. rewrite <- Hpre. split.
    { rewrite (final_row_lookup task_data ps p); [|done|done|apply response_key].
      unfold report_row. fold (report_prefix p). rewrite Hs, Hgr. simpl.
      rewrite lookup_insert_ne
        by (intros H; symmetry in H; by apply response_summary in H).
      rewrite lookup_insert_ne
        by (intros H; symmetry in H; by apply response_score in H).
      by rewrite lookup_insert_eq. }
    split; [done|]. split; [done|]. split; [done|].
    split; [apply fold_inject_keys|]. split; [|split].
    + rewrite (final_row_lookup task_data ps p); [|done|done|apply score_key].
      unfold report_row. fold (report_prefix p). rewrite Hs, Hgr. simpl.
      rewrite lookup_insert_ne by (symmetry; apply score_summary_ne).
      by rewrite lookup_insert_eq.
    + rewrite (final_row_lookup task_data ps p); [|done|done|apply summary_key].
      unfold report_row. fold (report_prefix p). rewrite Hs, Hgr. simpl.
      by rewrite lookup_insert_eq.
    + intros Hcrs. rewrite Hsum.
      apply parse_rubric_ok in Hd as [_ Hd].
      apply json_loads_wf in Hd as [Hwf Hfit].
      destruct (fold_inject_wf _ d Hwf Hfit Hcrs).
      by apply parse_rubric_dumps.
Qed.

End Summary.

(** ** The further properties on concrete runs *)

Lemma task_without_id_witness :
  task_id_of (task_row [] (py "Law") (py "Q?") [] []) = Some []
  /\ skipped resume_args (index_by_task_id [earlier_T1])
             (task_row [] (py "Law") (py "Q?") [] []) = false.
Proof.
  assert (H : task_id_of (task_row [] (py "Law") (py "Q?") [] []) = Some [])
    by (vm_compute; reflexivity).
  split; [exact H|].
  apply task_without_id_is_never_skipped. right. exact H.
Defined.

Lemma resume_after_complete_run_witness :
  exists st1 st2 : state,
    main fresh_args (Some (Ok sample_input)) (start world_ok None) = (Ok tt, st1)
    /\ main (with_resume fresh_args) (Some (Ok sample_input))
            (start world_ok (out_file st1)) = (Ok tt, st2)
    /\ out_file st2 = out_file st1
    /\ world st2 = world_ok.
Proof.
  assert (H1 : (main fresh_args (Some (Ok sample_input))
                     (start world_ok None)).1 = Ok tt)
    by (vm_compute; reflexivity).
  assert (Hr : readable <$> out_file (main fresh_args (Some (Ok sample_input))
                                           (start world_ok None)).2 = Some true)
    by (vm_compute; reflexivity).
  assert (Hids : forallb has_task_id (selected_tasks fresh_args sample_input)
                 = true) by (vm_compute; reflexivity).
  destruct (main fresh_args (Some (Ok sample_input)) (start world_ok None))
    as [r st1] eqn:Hm. simpl in H1, Hr. subst r.
  destruct (out_file st1) as [f1|] eqn:Hf; [|discriminate].
  injection Hr as Hr.
  destruct (resume_after_complete_run_adds_nothing
              fresh_args sample_input (start world_ok None) st1
              (start world_ok (Some f1)) f1)
    as (st2 & Hm2 & Ho & Hw & _).
  - reflexivity.
  - exact Hids.
  - exact Hm.
  - exact Hf.
  - exact Hr.
  - simpl. by rewrite Hf.
  - exists st1, st2. rewrite Hf. split; [reflexivity|]. split; [exact Hm2|].
    rewrite Hf in Ho. split; [exact Ho|exact Hw].
Defined.

Lemma selected_tasks_window_witness :
  (0 <= start_index fresh_args)%Z
  /\ selected_tasks fresh_args sample_input
     = take (Z.to_nat 5) (drop (Z.to_nat 0) (dict_reader sample_input)).
Proof.
  assert (H0 : (0 <= start_index fresh_args)%Z) by (simpl; lia).
  split; [exact H0|].
  apply (selected_tasks_window fresh_args sample_input H0). lia.
Defined.

Lemma task_with_missing_cell_witness :
  row_dict input_columns [py "T2"; py "Law"] !! py "Prompt" = Some None
  /\ exists e (st' : state),
       process_task (row_dict input_columns [py "T2"; py "Law"]) (py "/data")
                    (start world_ok None)
       = (Ok (<[py "status" := VStr (py "error: " ++ take 100 (exn_msg e))]>
                (initial_row (row_dict input_columns [py "T2"; py "Law"]))), st')
       /\ world st' = world_ok.
Proof.
  assert (H : row_dict input_columns [py "T2"; py "Law"] !! py "Prompt"
              = Some None) by (vm_compute; reflexivity).
  split; [exact H|].
  destruct (task_with_missing_cell_calls_nothing
              (row_dict input_columns [py "T2"; py "Law"]) (py "/data")
              (start world_ok None) (or_intror (or_intror (or_intror H))))
    as (e & st' & evs & Hrun & Hw & _).
  exists e, st'. split; [exact Hrun|exact Hw].
Defined.

Lemma format_prompt_witness :
  format_prompt (Some (py "Law")) (Some (py "{{Domain}}?"))
  = Ok (py "Domain: " ++ py "Law" ++ py " Task: " ++ py "{{Domain}}?" ++ []).
Proof.
  apply (format_prompt_fills_placeholders
           (py "Domain: ") (py " Task: ") [] (py "Law") (py "{{Domain}}?")).
  - reflexivity.
  - apply (bool_decide_unpack _). vm_compute. exact I.
  - apply (bool_decide_unpack _). vm_compute. exact I.
  - apply (bool_decide_unpack _). vm_compute. exact I.
  - apply (bool_decide_unpack _). vm_compute. exact I.
Defined.

Lemma load_existing_results_witness :
  exists idx,
    load_existing_results (start world_ok (Some earlier_output))
    = (Ok idx, start world_ok (Some earlier_output))
    /\ (r ← idx !! py "T1"; r !! py "status") = Some (Some (py "error: boom"))
    /\ idx !! py "T2" = None.
Proof.
  destruct (load_existing_results_last_record_wins
              (start world_ok (Some earlier_output))) as (idx & Hl & H).
  cbn [out_file start earlier_output readable] in H. destruct H as [H _].
  exists idx. split; [exact Hl|]. split.
  - rewrite (H (py "T1")) by discriminate. vm_compute. reflexivity.
  - rewrite (H (py "T2")) by discriminate. vm_compute. reflexivity.
Defined.

Lemma graded_summary_witness :
  match process_task task_T1 (py "/data") (start world_ok None) with
  | (Ok row, _) =>
    row !! (prefix_of opus 1 ++ py "_score") = Some (VFloat (FNum false 7036874417766400 (-46)))
    /\ row !! (prefix_of opus 1 ++ py "_score_summary")
       = Some (VStr (pyq "{'c1': {'description': 'x', 'autorating': true, 'reason': 'ok'}}"))
  | _ => False
  end.
Proof.
  destruct (graded_summary_holds_the_rubric task_T1 (py "/data")
              (start world_ok None))
    as (row & st' & evs & Hrun & Htr & H).
  rewrite Hrun.
  destruct (H opus 1
              {| score := FNum false 7036874417766400 (-46);
                 score_summary :=
                   pyq "{'c1': {'description': 'x', 'autorating': true, 'reason': 'ok'}}" |})
    as (d & resp & w & res & _ & _ & _ & _ & _ & _ & Hscore & Hsum & _).
  - run_events Hrun Htr.
  - split; [exact Hscore|exact Hsum].
Defined.

(** ** The header columns *)

Lemma digit_code_inj a b : digit_code a = digit_code b -> a = b.
Proof. destruct a, b; (reflexivity || discriminate). Qed.

Lemma N_repr_inj n m : N_repr n = N_repr m -> n = m.
Proof.
  unfold N_repr, digits_str. intros H.
  assert (Hl : to_list (N.to_uint n) = to_list (N.to_uint m)).
  { revert H. generalize (to_list (N.to_uint n)) (to_list (N.to_uint m)).
    induction l as [|a l IH]; intros [|b l'] Hm; try done.
    injection Hm as Hab Hl. f_equal; [by apply digit_code_inj|by apply IH]. }
  apply (f_equal of_list) in Hl. rewrite !of_list_to_list in Hl.
  apply (f_equal N.of_uint) in Hl. by rewrite !DecimalN.Unsigned.of_to in Hl.
Qed.

Lemma N_repr_no_underscore n : 95 ∉ N_repr n.
Proof.
  unfold N_repr, digits_str. induction (to_list (N.to_uint n)) as [|d l IH].
  - apply not_elem_of_nil.
  - simpl. apply not_elem_of_cons. split; [by destruct d|done].
Qed.

Lemma split_at_first (sep : N) (a a' b b' : str) :
  sep ∉ a -> sep ∉ a' -> a ++ sep :: b = a' ++ sep :: b' -> a = a' /\ b = b'.
Proof.
  revert a'. induction a as [|c a IH]; intros [|c' a'] Ha Ha' Heq; simpl in Heq.
  - by injection Heq as ->.
  - injection Heq as <- _. exfalso. apply Ha'. apply list_elem_of_here.
  - injection Heq as -> _. exfalso. apply Ha. apply list_elem_of_here.
  - injection Heq as -> Heq.
    apply not_elem_of_cons in Ha as [_ Ha]. apply not_elem_of_cons in Ha' as [_ Ha'].
    destruct (IH a' Ha Ha' Heq) as [-> ->]. done.
Qed.

Lemma prefix_of_inj m r m' r' :
  prefix_of m r = prefix_of m' r' -> sanitize m = sanitize m' /\ r = r'.
Proof.
  unfold prefix_of. change (py "_") with [95]. intros H.
  apply (f_equal (@rev N)) in H. rewrite !rev_app_distr in H. simpl in H.
  rewrite <- !app_assoc in H. simpl in H.
  apply split_at_first in H as [Hr Hm].
  - apply (f_equal (@rev N)) in Hr, Hm. rewrite !rev_involutive in Hr, Hm.
    split; [done|by apply N_repr_inj].
  - rewrite list_elem_of_In, <- in_rev, <- list_elem_of_In. apply N_repr_no_underscore.
  - rewrite list_elem_of_In, <- in_rev, <- list_elem_of_In. apply N_repr_no_underscore.
Qed.

Lemma NoDup_flat_map_key {A B C} (f : A -> list C) (g : A -> B) (l : list A) :
  NoDup (List.map g l) ->
  (forall x, NoDup (f x)) ->
  (forall x y k, k ∈ f x -> k ∈ f y -> g x = g y) ->
  NoDup (flat_map f l).
Proof.
  intros Hl Hf Hkey. induction l as [|a l IH]; simpl; [constructor|].
  simpl in Hl. apply NoDup_cons in Hl as [Ha Hl].
  apply NoDup_app. split; [apply Hf|]. split; [|by apply IH].
  intros k Hk Hin. apply Ha.
  apply list_elem_of_In, in_flat_map in Hin as (y & Hy & Hky).
  rewrite (Hkey a y k Hk (proj2 (list_elem_of_In _ _) Hky)).
  apply list_elem_of_In, in_map, Hy.
Qed.

Lemma pair_keys_NoDup prefix : NoDup (pair_keys prefix).
Proof.
  unfold pair_keys. repeat (apply NoDup_cons; split).
  - intros [H|[H|H]%elem_of_cons]%elem_of_cons.
    + by apply response_score in H.
    + by apply response_summary in H.
    + by apply elem_of_nil in H.
  - intros [H|H]%elem_of_cons.
    + by apply score_summary_ne in H.
    + by apply elem_of_nil in H.
  - apply not_elem_of_nil.
  - apply NoDup_nil_2.
Qed.

Lemma run_range_NoDup n : NoDup (run_range n).
Proof.
  unfold run_range. apply (NoDup_fmap_2 N.of_nat).
  apply NoDup_ListNoDup, List.seq_NoDup.
Qed.

(** X15. Whatever the models and the number of runs, the header has the
    three fixed columns and three columns per model and run; and when the
    sanitized identifiers of the models are pairwise distinct, no column
    name occurs twice in it. *)
Theorem headers_are_distinct (models : list model_cfg) (n : nat) :
  NoDup (List.map (fun cfg => sanitize (model_id cfg)) models) ->
  NoDup (headers_for models n)
  /\ length (headers_for models n) = (3 + 3 * (length models * n))%nat.
Proof.
  intros Hm. split.
  - unfold headers_for. apply NoDup_app. split; [|split].
    + apply (bool_decide_unpack _). by vm_compute.
    + intros k Hk Hin.
      apply list_elem_of_In, in_flat_map in Hin as (cfg & _ & Hin).
      apply in_flat_map in Hin as (run & _ & Hin).
      apply list_elem_of_In in Hin.
      change (k ∈ pair_keys (prefix_of (model_id cfg) run)) in Hin.
      apply pair_key_not_fixed in Hin as (H1 & H2 & H3).
      repeat (apply elem_of_cons in Hk as [Hk|Hk]; [done|]).
      by apply elem_of_nil in Hk.
    + apply (NoDup_flat_map_key _ (fun cfg => sanitize (model_id cfg))); [done| |].
      * intros cfg.
        apply (NoDup_flat_map_key _ (fun run : N => run)).
        -- rewrite List.map_id. apply run_range_NoDup.
        -- intros run. apply (pair_keys_NoDup (prefix_of (model_id cfg) run)).
        -- intros r r' k Hk Hk'.
           change (k ∈ pair_keys (prefix_of (model_id cfg) r)) in Hk.
           change (k ∈ pair_keys (prefix_of (model_id cfg) r')) in Hk'.
           pose proof (pair_keys_disjoint _ _ _ Hk Hk') as Heq.
           by apply prefix_of_inj in Heq as [_ ?].
      * intros cfg cfg' k Hk Hk'.
        apply list_elem_of_In, in_flat_map in Hk as (r & _ & Hk).
        apply list_elem_of_In, in_flat_map in Hk' as (r' & _ & Hk').
        apply list_elem_of_In in Hk, Hk'.
        change (k ∈ pair_keys (prefix_of (model_id cfg) r)) in Hk.
        change (k ∈ pair_keys (prefix_of (model_id cfg') r')) in Hk'.
        pose proof (pair_keys_disjoint _ _ _ Hk Hk') as Heq.
        by apply prefix_of_inj in Heq as [? _].
  - unfold headers_for. rewrite length_app.
    assert (Hin : forall (cfg : model_cfg) (l : list N),
              length (flat_map (fun run =>
                [prefix_of (model_id cfg) run ++ py "_response";
                 prefix_of (model_id cfg) run ++ py "_score";
                 prefix_of (model_id cfg) run ++ py "_score_summary"]) l)
              = (3 * length l)%nat).
    { intros cfg l. induction l as [|r l IHl]; [done|].
      cbn [flat_map app length]. rewrite IHl. lia. }
    assert (Hall : length (flat_map (fun model =>
                     flat_map (fun run =>
                       [prefix_of (model_id model) run ++ py "_response";
                        prefix_of (model_id model) run ++ py "_score";
                        prefix_of (model_id model) run ++ py "_score_summary"])
                       (run_range n)) models)
                   = (3 * (length models * n))%nat).
    { clear Hm. induction models as [|cfg models IH]; [done|].
      cbn [flat_map length]. rewrite length_app, IH, Hin.
      unfold run_range. rewrite length_map, length_seq. lia. }
    rewrite Hall. reflexivity.
Qed.

Lemma headers_are_distinct_witness :
  NoDup get_csv_headers /\ length get_csv_headers = 9%nat.
Proof.
  destruct (headers_are_distinct MODELS NUMBER_OF_RUNS) as [Hn Hl].
  - apply (bool_decide_unpack _). vm_compute. exact I.
  - split; [exact Hn|exact Hl].
Defined.
